(** * Stella, [src/common/SoundSDL2.cxx]: the SDL2 sound back end

    A shallow embedding of the class [SoundSDL2]: the primary stream (device
    open and re-open, mute, volume, the device callback with its resampler
    and prebuffer policy) and the WAV overlay (play, stop, length query and
    its callback).  Member functions are state transformers over a record
    holding the members of the class, the statics of the WAV path and the
    state of the SDL audio subsystem; C++ exceptions are an outcome of the
    monad.  Integers are [Z] with the wrap-around of their C++ type written
    out, [float] is IEEE binary32 and [double] binary64 (Stdlib's
    [SpecFloat]). *)

From Stdlib Require Import ZArith String Ascii List Bool Lia.
From Stdlib Require Import Floats.SpecFloat.
From stdpp Require Import base option list gmap strings pretty.
From coqutil Require Import Datatypes.RecordSetters.
Import TriangleBracketNotations.
Arguments constant {E} newValue _ /.

Local Open Scope string_scope.
Local Open Scope Z_scope.

(** ** Machine integers *)

(** [static_cast<uInt32>(z)]: reduction modulo 2^32. *)
Definition uInt32 (z : Z) : Z := z mod 2 ^ 32.

(** [static_cast<Uint16>(z)]. *)
Definition Uint16 (z : Z) : Z := z mod 2 ^ 16.

(** Conversion to [int] (two's complement, 32 bits). *)
Definition Int32 (z : Z) : Z := (z + 2 ^ 31) mod 2 ^ 32 - 2 ^ 31.

(** [BSPF::clamp(val, lower, upper)]. *)
Definition clamp (val lower upper : Z) : Z :=
  if val <? lower then lower else if val >? upper then upper else val.

(** ** Floating point *)

(** C++ [float]: IEEE 754 binary32, round to nearest even. *)
Abbreviation float := spec_float.

Definition fmul (x y : float) : float := SFmul 24 128 x y.
Definition fdiv (x y : float) : float := SFdiv 24 128 x y.

(** Conversion of an integer to [float] ([static_cast<float>(z)]). *)
Definition float_of_Z (z : Z) : float := binary_normalize 24 128 z 0 false.

(** C++ [double]: IEEE 754 binary64. *)
Abbreviation double := spec_float.

Definition dmul (x y : double) : double := SFmul 53 1024 x y.
Definition ddiv (x y : double) : double := SFdiv 53 1024 x y.
Definition double_of_Z (z : Z) : double := binary_normalize 53 1024 z 0 false.

(** [x != y] on floating-point numbers (true when either is a NaN). *)
Definition fneq (x y : spec_float) : bool :=
  match SFcompare x y with
  | Some Eq => false
  | _ => true
  end.

(** [std::round] followed by the conversion to [int]: nearest integer, ties
    away from zero.  The conversion of an infinity or a NaN is undefined in
    C++; it is 0 here. *)
Definition round_to_int (x : double) : Z :=
  match x with
  | S754_finite s m e =>
      let mag :=
        if 0 <=? e then Z.shiftl (Z.pos m) e
        else Z.shiftr (Z.pos m + Z.shiftl 1 (- e - 1)) (- e) in
      Int32 (if s then - mag else mag)
  | _ => 0
  end.

(** Machine arithmetic stays folded when the model is simplified. *)
Arguments uInt32 : simpl never.
Arguments Uint16 : simpl never.
Arguments Int32 : simpl never.
Arguments fmul : simpl never.
Arguments fdiv : simpl never.
Arguments float_of_Z : simpl never.
Arguments dmul : simpl never.
Arguments ddiv : simpl never.
Arguments double_of_Z : simpl never.
Arguments fneq : simpl never.
Arguments round_to_int : simpl never.

(** A sample that is a number of finite magnitude. *)
Definition is_finite (x : float) : bool :=
  match x with
  | S754_zero _ | S754_finite _ _ _ => true
  | _ => false
  end.

(** A sample of value zero (either sign). *)
Definition is_zero (x : float) : bool :=
  match x with
  | S754_zero _ => true
  | _ => false
  end.

(** A sample that halving keeps exact: zero, or a normal number above the
    lowest binade (2^-126 and up in magnitude). *)
Definition halves_exactly (x : float) : bool :=
  match x with
  | S754_zero _ => true
  | S754_finite _ m e =>
      valid_binary 24 128 x && (Z.pos (digits2_pos m) =? 24) && (-149 <? e)
  | _ => false
  end.

(** The value of a finite sample in units of 2^-149, the spacing of the
    smallest binary32 numbers: an integer for every valid sample. *)
Definition float_units (x : float) : Z :=
  match x with
  | S754_finite s m e => (if s then -1 else 1) * (Z.pos m * 2 ^ (e + 149))
  | _ => 0
  end.

(** Two finite samples that are equal up to rounding: at most one such unit
    apart. *)
Definition within_rounding (x y : float) : bool :=
  is_finite x && is_finite y && (Z.abs (float_units x - float_units y) <=? 1).

(** ** Exceptions and the state monad *)

Inductive Exception :=
| out_of_range            (* [std::vector::at] *)
| runtime_error (what : string)
| null_dereference.       (* a member access through a null pointer *)

Inductive Outcome (A : Type) :=
| Ok (a : A)
| Throw (e : Exception).
Arguments Ok {A} a.
Arguments Throw {A} e.

Definition StateExc (S A : Type) : Type := S -> Outcome A * S.

Definition ret {S A} (a : A) : StateExc S A := fun s => (Ok a, s).

Definition bind {S A B} (m : StateExc S A) (k : A -> StateExc S B) : StateExc S B :=
  fun s =>
    match m s with
    | (Ok a, s') => k a s'
    | (Throw e, s') => (Throw e, s')
    end.

Definition throw {S A} (e : Exception) : StateExc S A := fun s => (Throw e, s).
Definition gets {S A} (f : S -> A) : StateExc S A := fun s => (Ok (f s), s).
Definition modify {S} (f : S -> S) : StateExc S unit := fun s => (Ok tt, f s).

(** [when c m]: an [if] without [else]. *)
Definition when {S} (c : bool) (m : StateExc S unit) : StateExc S unit :=
  if c then m else ret tt.

Declare Scope cxx_scope.
Delimit Scope cxx_scope with cxx.
Notation "x <- c1 ;; c2" := (bind c1 (fun x => c2))
  (at level 100, c1 at next level, right associativity) : cxx_scope.
Notation "c1 ;; c2" := (bind c1 (fun _ => c2))
  (at level 100, right associativity) : cxx_scope.
Local Open Scope cxx_scope.

(** ** The SDL audio subsystem *)

Inductive AudioCallback := cb_callback | cb_wavCallback.

Record SDL_AudioSpec := {
  freq : Z;                         (* int *)
  format : Z;                       (* SDL_AudioFormat *)
  channels : Z;                     (* Uint8 *)
  silence : Z;                      (* Uint8 *)
  samples : Z;                      (* Uint16 *)
  callback_fn : option AudioCallback
}.

#[export] Instance set_callback_fn : Setter callback_fn := fun u r =>
  Build_SDL_AudioSpec
    (freq r) (format r) (channels r) (silence r) (samples r) (u (callback_fn r)).


(** [SDL_zero(spec)]. *)
Definition SDL_AudioSpec_zero : SDL_AudioSpec :=
  {| freq := 0; format := 0; channels := 0; silence := 0; samples := 0;
     callback_fn := None |}.

Definition AUDIO_F32SYS : Z := 0x8120.
Definition SDL_AUDIO_ALLOW_FREQUENCY_CHANGE : Z := 1.
Definition SDL_MIX_MAXVOLUME : Z := 128.

Inductive SDL_AudioStatus := SDL_AUDIO_STOPPED | SDL_AUDIO_PLAYING | SDL_AUDIO_PAUSED.

(** The calls into SDL that act on a device or on memory, in the order made
    (most recent first). *)
Inductive SDL_Call :=
| Call_OpenAudioDevice (device : option string) (desired : SDL_AudioSpec) (allowed : Z)
| Call_CloseAudioDevice (dev : Z)
| Call_PauseAudioDevice (dev : Z) (pause_on : Z)
| Call_LockAudioDevice (dev : Z)
| Call_UnlockAudioDevice (dev : Z)
| Call_LoadWAV (file : string)
| Call_FreeWAV (buf : Z)
| Call_memset (value len : Z)
| Call_MixAudioFormat (src : Z) (fmt : Z) (len : Z) (volume : float)
| Call_BuildAudioCVT (fmt chans src_rate dst_rate : Z)
| Call_memcpy (dst src len : Z)
| Call_ConvertAudio (buf : Z) (len : Z)
| Call_malloc (size : Z)
| Call_free (ptr : Z).

(** The open devices, each paused or playing, and the calls made so far. *)
Record SDL_State := {
  sdl_devices : gmap Z bool;
  sdl_calls : list SDL_Call
}.

#[export] Instance set_sdl_devices : Setter sdl_devices := fun u r =>
  Build_SDL_State
    (u (sdl_devices r)) (sdl_calls r).
#[export] Instance set_sdl_calls : Setter sdl_calls := fun u r =>
  Build_SDL_State
    (sdl_devices r) (u (sdl_calls r)).


(** What lies behind SDL: the audio hardware and the file system. *)
Record OpenResult := {
  opened : bool;
  obtained : option SDL_AudioSpec   (* what SDL writes through [obtained] *)
}.

Record WavData := {
  wav_spec : SDL_AudioSpec;
  wav_buf : positive;               (* address of the decoded samples *)
  wav_len : Z                       (* their length in bytes, a Uint32 *)
}.

Record AudioCVT := {
  cvt_needed : bool;
  cvt_len_mult : Z;
  cvt_len_cvt : Z -> Z              (* converted length for a source length *)
}.

Class Host := {
  host_open : option string -> SDL_AudioSpec -> Z -> OpenResult;
  host_wav : string -> option WavData;
  host_cvt : Z -> Z -> Z -> Z -> AudioCVT;
  host_malloc : Z -> Z
}.

(** What SDL reports when the object is constructed: whether the audio
    subsystem came up ([SDL_InitSubSystem]) and the names of the playback
    devices ([SDL_GetNumAudioDevices], [SDL_GetAudioDeviceName]). *)
Class HostAudio := {
  host_init_audio : bool;
  host_device_names : list string
}.

Definition sdl_log (c : SDL_Call) (w : SDL_State) : SDL_State :=
  w<|sdl_calls ::= cons c|>.

Definition SDL_GetAudioDeviceStatus (w : SDL_State) (dev : Z) : SDL_AudioStatus :=
  match sdl_devices w !! dev with
  | Some true => SDL_AUDIO_PAUSED
  | Some false => SDL_AUDIO_PLAYING
  | None => SDL_AUDIO_STOPPED
  end.

Definition SDL_PauseAudioDevice (dev pause_on : Z) (w : SDL_State) : SDL_State :=
  sdl_log (Call_PauseAudioDevice dev pause_on)
    (w<|sdl_devices ::= alter (fun _ => negb (pause_on =? 0)) dev|>).

Definition SDL_CloseAudioDevice (dev : Z) (w : SDL_State) : SDL_State :=
  sdl_log (Call_CloseAudioDevice dev) (w<|sdl_devices ::= delete dev|>).

(** Device ids are 2 .. 16; the lowest free one is handed out. *)
Definition free_device_id (w : SDL_State) : option Z :=
  List.find (fun id => bool_decide (sdl_devices w !! id = None)) (seqZ 2 15).

(** A device is paused when it has just been opened. *)
Definition SDL_OpenAudioDevice `{Host} (device : option string) (desired : SDL_AudioSpec)
    (allowed : Z) (w : SDL_State) : (Z * option SDL_AudioSpec) * SDL_State :=
  let r := host_open device desired allowed in
  let w' := sdl_log (Call_OpenAudioDevice device desired allowed) w in
  match opened r, free_device_id w with
  | true, Some id => ((id, obtained r), w'<|sdl_devices ::= <[id := true]>|>)
  | _, _ => ((0, obtained r), w')
  end.

(** The calls that open or close a device. *)
Definition opens_or_closes (c : SDL_Call) : bool :=
  match c with
  | Call_OpenAudioDevice _ _ _ | Call_CloseAudioDevice _ => true
  | _ => false
  end.

Arguments SDL_OpenAudioDevice : simpl never.
Arguments SDL_PauseAudioDevice : simpl never.
Arguments SDL_CloseAudioDevice : simpl never.
Arguments sdl_log : simpl never.

(** ** Collaborators of [SoundSDL2] *)

Inductive Preset :=
| custom | lowQualityMediumLag | highQualityMediumLag | highQualityLowLag
| ultraQualityMinimalLag.

Inductive ResamplingQuality := nearestNeightbour | lanczos_2 | lanczos_3.

Module AudioSettings.

(** Modelled from the spec: the class [AudioSettings], whose source is not
    part of the material: the configuration the engine reads (sample rate,
    fragment size, device identifier, resampling quality, preset, headroom
    and buffer size, volume, enabled) and the two values it writes back. *)
Record t := {
  enabled : bool;
  volume : Z;                       (* uInt32 *)
  sampleRate : Z;                   (* uInt32 *)
  fragmentSize : Z;                 (* uInt32 *)
  device : Z;                       (* uInt32 *)
  preset : Preset;
  resamplingQuality : ResamplingQuality;
  headroom : Z;                     (* uInt32 *)
  bufferSize : Z                    (* uInt32 *)
}.

#[export] Instance set_enabled : Setter enabled := fun u r =>
  Build_t
    (u (enabled r)) (volume r) (sampleRate r) (fragmentSize r) (device r) (preset r)
    (resamplingQuality r) (headroom r) (bufferSize r).
#[export] Instance set_volume : Setter volume := fun u r =>
  Build_t
    (enabled r) (u (volume r)) (sampleRate r) (fragmentSize r) (device r) (preset r)
    (resamplingQuality r) (headroom r) (bufferSize r).


Definition setEnabled (isEnabled : bool) (a : t) : t := a<|enabled := isEnabled|>.
Definition setVolume (percent : Z) (a : t) : t := a<|volume := percent|>.

End AudioSettings.

(** Modelled from the spec: the emulation-timing descriptor bound by [open],
    read for the emulation's audio sample rate and for the prebuffer
    fragment count. *)
Record EmulationTiming := {
  audioSampleRate : Z;              (* uInt32 *)
  prebufferFragmentCount : Z        (* uInt32 *)
}.

(** A fragment: the [Int16] samples an [Int16*] of the queue points to. *)
Definition Fragment : Type := list Z.

(** The fragment queue ([AudioQueue], an external class) through the member
    functions [SoundSDL2] calls. *)
Class AudioQueueOps (AudioQueue : Type) := {
  queue_size : AudioQueue -> Z;
  queue_dequeue : option Fragment -> AudioQueue -> option Fragment * AudioQueue;
  queue_ignoreOverflows : bool -> AudioQueue -> AudioQueue;
  queue_closeSink : option Fragment -> AudioQueue -> AudioQueue;
  queue_fragmentSize : AudioQueue -> Z;
  queue_isStereo : AudioQueue -> bool
}.

(** [Resampler::Format]. *)
Record Format := {
  fmt_sampleRate : Z;
  fmt_fragmentSize : Z;
  fmt_stereo : bool
}.

(** The abstract class [Resampler] with its two implementations.
    [fillFragment] writes into the stream and pulls fragments through the
    callback it was constructed with; the callback acts on the state of
    whoever supplied it. *)
Class ResamplerOps (Resampler : Type) := {
  SimpleResampler : Format -> Format -> Resampler;
  LanczosResampler : Format -> Format -> Z -> Resampler;
  fillFragment : forall {S : Type}, StateExc S (option Fragment) ->
    list float -> Z -> Resampler -> StateExc S (Resampler * list float)
}.

(** What the engine relies on in a resampler: [fillFragment] acts on the
    state of its caller through the callback only, so that whatever every
    pull keeps, filling a fragment keeps. *)
Class ResamplerLawful (Resampler : Type) `{ResamplerOps Resampler} : Prop :=
  fillFragment_keeps :
    forall (S : Type) (P : S -> Prop) (next : StateExc S (option Fragment))
      (stream : list float) (len : Z) (r : Resampler) (s : S),
      (forall s0, P s0 -> P (snd (next s0))) -> P s ->
      P (snd (fillFragment next stream len r s)).

(** ** The class [SoundSDL2] *)

Section SoundSDL2.

Context {AudioQueue Resampler : Type}.
Context `{Host} `{AudioQueueOps AudioQueue} `{ResamplerOps Resampler}.

(** The members of the class, the statics of the WAV path, the SDL audio
    subsystem and the text messages handed to the frame buffer.  A null
    object pointer is [None]; a null buffer address is 0. *)
Record SoundSDL2 := {
  myAudioSettings : AudioSettings.t;
  myDevices : list (string * Z);
  myIsInitializedFlag : bool;
  myVolume : Z;
  myVolumeFactor : float;
  myDevice : Z;
  myDeviceId : Z;
  myHardwareSpec : SDL_AudioSpec;
  myAudioQueue : option AudioQueue;
  myEmulationTiming : option EmulationTiming;
  myCurrentFragment : option Fragment;
  myUnderrun : bool;
  myMuteState : bool;
  myResampler : option Resampler;
  myAboutString : string;
  myWavFilename : string;
  myWavLength : Z;
  myWavDevice : Z;
  myWavBuffer : Z;
  myWavVolumeFactor : float;
  myWavSpec : SDL_AudioSpec;
  myWavPos : Z;
  myWavLen : Z;
  myWavSpeed : double;
  myWavCvtBuffer : Z;
  myWavCvtBufferSize : Z;
  sdl : SDL_State;
  shownMessages : list string
}.

(** Record update, one setter for each member. *)
#[global] Instance set_myAudioSettings : Setter myAudioSettings := fun u r =>
  Build_SoundSDL2
    (u (myAudioSettings r)) (myDevices r) (myIsInitializedFlag r) (myVolume r)
    (myVolumeFactor r) (myDevice r) (myDeviceId r) (myHardwareSpec r) (myAudioQueue r)
    (myEmulationTiming r) (myCurrentFragment r) (myUnderrun r) (myMuteState r)
    (myResampler r) (myAboutString r) (myWavFilename r) (myWavLength r) (myWavDevice r)
    (myWavBuffer r) (myWavVolumeFactor r) (myWavSpec r) (myWavPos r) (myWavLen r)
    (myWavSpeed r) (myWavCvtBuffer r) (myWavCvtBufferSize r) (sdl r) (shownMessages r).
#[global] Instance set_myDevices : Setter myDevices := fun u r =>
  Build_SoundSDL2
    (myAudioSettings r) (u (myDevices r)) (myIsInitializedFlag r) (myVolume r)
    (myVolumeFactor r) (myDevice r) (myDeviceId r) (myHardwareSpec r) (myAudioQueue r)
    (myEmulationTiming r) (myCurrentFragment r) (myUnderrun r) (myMuteState r)
    (myResampler r) (myAboutString r) (myWavFilename r) (myWavLength r) (myWavDevice r)
    (myWavBuffer r) (myWavVolumeFactor r) (myWavSpec r) (myWavPos r) (myWavLen r)
    (myWavSpeed r) (myWavCvtBuffer r) (myWavCvtBufferSize r) (sdl r) (shownMessages r).
#[global] Instance set_myIsInitializedFlag : Setter myIsInitializedFlag := fun u r =>
  Build_SoundSDL2
    (myAudioSettings r) (myDevices r) (u (myIsInitializedFlag r)) (myVolume r)
    (myVolumeFactor r) (myDevice r) (myDeviceId r) (myHardwareSpec r) (myAudioQueue r)
    (myEmulationTiming r) (myCurrentFragment r) (myUnderrun r) (myMuteState r)
    (myResampler r) (myAboutString r) (myWavFilename r) (myWavLength r) (myWavDevice r)
    (myWavBuffer r) (myWavVolumeFactor r) (myWavSpec r) (myWavPos r) (myWavLen r)
    (myWavSpeed r) (myWavCvtBuffer r) (myWavCvtBufferSize r) (sdl r) (shownMessages r).
#[global] Instance set_myVolume : Setter myVolume := fun u r =>
  Build_SoundSDL2
    (myAudioSettings r) (myDevices r) (myIsInitializedFlag r) (u (myVolume r))
    (myVolumeFactor r) (myDevice r) (myDeviceId r) (myHardwareSpec r) (myAudioQueue r)
    (myEmulationTiming r) (myCurrentFragment r) (myUnderrun r) (myMuteState r)
    (myResampler r) (myAboutString r) (myWavFilename r) (myWavLength r) (myWavDevice r)
    (myWavBuffer r) (myWavVolumeFactor r) (myWavSpec r) (myWavPos r) (myWavLen r)
    (myWavSpeed r) (myWavCvtBuffer r) (myWavCvtBufferSize r) (sdl r) (shownMessages r).
#[global] Instance set_myVolumeFactor : Setter myVolumeFactor := fun u r =>
  Build_SoundSDL2
    (myAudioSettings r) (myDevices r) (myIsInitializedFlag r) (myVolume r) (u
    (myVolumeFactor r)) (myDevice r) (myDeviceId r) (myHardwareSpec r) (myAudioQueue r)
    (myEmulationTiming r) (myCurrentFragment r) (myUnderrun r) (myMuteState r)
    (myResampler r) (myAboutString r) (myWavFilename r) (myWavLength r) (myWavDevice r)
    (myWavBuffer r) (myWavVolumeFactor r) (myWavSpec r) (myWavPos r) (myWavLen r)
    (myWavSpeed r) (myWavCvtBuffer r) (myWavCvtBufferSize r) (sdl r) (shownMessages r).
#[global] Instance set_myDevice : Setter myDevice := fun u r =>
  Build_SoundSDL2
    (myAudioSettings r) (myDevices r) (myIsInitializedFlag r) (myVolume r)
    (myVolumeFactor r) (u (myDevice r)) (myDeviceId r) (myHardwareSpec r) (myAudioQueue
    r) (myEmulationTiming r) (myCurrentFragment r) (myUnderrun r) (myMuteState r)
    (myResampler r) (myAboutString r) (myWavFilename r) (myWavLength r) (myWavDevice r)
    (myWavBuffer r) (myWavVolumeFactor r) (myWavSpec r) (myWavPos r) (myWavLen r)
    (myWavSpeed r) (myWavCvtBuffer r) (myWavCvtBufferSize r) (sdl r) (shownMessages r).
#[global] Instance set_myDeviceId : Setter myDeviceId := fun u r =>
  Build_SoundSDL2
    (myAudioSettings r) (myDevices r) (myIsInitializedFlag r) (myVolume r)
    (myVolumeFactor r) (myDevice r) (u (myDeviceId r)) (myHardwareSpec r) (myAudioQueue
    r) (myEmulationTiming r) (myCurrentFragment r) (myUnderrun r) (myMuteState r)
    (myResampler r) (myAboutString r) (myWavFilename r) (myWavLength r) (myWavDevice r)
    (myWavBuffer r) (myWavVolumeFactor r) (myWavSpec r) (myWavPos r) (myWavLen r)
    (myWavSpeed r) (myWavCvtBuffer r) (myWavCvtBufferSize r) (sdl r) (shownMessages r).
#[global] Instance set_myHardwareSpec : Setter myHardwareSpec := fun u r =>
  Build_SoundSDL2
    (myAudioSettings r) (myDevices r) (myIsInitializedFlag r) (myVolume r)
    (myVolumeFactor r) (myDevice r) (myDeviceId r) (u (myHardwareSpec r)) (myAudioQueue
    r) (myEmulationTiming r) (myCurrentFragment r) (myUnderrun r) (myMuteState r)
    (myResampler r) (myAboutString r) (myWavFilename r) (myWavLength r) (myWavDevice r)
    (myWavBuffer r) (myWavVolumeFactor r) (myWavSpec r) (myWavPos r) (myWavLen r)
    (myWavSpeed r) (myWavCvtBuffer r) (myWavCvtBufferSize r) (sdl r) (shownMessages r).
#[global] Instance set_myAudioQueue : Setter myAudioQueue := fun u r =>
  Build_SoundSDL2
    (myAudioSettings r) (myDevices r) (myIsInitializedFlag r) (myVolume r)
    (myVolumeFactor r) (myDevice r) (myDeviceId r) (myHardwareSpec r) (u (myAudioQueue
    r)) (myEmulationTiming r) (myCurrentFragment r) (myUnderrun r) (myMuteState r)
    (myResampler r) (myAboutString r) (myWavFilename r) (myWavLength r) (myWavDevice r)
    (myWavBuffer r) (myWavVolumeFactor r) (myWavSpec r) (myWavPos r) (myWavLen r)
    (myWavSpeed r) (myWavCvtBuffer r) (myWavCvtBufferSize r) (sdl r) (shownMessages r).
#[global] Instance set_myEmulationTiming : Setter myEmulationTiming := fun u r =>
  Build_SoundSDL2
    (myAudioSettings r) (myDevices r) (myIsInitializedFlag r) (myVolume r)
    (myVolumeFactor r) (myDevice r) (myDeviceId r) (myHardwareSpec r) (myAudioQueue r)
    (u (myEmulationTiming r)) (myCurrentFragment r) (myUnderrun r) (myMuteState r)
    (myResampler r) (myAboutString r) (myWavFilename r) (myWavLength r) (myWavDevice r)
    (myWavBuffer r) (myWavVolumeFactor r) (myWavSpec r) (myWavPos r) (myWavLen r)
    (myWavSpeed r) (myWavCvtBuffer r) (myWavCvtBufferSize r) (sdl r) (shownMessages r).
#[global] Instance set_myCurrentFragment : Setter myCurrentFragment := fun u r =>
  Build_SoundSDL2
    (myAudioSettings r) (myDevices r) (myIsInitializedFlag r) (myVolume r)
    (myVolumeFactor r) (myDevice r) (myDeviceId r) (myHardwareSpec r) (myAudioQueue r)
    (myEmulationTiming r) (u (myCurrentFragment r)) (myUnderrun r) (myMuteState r)
    (myResampler r) (myAboutString r) (myWavFilename r) (myWavLength r) (myWavDevice r)
    (myWavBuffer r) (myWavVolumeFactor r) (myWavSpec r) (myWavPos r) (myWavLen r)
    (myWavSpeed r) (myWavCvtBuffer r) (myWavCvtBufferSize r) (sdl r) (shownMessages r).
#[global] Instance set_myUnderrun : Setter myUnderrun := fun u r =>
  Build_SoundSDL2
    (myAudioSettings r) (myDevices r) (myIsInitializedFlag r) (myVolume r)
    (myVolumeFactor r) (myDevice r) (myDeviceId r) (myHardwareSpec r) (myAudioQueue r)
    (myEmulationTiming r) (myCurrentFragment r) (u (myUnderrun r)) (myMuteState r)
    (myResampler r) (myAboutString r) (myWavFilename r) (myWavLength r) (myWavDevice r)
    (myWavBuffer r) (myWavVolumeFactor r) (myWavSpec r) (myWavPos r) (myWavLen r)
    (myWavSpeed r) (myWavCvtBuffer r) (myWavCvtBufferSize r) (sdl r) (shownMessages r).
#[global] Instance set_myMuteState : Setter myMuteState := fun u r =>
  Build_SoundSDL2
    (myAudioSettings r) (myDevices r) (myIsInitializedFlag r) (myVolume r)
    (myVolumeFactor r) (myDevice r) (myDeviceId r) (myHardwareSpec r) (myAudioQueue r)
    (myEmulationTiming r) (myCurrentFragment r) (myUnderrun r) (u (myMuteState r))
    (myResampler r) (myAboutString r) (myWavFilename r) (myWavLength r) (myWavDevice r)
    (myWavBuffer r) (myWavVolumeFactor r) (myWavSpec r) (myWavPos r) (myWavLen r)
    (myWavSpeed r) (myWavCvtBuffer r) (myWavCvtBufferSize r) (sdl r) (shownMessages r).
#[global] Instance set_myResampler : Setter myResampler := fun u r =>
  Build_SoundSDL2
    (myAudioSettings r) (myDevices r) (myIsInitializedFlag r) (myVolume r)
    (myVolumeFactor r) (myDevice r) (myDeviceId r) (myHardwareSpec r) (myAudioQueue r)
    (myEmulationTiming r) (myCurrentFragment r) (myUnderrun r) (myMuteState r) (u
    (myResampler r)) (myAboutString r) (myWavFilename r) (myWavLength r) (myWavDevice r)
    (myWavBuffer r) (myWavVolumeFactor r) (myWavSpec r) (myWavPos r) (myWavLen r)
    (myWavSpeed r) (myWavCvtBuffer r) (myWavCvtBufferSize r) (sdl r) (shownMessages r).
#[global] Instance set_myAboutString : Setter myAboutString := fun u r =>
  Build_SoundSDL2
    (myAudioSettings r) (myDevices r) (myIsInitializedFlag r) (myVolume r)
    (myVolumeFactor r) (myDevice r) (myDeviceId r) (myHardwareSpec r) (myAudioQueue r)
    (myEmulationTiming r) (myCurrentFragment r) (myUnderrun r) (myMuteState r)
    (myResampler r) (u (myAboutString r)) (myWavFilename r) (myWavLength r) (myWavDevice
    r) (myWavBuffer r) (myWavVolumeFactor r) (myWavSpec r) (myWavPos r) (myWavLen r)
    (myWavSpeed r) (myWavCvtBuffer r) (myWavCvtBufferSize r) (sdl r) (shownMessages r).
#[global] Instance set_myWavFilename : Setter myWavFilename := fun u r =>
  Build_SoundSDL2
    (myAudioSettings r) (myDevices r) (myIsInitializedFlag r) (myVolume r)
    (myVolumeFactor r) (myDevice r) (myDeviceId r) (myHardwareSpec r) (myAudioQueue r)
    (myEmulationTiming r) (myCurrentFragment r) (myUnderrun r) (myMuteState r)
    (myResampler r) (myAboutString r) (u (myWavFilename r)) (myWavLength r) (myWavDevice
    r) (myWavBuffer r) (myWavVolumeFactor r) (myWavSpec r) (myWavPos r) (myWavLen r)
    (myWavSpeed r) (myWavCvtBuffer r) (myWavCvtBufferSize r) (sdl r) (shownMessages r).
#[global] Instance set_myWavLength : Setter myWavLength := fun u r =>
  Build_SoundSDL2
    (myAudioSettings r) (myDevices r) (myIsInitializedFlag r) (myVolume r)
    (myVolumeFactor r) (myDevice r) (myDeviceId r) (myHardwareSpec r) (myAudioQueue r)
    (myEmulationTiming r) (myCurrentFragment r) (myUnderrun r) (myMuteState r)
    (myResampler r) (myAboutString r) (myWavFilename r) (u (myWavLength r)) (myWavDevice
    r) (myWavBuffer r) (myWavVolumeFactor r) (myWavSpec r) (myWavPos r) (myWavLen r)
    (myWavSpeed r) (myWavCvtBuffer r) (myWavCvtBufferSize r) (sdl r) (shownMessages r).
#[global] Instance set_myWavDevice : Setter myWavDevice := fun u r =>
  Build_SoundSDL2
    (myAudioSettings r) (myDevices r) (myIsInitializedFlag r) (myVolume r)
    (myVolumeFactor r) (myDevice r) (myDeviceId r) (myHardwareSpec r) (myAudioQueue r)
    (myEmulationTiming r) (myCurrentFragment r) (myUnderrun r) (myMuteState r)
    (myResampler r) (myAboutString r) (myWavFilename r) (myWavLength r) (u (myWavDevice
    r)) (myWavBuffer r) (myWavVolumeFactor r) (myWavSpec r) (myWavPos r) (myWavLen r)
    (myWavSpeed r) (myWavCvtBuffer r) (myWavCvtBufferSize r) (sdl r) (shownMessages r).
#[global] Instance set_myWavBuffer : Setter myWavBuffer := fun u r =>
  Build_SoundSDL2
    (myAudioSettings r) (myDevices r) (myIsInitializedFlag r) (myVolume r)
    (myVolumeFactor r) (myDevice r) (myDeviceId r) (myHardwareSpec r) (myAudioQueue r)
    (myEmulationTiming r) (myCurrentFragment r) (myUnderrun r) (myMuteState r)
    (myResampler r) (myAboutString r) (myWavFilename r) (myWavLength r) (myWavDevice r)
    (u (myWavBuffer r)) (myWavVolumeFactor r) (myWavSpec r) (myWavPos r) (myWavLen r)
    (myWavSpeed r) (myWavCvtBuffer r) (myWavCvtBufferSize r) (sdl r) (shownMessages r).
#[global] Instance set_myWavVolumeFactor : Setter myWavVolumeFactor := fun u r =>
  Build_SoundSDL2
    (myAudioSettings r) (myDevices r) (myIsInitializedFlag r) (myVolume r)
    (myVolumeFactor r) (myDevice r) (myDeviceId r) (myHardwareSpec r) (myAudioQueue r)
    (myEmulationTiming r) (myCurrentFragment r) (myUnderrun r) (myMuteState r)
    (myResampler r) (myAboutString r) (myWavFilename r) (myWavLength r) (myWavDevice r)
    (myWavBuffer r) (u (myWavVolumeFactor r)) (myWavSpec r) (myWavPos r) (myWavLen r)
    (myWavSpeed r) (myWavCvtBuffer r) (myWavCvtBufferSize r) (sdl r) (shownMessages r).
#[global] Instance set_myWavSpec : Setter myWavSpec := fun u r =>
  Build_SoundSDL2
    (myAudioSettings r) (myDevices r) (myIsInitializedFlag r) (myVolume r)
    (myVolumeFactor r) (myDevice r) (myDeviceId r) (myHardwareSpec r) (myAudioQueue r)
    (myEmulationTiming r) (myCurrentFragment r) (myUnderrun r) (myMuteState r)
    (myResampler r) (myAboutString r) (myWavFilename r) (myWavLength r) (myWavDevice r)
    (myWavBuffer r) (myWavVolumeFactor r) (u (myWavSpec r)) (myWavPos r) (myWavLen r)
    (myWavSpeed r) (myWavCvtBuffer r) (myWavCvtBufferSize r) (sdl r) (shownMessages r).
#[global] Instance set_myWavPos : Setter myWavPos := fun u r =>
  Build_SoundSDL2
    (myAudioSettings r) (myDevices r) (myIsInitializedFlag r) (myVolume r)
    (myVolumeFactor r) (myDevice r) (myDeviceId r) (myHardwareSpec r) (myAudioQueue r)
    (myEmulationTiming r) (myCurrentFragment r) (myUnderrun r) (myMuteState r)
    (myResampler r) (myAboutString r) (myWavFilename r) (myWavLength r) (myWavDevice r)
    (myWavBuffer r) (myWavVolumeFactor r) (myWavSpec r) (u (myWavPos r)) (myWavLen r)
    (myWavSpeed r) (myWavCvtBuffer r) (myWavCvtBufferSize r) (sdl r) (shownMessages r).
#[global] Instance set_myWavLen : Setter myWavLen := fun u r =>
  Build_SoundSDL2
    (myAudioSettings r) (myDevices r) (myIsInitializedFlag r) (myVolume r)
    (myVolumeFactor r) (myDevice r) (myDeviceId r) (myHardwareSpec r) (myAudioQueue r)
    (myEmulationTiming r) (myCurrentFragment r) (myUnderrun r) (myMuteState r)
    (myResampler r) (myAboutString r) (myWavFilename r) (myWavLength r) (myWavDevice r)
    (myWavBuffer r) (myWavVolumeFactor r) (myWavSpec r) (myWavPos r) (u (myWavLen r))
    (myWavSpeed r) (myWavCvtBuffer r) (myWavCvtBufferSize r) (sdl r) (shownMessages r).
#[global] Instance set_myWavSpeed : Setter myWavSpeed := fun u r =>
  Build_SoundSDL2
    (myAudioSettings r) (myDevices r) (myIsInitializedFlag r) (myVolume r)
    (myVolumeFactor r) (myDevice r) (myDeviceId r) (myHardwareSpec r) (myAudioQueue r)
    (myEmulationTiming r) (myCurrentFragment r) (myUnderrun r) (myMuteState r)
    (myResampler r) (myAboutString r) (myWavFilename r) (myWavLength r) (myWavDevice r)
    (myWavBuffer r) (myWavVolumeFactor r) (myWavSpec r) (myWavPos r) (myWavLen r) (u
    (myWavSpeed r)) (myWavCvtBuffer r) (myWavCvtBufferSize r) (sdl r) (shownMessages r).
#[global] Instance set_myWavCvtBuffer : Setter myWavCvtBuffer := fun u r =>
  Build_SoundSDL2
    (myAudioSettings r) (myDevices r) (myIsInitializedFlag r) (myVolume r)
    (myVolumeFactor r) (myDevice r) (myDeviceId r) (myHardwareSpec r) (myAudioQueue r)
    (myEmulationTiming r) (myCurrentFragment r) (myUnderrun r) (myMuteState r)
    (myResampler r) (myAboutString r) (myWavFilename r) (myWavLength r) (myWavDevice r)
    (myWavBuffer r) (myWavVolumeFactor r) (myWavSpec r) (myWavPos r) (myWavLen r)
    (myWavSpeed r) (u (myWavCvtBuffer r)) (myWavCvtBufferSize r) (sdl r) (shownMessages
    r).
#[global] Instance set_myWavCvtBufferSize : Setter myWavCvtBufferSize := fun u r =>
  Build_SoundSDL2
    (myAudioSettings r) (myDevices r) (myIsInitializedFlag r) (myVolume r)
    (myVolumeFactor r) (myDevice r) (myDeviceId r) (myHardwareSpec r) (myAudioQueue r)
    (myEmulationTiming r) (myCurrentFragment r) (myUnderrun r) (myMuteState r)
    (myResampler r) (myAboutString r) (myWavFilename r) (myWavLength r) (myWavDevice r)
    (myWavBuffer r) (myWavVolumeFactor r) (myWavSpec r) (myWavPos r) (myWavLen r)
    (myWavSpeed r) (myWavCvtBuffer r) (u (myWavCvtBufferSize r)) (sdl r) (shownMessages
    r).
#[global] Instance set_sdl : Setter sdl := fun u r =>
  Build_SoundSDL2
    (myAudioSettings r) (myDevices r) (myIsInitializedFlag r) (myVolume r)
    (myVolumeFactor r) (myDevice r) (myDeviceId r) (myHardwareSpec r) (myAudioQueue r)
    (myEmulationTiming r) (myCurrentFragment r) (myUnderrun r) (myMuteState r)
    (myResampler r) (myAboutString r) (myWavFilename r) (myWavLength r) (myWavDevice r)
    (myWavBuffer r) (myWavVolumeFactor r) (myWavSpec r) (myWavPos r) (myWavLen r)
    (myWavSpeed r) (myWavCvtBuffer r) (myWavCvtBufferSize r) (u (sdl r)) (shownMessages
    r).
#[global] Instance set_shownMessages : Setter shownMessages := fun u r =>
  Build_SoundSDL2
    (myAudioSettings r) (myDevices r) (myIsInitializedFlag r) (myVolume r)
    (myVolumeFactor r) (myDevice r) (myDeviceId r) (myHardwareSpec r) (myAudioQueue r)
    (myEmulationTiming r) (myCurrentFragment r) (myUnderrun r) (myMuteState r)
    (myResampler r) (myAboutString r) (myWavFilename r) (myWavLength r) (myWavDevice r)
    (myWavBuffer r) (myWavVolumeFactor r) (myWavSpec r) (myWavPos r) (myWavLen r)
    (myWavSpeed r) (myWavCvtBuffer r) (myWavCvtBufferSize r) (sdl r) (u (shownMessages
    r)).


Definition M : Type -> Type := StateExc SoundSDL2.

(** [Console::initializeAudio], called back by [toggleMute]. *)
Variable Console_initializeAudio : M unit.

Definition this : M SoundSDL2 := gets (fun s => s).

Definition sdl_do (f : SDL_State -> SDL_State) : M unit :=
  modify (fun s => s<|sdl ::= f|>).

(** [myDevices.at(i).first]. *)
Definition device_name (i : Z) : M string :=
  devices <- gets myDevices ;;
  match devices !! Z.to_nat i with
  | Some (name, _) => ret name
  | None => throw out_of_range
  end.

(** [myDeviceId ? myDevices.at(myDeviceId).first.c_str() : nullptr]. *)
Definition device_c_str : M (option string) :=
  id <- gets myDeviceId ;;
  if id =? 0 then ret None else (name <- device_name id ;; ret (Some name)).

(** [SoundSDL2::openDevice].  The fields of [desired] the code leaves
    unset are 0 here. *)
Definition openDevice : M bool :=
  settings <- gets myAudioSettings ;;
  let desired :=
    {| freq := Int32 (AudioSettings.sampleRate settings);
       format := AUDIO_F32SYS;
       channels := 2;
       silence := 0;
       samples := Uint16 (AudioSettings.fragmentSize settings);
       callback_fn := Some cb_callback |} in
  s <- this ;;
  when (myIsInitializedFlag s) (sdl_do (SDL_CloseAudioDevice (myDevice s))) ;;
  modify (fun s => s<|myDeviceId :=
    clamp (AudioSettings.device settings) 0
          (uInt32 (Z.of_nat (length (myDevices s)) - 1))|>) ;;
  device <- device_c_str ;;
  w <- gets sdl ;;
  let r := SDL_OpenAudioDevice device desired SDL_AUDIO_ALLOW_FREQUENCY_CHANGE w in
  modify (fun s => s<|sdl := snd r|><|myDevice := fst (fst r)|>) ;;
  match snd (fst r) with
  | Some spec => modify (fun s => s<|myHardwareSpec := spec|>)
  | None => ret tt
  end ;;
  if fst (fst r) =? 0
  then modify (fun s => s<|myIsInitializedFlag := false|>) ;; ret false
  else modify (fun s => s<|myIsInitializedFlag := true|>) ;; ret true.

(** [SoundSDL2::setEnabled]. *)
Definition setEnabled (enable : bool) : M unit :=
  modify (fun s => s<|myAudioSettings ::= AudioSettings.setEnabled enable|>) ;;
  modify (fun s => s<|myAudioQueue ::= fmap (queue_ignoreOverflows (negb enable))|>) ;;
  modify (fun s => s<|myMuteState := negb enable|>) ;;
  modify (fun s => s<|myWavVolumeFactor :=
    if myMuteState s then float_of_Z 0 else myVolumeFactor s|>).

(** [SoundSDL2::mute]. *)
Definition mute (state : bool) : M bool :=
  s <- this ;;
  let oldstate :=
    match SDL_GetAudioDeviceStatus (sdl s) (myDevice s) with
    | SDL_AUDIO_PAUSED => true
    | _ => false
    end in
  when (myIsInitializedFlag s)
    (sdl_do (SDL_PauseAudioDevice (myDevice s) (if state then 1 else 0))) ;;
  when (negb (myWavDevice s =? 0))
    (sdl_do (SDL_PauseAudioDevice (myWavDevice s) (if state then 1 else 0))) ;;
  ret oldstate.

(** [SoundSDL2::setVolume]. *)
Definition setVolume (percent : Z) : M unit :=
  s <- this ;;
  when (myIsInitializedFlag s && (percent <=? 100))
    (modify (fun s => s<|myAudioSettings ::= AudioSettings.setVolume percent|>) ;;
     modify (fun s => s<|myVolume := percent|>) ;;
     sdl_do (sdl_log (Call_LockAudioDevice (myDevice s))) ;;
     modify (fun s => s<|myVolumeFactor := fdiv (float_of_Z percent) (float_of_Z 100)|>) ;;
     modify (fun s => s<|myWavVolumeFactor :=
       if AudioSettings.enabled (myAudioSettings s)
       then myVolumeFactor s else float_of_Z 0|>) ;;
     sdl_do (sdl_log (Call_UnlockAudioDevice (myDevice s)))).

(** Dereferencing a pointer member. *)
Definition deref {A} (p : SoundSDL2 -> option A) : M A :=
  s <- this ;;
  match p s with
  | Some a => ret a
  | None => throw null_dereference
  end.

Definition endl : string := String (Ascii.ascii_of_nat 10) EmptyString.

(** [0.5 * n] printed with [std::fixed << std::setprecision(1)]. *)
Definition half_frames (n : Z) : string :=
  pretty (n / 2) +:+ (if Z.odd n then ".5" else ".0").

(** [SoundSDL2::about]. *)
Definition about : M string :=
  s <- this ;;
  name <- device_name (myDeviceId s) ;;
  q <- deref myAudioQueue ;;
  let settings := myAudioSettings s in
  ret ("Sound enabled:" +:+ endl
    +:+ "  Volume:   " +:+ pretty (myVolume s) +:+ "%" +:+ endl
    +:+ "  Device:   " +:+ name +:+ endl
    +:+ "  Channels: " +:+ pretty (uInt32 (channels (myHardwareSpec s)))
    +:+ (if queue_isStereo q then " (Stereo)" else " (Mono)") +:+ endl
    +:+ "  Preset:   "
    +:+ match AudioSettings.preset settings with
        | custom => "Custom"
        | lowQualityMediumLag => "Low quality, medium lag"
        | highQualityMediumLag => "High quality, medium lag"
        | highQualityLowLag => "High quality, low lag"
        | ultraQualityMinimalLag => "Ultra quality, minimal lag"
        end +:+ endl
    +:+ "    Fragment size: " +:+ pretty (uInt32 (samples (myHardwareSpec s)))
    +:+ " bytes" +:+ endl
    +:+ "    Sample rate:   " +:+ pretty (uInt32 (freq (myHardwareSpec s)))
    +:+ " Hz" +:+ endl
    +:+ "    Resampling:    "
    +:+ match AudioSettings.resamplingQuality settings with
        | nearestNeightbour => "Quality 1, nearest neighbor"
        | lanczos_2 => "Quality 2, Lanczos (a = 2)"
        | lanczos_3 => "Quality 3, Lanczos (a = 3)"
        end +:+ endl
    +:+ "    Headroom:      " +:+ half_frames (AudioSettings.headroom settings)
    +:+ " frames" +:+ endl
    +:+ "    Buffer size:   " +:+ half_frames (AudioSettings.bufferSize settings)
    +:+ " frames" +:+ endl).

(** [myAudioQueue->dequeue(myCurrentFragment)]. *)
Definition dequeue : M (option Fragment) :=
  q <- deref myAudioQueue ;;
  cur <- gets myCurrentFragment ;;
  let r := queue_dequeue cur q in
  modify (fun s => s<|myAudioQueue := Some (snd r)|>) ;;
  ret (fst r).

(** The closure [nextFragmentCallback] that [initResampler] hands to the
    resampler. *)
Definition nextFragmentCallback : M (option Fragment) :=
  underrun <- gets myUnderrun ;;
  nextFragment <-
    (if underrun then
       q <- deref myAudioQueue ;;
       timing <- deref myEmulationTiming ;;
       if queue_size q >=? prebufferFragmentCount timing
       then dequeue
       else ret None
     else dequeue) ;;
  modify (fun s => s<|myUnderrun := match nextFragment with None => true | Some _ => false end|>) ;;
  match nextFragment with
  | Some f => modify (fun s => s<|myCurrentFragment := Some f|>)
  | None => ret tt
  end ;;
  ret nextFragment.

(** [SoundSDL2::initResampler].  The [default] case of its switch (an
    invalid quality throws) has no value of the enumeration to reach it. *)
Definition initResampler : M unit :=
  timing <- deref myEmulationTiming ;;
  q <- deref myAudioQueue ;;
  s <- this ;;
  let formatFrom :=
    {| fmt_sampleRate := audioSampleRate timing;
       fmt_fragmentSize := queue_fragmentSize q;
       fmt_stereo := queue_isStereo q |} in
  let formatTo :=
    {| fmt_sampleRate := uInt32 (freq (myHardwareSpec s));
       fmt_fragmentSize := samples (myHardwareSpec s);
       fmt_stereo := channels (myHardwareSpec s) >? 1 |} in
  modify (fun s => s<|myResampler := Some
    match AudioSettings.resamplingQuality (myAudioSettings s) with
    | nearestNeightbour => SimpleResampler formatFrom formatTo
    | lanczos_2 => LanczosResampler formatFrom formatTo 2
    | lanczos_3 => LanczosResampler formatFrom formatTo 3
    end|>).

(** The loop [for(i = 0; i < length; ++i) stream[i] *= myVolumeFactor],
    from index [i] for [n] more rounds.  A write past the end of the stream
    is undefined in C++ and changes nothing here. *)
Fixpoint scale_from (i n : nat) (factor : float) (stream : list float) : list float :=
  match n with
  | O => stream
  | S n' => scale_from (S i) n' factor (alter (fun x => fmul x factor) i stream)
  end.

(** [SoundSDL2::processFragment].  The stream is the device buffer seen as
    an array of [float]. *)
Definition processFragment (stream : list float) (len : Z) : M (list float) :=
  r <- deref myResampler ;;
  filled <- fillFragment nextFragmentCallback stream len r ;;
  modify (fun s => s<|myResampler := Some (fst filled)|>) ;;
  factor <- gets myVolumeFactor ;;
  ret (scale_from 0 (Z.to_nat len) factor (snd filled)).

(** [SDL_memset(stream, 0, len)] on a buffer of [float]: the cells that lie
    within the first [len] bytes become +0.0 (SDL hands the callback a
    length that is a multiple of the cell size). *)
Definition memset_zero (stream : list float) (len : Z) : list float :=
  imap (fun i x => if Z.of_nat i <? len / 4 then S754_zero false else x) stream.

(** [SoundSDL2::callback], with [self] the object itself. *)
Definition callback (stream : list float) (len : Z) : M (list float) :=
  q <- gets myAudioQueue ;;
  match q with
  | Some _ => processFragment stream (uInt32 (Z.shiftr len 2))
  | None => ret (memset_zero stream len)
  end.

(** The condition under which [open] re-opens the device. *)
Definition reopen_needed (s : SoundSDL2) : bool :=
  negb (AudioSettings.sampleRate (myAudioSettings s) =? uInt32 (freq (myHardwareSpec s)))
  || negb (AudioSettings.fragmentSize (myAudioSettings s) =? uInt32 (samples (myHardwareSpec s)))
  || negb (AudioSettings.device (myAudioSettings s) =? myDeviceId s).

(** [SoundSDL2::open].  [RESAMPLE_WAV] is defined: [stopWav] uses the
    conversion buffer whose definition the macro guards.  The queue is
    shared with the caller; the object itself is not modelled, so the call
    of [ignoreOverflows] is lost when sound is disabled. *)
Definition open (audioQueue : AudioQueue) (emulationTiming : EmulationTiming) : M unit :=
  s <- this ;;
  when (reopen_needed s) (openDevice ;; ret tt) ;;
  modify (fun s => s<|myEmulationTiming := Some emulationTiming|>) ;;
  modify (fun s => s<|myWavSpeed :=
    ddiv (double_of_Z (262 * 60 * 2)) (double_of_Z (audioSampleRate emulationTiming))|>) ;;
  mute true ;;
  settings <- gets myAudioSettings ;;
  let audioQueue := queue_ignoreOverflows (negb (AudioSettings.enabled settings)) audioQueue in
  if negb (AudioSettings.enabled settings) then ret tt
  else
    modify (fun s => s<|myAudioQueue := Some audioQueue|>) ;;
    modify (fun s => s<|myUnderrun := true|>) ;;
    modify (fun s => s<|myCurrentFragment := None|>) ;;
    setVolume (AudioSettings.volume settings) ;;
    initResampler ;;
    text <- about ;;
    modify (fun s => s<|myAboutString := text|>) ;;
    muteState <- gets myMuteState ;;
    mute muteState ;;
    ret tt.

(** [SoundSDL2::close]. *)
Definition close : M unit :=
  initialized <- gets myIsInitializedFlag ;;
  when initialized
    (oldstate <- mute true ;;
     modify (fun s => s<|myMuteState := oldstate|>) ;;
     modify (fun s => s<|myAudioQueue ::= fmap (queue_closeSink (myCurrentFragment s))|>) ;;
     modify (fun s => s<|myAudioQueue := None|>) ;;
     modify (fun s => s<|myCurrentFragment := None|>)).

(** [FrameBuffer::showTextMessage]. *)
Definition showTextMessage (message : string) : M unit :=
  modify (fun s => s<|shownMessages ::= cons message|>).

(** [SoundSDL2::toggleMute]. *)
Definition toggleMute : M bool :=
  settings <- gets myAudioSettings ;;
  let enabled := negb (AudioSettings.enabled settings) in
  setEnabled enabled ;;
  Console_initializeAudio ;;
  modify (fun s => s<|myMuteState := negb enabled|>) ;;
  muteState <- gets myMuteState ;;
  mute muteState ;;
  wavDevice <- gets myWavDevice ;;
  when (negb (wavDevice =? 0)) (sdl_do (SDL_PauseAudioDevice wavDevice 0)) ;;
  showTextMessage ("Sound " +:+ (if enabled then "unmuted" else "muted")) ;;
  ret enabled.

(** ** The WAV overlay *)

(** [SDL_LoadWAV(fileName, &myWavSpec, &myWavBuffer, &myWavLength)]: true
    when the file was loaded.  A failed load leaves the three members as
    they are here. *)
Definition SDL_LoadWAV (fileName : string) : M bool :=
  sdl_do (sdl_log (Call_LoadWAV fileName)) ;;
  match host_wav fileName with
  | Some w =>
      modify (fun s => s<|myWavSpec := wav_spec w|>
                        <|myWavBuffer := Z.pos (wav_buf w)|>
                        <|myWavLength := wav_len w|>) ;;
      ret true
  | None => ret false
  end.

(** The first block of [playWav]: true unless it returned false. *)
Definition playWav_load (fileName : string) : M bool :=
  s <- this ;;
  if negb (String.eqb fileName (myWavFilename s)) || (myWavBuffer s =? 0) then
    when (negb (myWavBuffer s =? 0))
      (sdl_do (sdl_log (Call_FreeWAV (myWavBuffer s))) ;;
       modify (fun s => s<|myWavBuffer := 0|>)) ;;
    loaded <- SDL_LoadWAV fileName ;;
    if loaded then
      modify (fun s => s<|myWavSpec ::= fun spec => spec<|callback_fn := Some cb_wavCallback|>|>) ;;
      ret true
    else ret false
  else ret true.

(** The last block of [playWav]: the overlay device is opened on first use. *)
Definition playWav_device : M bool :=
  wavDevice <- gets myWavDevice ;;
  if wavDevice =? 0 then
    device <- device_c_str ;;
    s <- this ;;
    let r := SDL_OpenAudioDevice device (myWavSpec s) 0 (sdl s) in
    modify (fun s => s<|sdl := snd r|><|myWavDevice := fst (fst r)|>) ;;
    if fst (fst r) =? 0 then ret false
    else sdl_do (SDL_PauseAudioDevice (fst (fst r)) 0) ;; ret true
  else ret true.

(** [SoundSDL2::playWav]. *)
Definition playWav (fileName : string) (position len : Z) : M bool :=
  loaded <- playWav_load fileName ;;
  if negb loaded then ret false
  else
    s <- this ;;
    if position >? myWavLength s then ret false
    else
      modify (fun s => s<|myWavFilename := fileName|>) ;;
      modify (fun s => s<|myWavLen :=
        if negb (len =? 0)
        then Z.min len (uInt32 (myWavLength s - position))
        else myWavLength s|>) ;;
      modify (fun s => s<|myWavPos := myWavBuffer s + position|>) ;;
      playWav_device.

(** [SoundSDL2::stopWav]. *)
Definition stopWav : M unit :=
  s <- this ;;
  when (negb (myWavBuffer s =? 0))
    (modify (fun s => s<|myWavLen := 0|>) ;;
     sdl_do (SDL_CloseAudioDevice (myWavDevice s)) ;;
     modify (fun s => s<|myWavDevice := 0|>) ;;
     sdl_do (sdl_log (Call_FreeWAV (myWavBuffer s))) ;;
     modify (fun s => s<|myWavBuffer := 0|>)) ;;
  when (negb (myWavCvtBuffer s =? 0))
    (sdl_do (sdl_log (Call_free (myWavCvtBuffer s))) ;;
     modify (fun s => s<|myWavCvtBuffer := 0|>) ;;
     modify (fun s => s<|myWavCvtBufferSize := 0|>)).

(** [SoundSDL2::wavSize]. *)
Definition wavSize (s : SoundSDL2) : Z :=
  if myWavBuffer s =? 0 then 0 else myWavLen s.

(** [if(static_cast<uInt32>(len) > myWavLen) len = myWavLen;] on the [int]
    variable [len]. *)
Definition clamp_len (len : Z) (s : SoundSDL2) : Z :=
  if uInt32 len >? myWavLen s then Int32 (myWavLen s) else len.

(** The value of [len] when [wavCallback] reaches [myWavPos += len]: scaled
    by the speed when that is not 1.0, then limited by what remains. *)
Definition wavCallback_len (len : Z) (s : SoundSDL2) : Z :=
  if fneq (myWavSpeed s) (double_of_Z 1)
  then clamp_len (round_to_int (ddiv (double_of_Z len) (myWavSpeed s))) s
  else clamp_len len s.

(** The volume argument [SDL_MIX_MAXVOLUME * myWavVolumeFactor], before its
    conversion to [int]. *)
Definition mix_volume (s : SoundSDL2) : float :=
  fmul (float_of_Z SDL_MIX_MAXVOLUME) (myWavVolumeFactor s).

(** The branch of [wavCallback] that converts the sample rate; its value is
    the final [len]. *)
Definition wavCallback_resampled (origLen : Z) : M Z :=
  s <- this ;;
  let len := round_to_int (ddiv (double_of_Z origLen) (myWavSpeed s)) in
  let newFreq :=
    round_to_int (ddiv (dmul (double_of_Z (freq (myWavSpec s))) (double_of_Z origLen))
                       (double_of_Z len)) in
  let len := clamp_len len s in
  let spec := myWavSpec s in
  let cvt := host_cvt (format spec) (channels spec) (freq spec) newFreq in
  sdl_do (sdl_log (Call_BuildAudioCVT (format spec) (channels spec) (freq spec) newFreq)) ;;
  let cvt_len := Int32 (len * channels spec) in
  let size := uInt32 (Int32 (cvt_len * cvt_len_mult cvt)) in
  when ((myWavCvtBuffer s =? 0) || (myWavCvtBufferSize s <? size))
    (when (negb (myWavCvtBuffer s =? 0)) (sdl_do (sdl_log (Call_free (myWavCvtBuffer s)))) ;;
     modify (fun s => s<|myWavCvtBufferSize := size|>) ;;
     sdl_do (sdl_log (Call_malloc size)) ;;
     modify (fun s => s<|myWavCvtBuffer := host_malloc size|>)) ;;
  s' <- this ;;
  sdl_do (sdl_log (Call_memcpy (myWavCvtBuffer s') (myWavPos s') cvt_len)) ;;
  sdl_do (sdl_log (Call_ConvertAudio (myWavCvtBuffer s') cvt_len)) ;;
  sdl_do (sdl_log (Call_MixAudioFormat (myWavCvtBuffer s') (format spec)
                     (cvt_len_cvt cvt cvt_len) (mix_volume s'))) ;;
  ret len.

(** The other branch: the samples are mixed as they are. *)
Definition wavCallback_direct (len : Z) : M Z :=
  s <- this ;;
  let len := clamp_len len s in
  sdl_do (sdl_log (Call_MixAudioFormat (myWavPos s) (format (myWavSpec s))
                     (uInt32 len) (mix_volume s))) ;;
  ret len.

(** [SoundSDL2::wavCallback].  The bytes of the overlay stream are not
    modelled; the calls that fill it are recorded. *)
Definition wavCallback (len : Z) : M unit :=
  s <- this ;;
  sdl_do (sdl_log (Call_memset (silence (myWavSpec s)) len)) ;;
  when (negb (myWavLen s =? 0))
    (len <- (if fneq (myWavSpeed s) (double_of_Z 1)
             then wavCallback_resampled len
             else wavCallback_direct len) ;;
     modify (fun s => s<|myWavPos := myWavPos s + len|>) ;;
     modify (fun s => s<|myWavLen := uInt32 (myWavLen s - len)|>)).

(** ** Construction, destruction, volume steps *)

Context `{HostAudio}.

(** [SoundSDL2::queryHardware]: the entry of the default device, then one
    entry for each device SDL names, tagged with its index plus one. *)
Definition queryHardware (devices : list (string * Z)) : list (string * Z) :=
  (devices ++ ("Default", 0)
     :: imap (fun i name => (name, Z.of_nat i + 1)) host_device_names)%list.

(** The constructor, on the object with its members as their default
    initializers leave them. *)
Definition SoundSDL2_ctor : M unit :=
  if negb host_init_audio then ret tt
  else
    modify (fun s => s<|myDevices ::= queryHardware|>) ;;
    modify (fun s => s<|myHardwareSpec := SDL_AudioSpec_zero|>) ;;
    ok <- openDevice ;;
    if negb ok then ret tt
    else
      mute true ;;
      modify (fun s => s<|myMuteState := negb (AudioSettings.enabled (myAudioSettings s))|>) ;;
      modify (fun s => s<|myWavVolumeFactor :=
        if myMuteState s then float_of_Z 0 else myVolumeFactor s|>).


(** [FrameBuffer::showGaugeMessage]: the label and the value text are kept,
    the gauge's number is not. *)
Definition showGaugeMessage (message valueText : string) (value : Z) : M unit :=
  modify (fun s => s<|shownMessages ::= fun shown => valueText :: message :: shown|>).

(** [SoundSDL2::adjustVolume].  An overflow of [percent + direction * 2]
    is undefined in C++ and wraps here. *)
Definition adjustVolume (direction : Z) : M unit :=
  s <- this ;;
  let percent := clamp (Int32 (Int32 (myVolume s) + direction * 2)) 0 100 in
  let enabled := AudioSettings.enabled (myAudioSettings s) in
  when ((percent >? 0) && negb (direction =? 0) && negb enabled)
    (setEnabled true ;;
     Console_initializeAudio ;;
     modify (fun s => s<|myMuteState := false|>) ;;
     mute false ;;
     ret tt) ;;
  setVolume (uInt32 percent) ;;
  showGaugeMessage "Volume"
    (if negb (percent =? 0) then pretty percent +:+ "%" else "Off") percent.

(** [n] runs of the overlay callback, each asked for [len] bytes. *)
Fixpoint wavCallbacks (n : nat) (len : Z) (s : SoundSDL2) : SoundSDL2 :=
  match n with
  | O => s
  | S n' => wavCallbacks n' len (snd (wavCallback len s))
  end.

(** The overlay's volume factor is the volume factor while sound is
    enabled and zero while it is not. *)
Definition wav_volume_tracks (s : SoundSDL2) : Prop :=
  myWavVolumeFactor s =
    if AudioSettings.enabled (myAudioSettings s)
    then myVolumeFactor s else float_of_Z 0.

(** The members that hold the volume: the percentage, the two factors and
    the enabled setting. *)
Definition volume_view (s : SoundSDL2) : Z * float * float * bool :=
  (myVolume s, myVolumeFactor s, myWavVolumeFactor s,
   AudioSettings.enabled (myAudioSettings s)).

(** The stored percentage is at most 100 and the volume factor is that
    percentage over 100. *)
Definition volume_in_range (s : SoundSDL2) : Prop :=
  myVolume s <= 100
  /\ myVolumeFactor s = fdiv (float_of_Z (myVolume s)) (float_of_Z 100).

(** The cursor and what remains to play lie within the loaded buffer. *)
Definition wav_in_bounds (s : SoundSDL2) : Prop :=
  myWavBuffer s <= myWavPos s
  /\ myWavPos s + myWavLen s <= myWavBuffer s + myWavLength s.

End SoundSDL2.
Arguments SoundSDL2 : clear implicits.
Arguments M : clear implicits.

(** ** Sequences of calls *)

Section Calls.

Context {AudioQueue Resampler : Type}.
Context `{Host} `{AudioQueueOps AudioQueue} `{ResamplerOps Resampler}.

(** The calls a client or SDL makes on the object.  [toggleMute] and
    [adjustVolume] call the console back; what the console then does is
    its own affair, and is given here as the calls it makes on the object
    in turn. *)
#[warnings="-register-all"] Inductive Operation :=
| op_open (audioQueue : AudioQueue) (emulationTiming : EmulationTiming)
| op_close
| op_setEnabled (enable : bool)
| op_mute (state : bool)
| op_toggleMute (console : list Operation)
| op_setVolume (percent : Z)
| op_adjustVolume (direction : Z) (console : list Operation)
| op_callback (stream : list float) (len : Z)
| op_playWav (fileName : string) (position len : Z)
| op_stopWav
| op_wavCallback (len : Z).

(** Calls made in turn within one function: an exception ends them. *)
Definition in_turn (run : Operation -> M AudioQueue Resampler unit) :
    list Operation -> M AudioQueue Resampler unit :=
  fix go (ops : list Operation) :=
    match ops with
    | [] => ret tt
    | o :: rest => run o ;; go rest
    end.

(** A call by which the console closes or opens the sound. *)
Definition reopens (o : Operation) : Prop :=
  match o with
  | op_open _ _ | op_close => True
  | _ => False
  end.

(** One call, its result dropped. *)
Fixpoint run (o : Operation) : M AudioQueue Resampler unit :=
  match o with
  | op_open q t => open q t
  | op_close => close
  | op_setEnabled e => setEnabled e
  | op_mute b => mute b ;; ret tt
  | op_toggleMute console => toggleMute (in_turn run console) ;; ret tt
  | op_setVolume p => setVolume p
  | op_adjustVolume d console => adjustVolume (in_turn run console) d
  | op_callback stream len => callback stream len ;; ret tt
  | op_playWav f p l => playWav f p l ;; ret tt
  | op_stopWav => stopWav
  | op_wavCallback len => wavCallback len
  end.

(** The object after one call, whether the call returned or threw. *)
Definition perform (o : Operation) (s : SoundSDL2 AudioQueue Resampler) :
    SoundSDL2 AudioQueue Resampler :=
  snd (run o s).

(** The object after a sequence of calls by a client that goes on after an
    exception. *)
Definition perform_all (ops : list Operation) (s : SoundSDL2 AudioQueue Resampler) :
    SoundSDL2 AudioQueue Resampler :=
  fold_left (fun s o => perform o s) ops s.

End Calls.

(** ** Concrete collaborators, for running the model *)

(** A queue that hands out its fragments first in, first out. *)
Record FifoQueue := {
  fifo_fragments : list Fragment;
  fifo_ignoreOverflows : bool;
  fifo_fragmentSize : Z;
  fifo_isStereo : bool
}.

#[export] Instance set_fifo_fragments : Setter fifo_fragments := fun u r =>
  Build_FifoQueue
    (u (fifo_fragments r)) (fifo_ignoreOverflows r) (fifo_fragmentSize r) (fifo_isStereo
    r).
#[export] Instance set_fifo_ignoreOverflows : Setter fifo_ignoreOverflows := fun u r =>
  Build_FifoQueue
    (fifo_fragments r) (u (fifo_ignoreOverflows r)) (fifo_fragmentSize r) (fifo_isStereo
    r).


#[export] Instance FifoQueue_ops : AudioQueueOps FifoQueue := {
  queue_size q := Z.of_nat (length (fifo_fragments q));
  queue_dequeue _ q :=
    match fifo_fragments q with
    | [] => (None, q)
    | f :: rest => (Some f, q<|fifo_fragments := rest|>)
    end;
  queue_ignoreOverflows b q := q<|fifo_ignoreOverflows := b|>;
  queue_closeSink _ q := q;
  queue_fragmentSize := fifo_fragmentSize;
  queue_isStereo := fifo_isStereo
}.

(** A resampler for equal rates: one output sample per input sample, the
    last one held when the queue yields nothing. *)
Record CopyResampler := {
  copy_pending : list Z;
  copy_held : float
}.

Definition sample_of_Int16 (x : Z) : float := fdiv (float_of_Z x) (float_of_Z 32767).

Fixpoint copy_fill {St : Type} (next : StateExc St (option Fragment)) (n i : nat)
    (r : CopyResampler) (stream : list float) : StateExc St (CopyResampler * list float) :=
  match n with
  | O => ret (r, stream)
  | S n' =>
      match copy_pending r with
      | x :: rest =>
          copy_fill next n' (S i)
            {| copy_pending := rest; copy_held := sample_of_Int16 x |}
            (<[i := sample_of_Int16 x]> stream)
      | [] =>
          (f <- next ;;
           match f with
           | Some (x :: rest) =>
               copy_fill next n' (S i)
                 {| copy_pending := rest; copy_held := sample_of_Int16 x |}
                 (<[i := sample_of_Int16 x]> stream)
           | _ => copy_fill next n' (S i) r (<[i := copy_held r]> stream)
           end)%cxx
      end
  end.

#[export] Instance CopyResampler_ops : ResamplerOps CopyResampler := {
  SimpleResampler _ _ := {| copy_pending := []; copy_held := S754_zero false |};
  LanczosResampler _ _ _ := {| copy_pending := []; copy_held := S754_zero false |};
  fillFragment _ next stream len r := copy_fill next (Z.to_nat len) 0 r stream
}.

(** A host whose hardware grants what is asked for and whose file system
    holds one WAV file of 200 bytes, 8 bit mono. *)
Definition example_wav : WavData :=
  {| wav_spec := {| freq := 22050; format := 8; channels := 1; silence := 128;
                    samples := 4096; callback_fn := None |};
     wav_buf := 4096%positive;
     wav_len := 200 |}.

#[export] Instance example_host : Host := {
  host_open _ desired _ := {| opened := true; obtained := Some desired |};
  host_wav file := if String.eqb file "a.wav" then Some example_wav else None;
  host_cvt _ _ _ _ := {| cvt_needed := true; cvt_len_mult := 2; cvt_len_cvt := fun n => n |};
  host_malloc _ := 65536
}.

#[export] Instance example_host_audio : HostAudio := {
  host_init_audio := true;
  host_device_names := ["Speakers"; "Headphones"]
}.

Definition example_settings : AudioSettings.t :=
  {| AudioSettings.enabled := true;
     AudioSettings.volume := 80;
     AudioSettings.sampleRate := 44100;
     AudioSettings.fragmentSize := 512;
     AudioSettings.device := 0;
     AudioSettings.preset := highQualityMediumLag;
     AudioSettings.resamplingQuality := lanczos_2;
     AudioSettings.headroom := 2;
     AudioSettings.bufferSize := 3 |}.

Definition example_timing : EmulationTiming :=
  {| audioSampleRate := 31440; prebufferFragmentCount := 2 |}.

Definition example_queue (fragments : list Fragment) : FifoQueue :=
  {| fifo_fragments := fragments; fifo_ignoreOverflows := false;
     fifo_fragmentSize := 4; fifo_isStereo := false |}.

(** The object once its constructor has opened device 2 as asked for: the
    device is paused, no queue is bound and no WAV file is loaded. *)
Definition example_sound : SoundSDL2 FifoQueue CopyResampler :=
  {| myAudioSettings := example_settings;
     myDevices := [("Default", 0)];
     myIsInitializedFlag := true;
     myVolume := 100;
     myVolumeFactor := float_of_Z 65535;
     myDevice := 2;
     myDeviceId := 0;
     myHardwareSpec :=
       {| freq := 44100; format := AUDIO_F32SYS; channels := 2; silence := 0;
          samples := 512; callback_fn := Some cb_callback |};
     myAudioQueue := None;
     myEmulationTiming := None;
     myCurrentFragment := None;
     myUnderrun := false;
     myMuteState := false;
     myResampler := None;
     myAboutString := EmptyString;
     myWavFilename := EmptyString;
     myWavLength := 0;
     myWavDevice := 0;
     myWavBuffer := 0;
     myWavVolumeFactor := float_of_Z 65535;
     myWavSpec := SDL_AudioSpec_zero;
     myWavPos := 0;
     myWavLen := 0;
     myWavSpeed := double_of_Z 1;
     myWavCvtBuffer := 0;
     myWavCvtBufferSize := 0;
     sdl := {| sdl_devices := {[ 2 := true ]}; sdl_calls := [] |};
     shownMessages := [] |}.

(** The object when the constructor could not open a device. *)
Definition example_silent : SoundSDL2 FifoQueue CopyResampler :=
  example_sound<|myIsInitializedFlag := false|><|myDevice := 0|>
               <|sdl := {| sdl_devices := ∅; sdl_calls := [] |}|>.

Definition example_fragments : list Fragment :=
  [[100; 200; 300; 400]; [500; 600; 700; 800]; [900; 1000; 1100; 1200]].

(** The object after [open] with a queue of three fragments. *)
Definition example_open : SoundSDL2 FifoQueue CopyResampler :=
  snd (open (example_queue example_fragments) example_timing example_sound).

(** The opened object with a prebuffer count larger than the queue. *)
Definition example_starved : SoundSDL2 FifoQueue CopyResampler :=
  example_open<|myEmulationTiming :=
    Some {| audioSampleRate := 31440; prebufferFragmentCount := 5 |}|>.

(** The object after [playWav("a.wav", 0, 0)]. *)
Definition example_playing : SoundSDL2 FifoQueue CopyResampler :=
  snd (playWav "a.wav" 0 0 example_sound).

(** The example object with a sample rate configured that its device does
    not have. *)
Definition example_retuned : SoundSDL2 FifoQueue CopyResampler :=
  example_sound<|myAudioSettings :=
    {| AudioSettings.enabled := true;
       AudioSettings.volume := 80;
       AudioSettings.sampleRate := 48000;
       AudioSettings.fragmentSize := 512;
       AudioSettings.device := 0;
       AudioSettings.preset := highQualityMediumLag;
       AudioSettings.resamplingQuality := lanczos_2;
       AudioSettings.headroom := 2;
       AudioSettings.bufferSize := 3 |}|>.

(** The object as the constructor finds it: no device list, no device. *)
Definition example_blank : SoundSDL2 FifoQueue CopyResampler :=
  example_silent<|myDevices := []|>.

(** The playing overlay after sound has been disabled. *)
Definition example_muted : SoundSDL2 FifoQueue CopyResampler :=
  snd (setEnabled false example_playing).

(** A console that answers by closing the sound and opening it with a
    queue of its own. *)
Definition example_console : list (Operation (AudioQueue := FifoQueue)) :=
  [op_close; op_open (example_queue example_fragments) example_timing].

(** A session: sound off, a WAV file started, a callback of each kind, the
    volume stepped up, sound toggled, the sound closed. *)
Definition example_session : list (Operation (AudioQueue := FifoQueue)) :=
  [op_setEnabled false;
   op_playWav "a.wav" 0 0;
   op_wavCallback 64;
   op_callback (replicate 8 S754_nan) 32;
   op_adjustVolume 1 example_console;
   op_toggleMute example_console;
   op_close].

(** * [src/common/Variant.hxx]: the variant type of the device list *)

(** The class [Variant]: the data is always a string. *)
Record Variant := { data : string }.

(** [Variant(const string& s)]. *)
Definition Variant_string (s : string) : Variant := {| data := s |}.

(** [Variant(Int32 i)]: the stream prints the decimal digits, after a minus
    sign for a negative number. *)
Definition Variant_Int32 (i : Z) : Variant := {| data := pretty i |}.

(** [Variant(bool b)]: the stream prints 1 or 0. *)
Definition Variant_bool (b : bool) : Variant := {| data := if b then "1" else "0" |}.

Definition toString (v : Variant) : string := data v.

(** [isspace] and [isdigit] in the C locale. *)
Definition isspace (c : ascii) : bool :=
  let n := N_of_ascii c in ((n =? 32) || ((9 <=? n) && (n <=? 13)))%N.

Definition isdigit (c : ascii) : bool :=
  let n := N_of_ascii c in ((48 <=? n) && (n <=? 57))%N.

Fixpoint skip_spaces (s : string) : string :=
  match s with
  | String c rest => if isspace c then skip_spaces rest else s
  | EmptyString => s
  end.

(** The digits at the front of [s], read after the digits whose value is
    [acc]. *)
Fixpoint atoi_digits (acc : Z) (s : string) : Z :=
  match s with
  | String c rest =>
      if isdigit c then atoi_digits (10 * acc + (Z.of_N (N_of_ascii c) - 48)) rest
      else acc
  | EmptyString => acc
  end.

(** [atoi]: white space, an optional sign, digits; whatever follows is
    ignored.  A value out of the range of [int] is undefined in C and
    wraps here. *)
Definition atoi (s : string) : Z :=
  match skip_spaces s with
  | String "-" rest => Int32 (- atoi_digits 0 rest)
  | String "+" rest => Int32 (atoi_digits 0 rest)
  | rest => Int32 (atoi_digits 0 rest)
  end.

Definition toInt (v : Variant) : Z := atoi (data v).

Definition toBool (v : Variant) : bool :=
  String.eqb (data v) "1" || String.eqb (data v) "true".

(** [operator==]. *)
Definition Variant_eq (v w : Variant) : bool := String.eqb (data v) (data w).

(** * Properties *)

Section Properties.

Context {AudioQueue Resampler : Type}.
Context `{Host} `{AudioQueueOps AudioQueue} `{ResamplerOps Resampler}.

Abbreviation State := (SoundSDL2 AudioQueue Resampler).

(** Unfolding of the monad's operations. *)
Ltac run :=
  unfold bind, ret, gets, modify, when, throw, this, sdl_do, deref; cbn.

(** ** Machine arithmetic *)

Lemma uInt32_small (z : Z) : 0 <= z < 2 ^ 32 -> uInt32 z = z.
Proof. intros Hz. unfold uInt32. apply Z.mod_small. exact Hz. Qed.

Lemma uInt32_range (z : Z) : 0 <= uInt32 z < 2 ^ 32.
Proof. unfold uInt32. apply Z.mod_pos_bound. lia. Qed.

Lemma uInt32_Int32 (z : Z) : uInt32 (Int32 z) = uInt32 z.
Proof.
  unfold uInt32, Int32.
  rewrite <- Zminus_mod_idemp_l, Z.mod_mod by lia.
  rewrite Zminus_mod_idemp_l.
  replace (z + 2 ^ 31 - 2 ^ 31) with z by lia. reflexivity.
Qed.

Lemma uInt32_sub (w z : Z) :
  0 <= w < 2 ^ 32 -> uInt32 z <= w -> uInt32 (w - z) = w - uInt32 z.
Proof.
  intros Hw Hz. pose proof (uInt32_range z) as Hr. unfold uInt32 in *.
  rewrite <- Zminus_mod_idemp_r. apply Z.mod_small. lia.
Qed.

(** ** Volume *)

(** C4, as amended.  [setVolume(percent)] changes nothing when [percent]
    exceeds 100 or when the device is not initialized; when the device is
    initialized and [percent] is at most 100 it stores the percentage in the
    object and in the settings, the factor [percent / 100] as the volume
    factor, and that factor (or 0 while sound is disabled) as the factor of
    the WAV overlay. *)
Theorem setVolume_guarded (percent : Z) (s : State) :
  (100 < percent \/ myIsInitializedFlag s = false -> setVolume percent s = (Ok tt, s))
  /\ (percent <= 100 -> myIsInitializedFlag s = true ->
      exists s', setVolume percent s = (Ok tt, s')
        /\ myVolume s' = percent
        /\ AudioSettings.volume (myAudioSettings s') = percent
        /\ myVolumeFactor s' = fdiv (float_of_Z percent) (float_of_Z 100)
        /\ myWavVolumeFactor s' =
             if AudioSettings.enabled (myAudioSettings s)
             then fdiv (float_of_Z percent) (float_of_Z 100) else float_of_Z 0).
Proof.
  split.
  - intros Hout. unfold setVolume. run.
    destruct Hout as [Hbig | Hinit].
    + destruct (Z.leb_spec percent 100); [lia |].
      rewrite andb_false_r. reflexivity.
    + rewrite Hinit. reflexivity.
  - intros Hp Hinit. unfold setVolume. run. rewrite Hinit.
    destruct (Z.leb_spec percent 100); [| lia]. cbn.
    eexists. split; [reflexivity |]. cbn. auto.
Qed.

(** ** The prebuffer policy *)

(** What a pull does once it has decided to ask the queue. *)
Lemma nextFragmentCallback_dequeue (s : State) (q : AudioQueue) :
  myAudioQueue s = Some q ->
  exists s',
    (nextFragment <- dequeue ;;
     modify (fun s => s<|myUnderrun := match nextFragment with None => true | Some _ => false end|>) ;;
     match nextFragment with
     | Some f => modify (fun s => s<|myCurrentFragment := Some f|>)
     | None => ret tt
     end ;;
     ret nextFragment)%cxx s
    = (Ok (fst (queue_dequeue (myCurrentFragment s) q)), s')
    /\ myAudioQueue s' = Some (snd (queue_dequeue (myCurrentFragment s) q))
    /\ (myUnderrun s' = true <-> fst (queue_dequeue (myCurrentFragment s) q) = None).
Proof.
  intros Hq. unfold dequeue. run. rewrite Hq. cbn.
  destruct (queue_dequeue (myCurrentFragment s) q) as [[f |] q']; cbn;
    eexists; (split; [reflexivity |]); cbn; split; auto; split; congruence.
Qed.

(** C5.  With a queue and a timing descriptor bound, a pull in the underrun
    state with fewer queued fragments than the prebuffer count yields none
    and changes nothing; every other pull yields what the queue's [dequeue]
    yields and leaves the queue as [dequeue] left it; and after a pull the
    underrun flag is set exactly when no fragment was yielded. *)
Theorem nextFragmentCallback_prebuffer (s : State) (q : AudioQueue) (timing : EmulationTiming) :
  myAudioQueue s = Some q -> myEmulationTiming s = Some timing ->
  (myUnderrun s = true -> queue_size q < prebufferFragmentCount timing ->
     nextFragmentCallback s = (Ok None, s))
  /\ (myUnderrun s = false \/ prebufferFragmentCount timing <= queue_size q ->
      exists s', nextFragmentCallback s = (Ok (fst (queue_dequeue (myCurrentFragment s) q)), s')
        /\ myAudioQueue s' = Some (snd (queue_dequeue (myCurrentFragment s) q)))
  /\ (exists r s', nextFragmentCallback s = (Ok r, s')
        /\ (myUnderrun s' = true <-> r = None)).
Proof.
  intros Hq Ht.
  assert (Hnone : myUnderrun s = true -> queue_size q < prebufferFragmentCount timing ->
            nextFragmentCallback s = (Ok None, s)).
  { intros Hu Hlt. unfold nextFragmentCallback. run. rewrite Hu, Hq. cbn. rewrite Ht. cbn.
    destruct (Z.geb_spec (queue_size q) (prebufferFragmentCount timing)); [lia |]. cbn.
    destruct s; cbn in *; subst; reflexivity. }
  assert (Hsome : myUnderrun s = false \/ prebufferFragmentCount timing <= queue_size q ->
            exists s', nextFragmentCallback s = (Ok (fst (queue_dequeue (myCurrentFragment s) q)), s')
              /\ myAudioQueue s' = Some (snd (queue_dequeue (myCurrentFragment s) q))
              /\ (myUnderrun s' = true <-> fst (queue_dequeue (myCurrentFragment s) q) = None)).
  { intros Hcase. destruct (nextFragmentCallback_dequeue s q Hq) as (s' & Hrun & Hres).
    exists s'. split; [| exact Hres]. rewrite <- Hrun.
    unfold nextFragmentCallback. unfold bind at 1 3. unfold gets at 1.
    destruct (myUnderrun s) eqn:Hu.
    - destruct Hcase as [Hcase | Hcase]; [discriminate |].
      unfold deref at 1 2. run. rewrite Hq. cbn. rewrite Ht. cbn.
      destruct (Z.geb_spec (queue_size q) (prebufferFragmentCount timing)); [| lia].
      reflexivity.
    - reflexivity. }
  split; [exact Hnone |]. split.
  - intros Hcase. destruct (Hsome Hcase) as (s' & Hrun & Hq' & _). eauto.
  - destruct (myUnderrun s) eqn:Hu.
    + destruct (Z.lt_ge_cases (queue_size q) (prebufferFragmentCount timing)) as [Hlt | Hge].
      * exists None, s. split; [auto |]. split; auto.
      * destruct (Hsome (or_intror Hge)) as (s' & Hrun & _ & Hflag). eauto.
    + destruct (Hsome (or_introl eq_refl)) as (s' & Hrun & _ & Hflag). eauto.
Qed.

(** ** The WAV overlay: the callback and the length query *)

Lemma clamp_len_le (len : Z) (s : State) :
  0 <= myWavLen s < 2 ^ 32 -> uInt32 (clamp_len len s) <= myWavLen s.
Proof.
  intros Hw. unfold clamp_len.
  destruct (Z.gtb_spec (uInt32 len) (myWavLen s)) as [Hgt | Hle].
  - rewrite uInt32_Int32, uInt32_small by lia. lia.
  - exact Hle.
Qed.

Lemma wavCallback_len_le (len : Z) (s : State) :
  0 <= myWavLen s < 2 ^ 32 -> uInt32 (wavCallback_len len s) <= myWavLen s.
Proof.
  intros Hw. unfold wavCallback_len.
  destruct (fneq (myWavSpeed s) (double_of_Z 1)); apply clamp_len_le; exact Hw.
Qed.

(** [clamp_len] reads only the remaining length. *)
Lemma clamp_len_ext (len : Z) (s s' : State) :
  myWavLen s' = myWavLen s -> clamp_len len s' = clamp_len len s.
Proof. intros Heq. unfold clamp_len. rewrite Heq. reflexivity. Qed.

(** Unfolding of the monad's operations and nothing else. *)
Ltac step :=
  cbv beta iota zeta delta [bind ret gets modify when throw this sdl_do deref].

(** Both branches of the overlay callback return the limited [len] and
    leave the buffer, its length, the cursor and the remaining length. *)
Lemma wavCallback_resampled_run (origLen : Z) (s : State) :
  exists s',
    wavCallback_resampled origLen s
    = (Ok (clamp_len (round_to_int (ddiv (double_of_Z origLen) (myWavSpeed s))) s), s')
    /\ myWavBuffer s' = myWavBuffer s
    /\ myWavLength s' = myWavLength s
    /\ myWavLen s' = myWavLen s
    /\ myWavPos s' = myWavPos s.
Proof.
  unfold wavCallback_resampled. step.
  repeat match goal with
         | |- context [if (?a || ?b) then _ else _] => destruct (a || b); step
         | |- context [if negb ?a then _ else _] => destruct (negb a); step
         end;
    (eexists; split; [reflexivity |]; repeat split; reflexivity).
Qed.

Lemma wavCallback_direct_run (len : Z) (s : State) :
  exists s',
    wavCallback_direct len s = (Ok (clamp_len len s), s')
    /\ myWavBuffer s' = myWavBuffer s
    /\ myWavLength s' = myWavLength s
    /\ myWavLen s' = myWavLen s
    /\ myWavPos s' = myWavPos s.
Proof.
  unfold wavCallback_direct. step.
  eexists. split; [reflexivity |]. repeat split; reflexivity.
Qed.

(** One run of the overlay callback: it returns, it leaves the buffer and
    its total length alone, and when something remains to play it moves the
    cursor forward and the remaining length down by the final [len]. *)
Lemma wavCallback_run (len : Z) (s : State) :
  0 <= myWavLen s < 2 ^ 32 ->
  exists s', wavCallback len s = (Ok tt, s')
    /\ myWavBuffer s' = myWavBuffer s
    /\ myWavLength s' = myWavLength s
    /\ myWavLen s' = myWavLen s - uInt32 (wavCallback_len len s)
    /\ (myWavLen s <> 0 -> myWavPos s' = myWavPos s + wavCallback_len len s)
    /\ (myWavLen s = 0 -> myWavPos s' = myWavPos s).
Proof.
  intros Hw. pose proof (wavCallback_len_le len s Hw) as Hle.
  pose proof (uInt32_range (wavCallback_len len s)) as Hr.
  unfold wavCallback. unfold bind at 1. unfold this at 1, gets at 1.
  unfold bind at 1. unfold sdl_do at 1, modify at 1.
  set (s0 := s<|sdl ::= sdl_log (Call_memset (silence (myWavSpec s)) len)|>).
  assert (Hs0 : myWavBuffer s0 = myWavBuffer s /\ myWavLength s0 = myWavLength s
                /\ myWavLen s0 = myWavLen s /\ myWavPos s0 = myWavPos s
                /\ myWavSpeed s0 = myWavSpeed s) by (repeat split; reflexivity).
  destruct Hs0 as (Hb0 & Hl0 & Hn0 & Hp0 & Hv0). clearbody s0.
  destruct (Z.eqb_spec (myWavLen s) 0) as [Hz | Hnz]; unfold when.
  - cbn [negb]. exists s0. split; [reflexivity |].
    repeat split; try lia; congruence.
  - cbn [negb]. unfold wavCallback_len in *. unfold bind at 1.
    destruct (fneq (myWavSpeed s) (double_of_Z 1)).
    + destruct (wavCallback_resampled_run len s0) as (s1 & Hrun & Hb1 & Hl1 & Hn1 & Hp1).
      rewrite Hrun, Hv0, (clamp_len_ext _ s s0 Hn0).
      step. eexists. split; [reflexivity |].
      change (myWavBuffer s1 = myWavBuffer s
              /\ myWavLength s1 = myWavLength s
              /\ uInt32 (myWavLen s1
                    - clamp_len (round_to_int (ddiv (double_of_Z len) (myWavSpeed s))) s)
                  = myWavLen s
                    - uInt32 (clamp_len (round_to_int (ddiv (double_of_Z len) (myWavSpeed s))) s)
              /\ (myWavLen s <> 0 ->
                  myWavPos s1
                  + clamp_len (round_to_int (ddiv (double_of_Z len) (myWavSpeed s))) s
                  = myWavPos s
                    + clamp_len (round_to_int (ddiv (double_of_Z len) (myWavSpeed s))) s)
              /\ (myWavLen s = 0 ->
                  myWavPos s1
                  + clamp_len (round_to_int (ddiv (double_of_Z len) (myWavSpeed s))) s
                  = myWavPos s)).
      rewrite Hb1, Hl1, Hn1, Hp1, Hb0, Hl0, Hn0, Hp0.
      repeat split; try congruence. apply uInt32_sub; assumption.
    + destruct (wavCallback_direct_run len s0) as (s1 & Hrun & Hb1 & Hl1 & Hn1 & Hp1).
      rewrite Hrun, (clamp_len_ext _ s s0 Hn0).
      step. eexists. split; [reflexivity |].
      change (myWavBuffer s1 = myWavBuffer s
              /\ myWavLength s1 = myWavLength s
              /\ uInt32 (myWavLen s1 - clamp_len len s)
                  = myWavLen s - uInt32 (clamp_len len s)
              /\ (myWavLen s <> 0 ->
                  myWavPos s1 + clamp_len len s = myWavPos s + clamp_len len s)
              /\ (myWavLen s = 0 -> myWavPos s1 + clamp_len len s = myWavPos s)).
      rewrite Hb1, Hl1, Hn1, Hp1, Hb0, Hl0, Hn0, Hp0.
      repeat split; try congruence. apply uInt32_sub; assumption.
Qed.

(** C10.  [wavSize] is 0 when no buffer is loaded and the remaining length
    when one is; the overlay callback returns, and with a buffer loaded the
    value of [wavSize] after it is the value before it less the number of
    bytes the callback consumed, which is also how far the cursor moved. *)
Theorem wavSize_is_remaining_length (s : State) (len : Z) :
  0 <= myWavLen s < 2 ^ 32 ->
  (myWavBuffer s = 0 -> wavSize s = 0)
  /\ (myWavBuffer s <> 0 -> wavSize s = myWavLen s)
  /\ exists s', wavCallback len s = (Ok tt, s')
       /\ (myWavLen s <> 0 -> myWavPos s' = myWavPos s + wavCallback_len len s)
       /\ (myWavBuffer s <> 0 ->
           wavSize s' = wavSize s - uInt32 (wavCallback_len len s)).
Proof.
  intros Hw. unfold wavSize. split; [| split].
  - intros Hb. rewrite Hb. reflexivity.
  - intros Hb. destruct (Z.eqb_spec (myWavBuffer s) 0); [contradiction | reflexivity].
  - destruct (wavCallback_run len s Hw) as (s' & Hrun & Hbuf & _ & Hlen & Hpos & _).
    exists s'. split; [exact Hrun |]. split; [exact Hpos |].
    intros Hb. rewrite Hbuf.
    destruct (Z.eqb_spec (myWavBuffer s) 0); [contradiction | exact Hlen].
Qed.

(** ** The WAV overlay: [playWav] *)

(** Case analysis on whatever the goal branches on. *)
Ltac branch :=
  repeat match goal with
         | |- context [match ?x with _ => _ end] =>
             lazymatch x with
             | context [match _ with _ => _ end] => fail
             | _ => destruct x eqn:?; cbn
             end
         end.

(** Opening the overlay device touches neither the buffer nor the cursor. *)
Lemma playWav_device_frame (s : State) :
  myWavPos (snd (playWav_device s)) = myWavPos s
  /\ myWavLen (snd (playWav_device s)) = myWavLen s
  /\ myWavBuffer (snd (playWav_device s)) = myWavBuffer s
  /\ myWavLength (snd (playWav_device s)) = myWavLength s
  /\ myWavFilename (snd (playWav_device s)) = myWavFilename s.
Proof.
  unfold playWav_device, device_c_str, device_name. run. branch; auto.
Qed.

(** [playWav] on a buffer that is resident: no load is attempted. *)
Lemma playWav_resident (fileName : string) (position len : Z) (s : State) :
  fileName = myWavFilename s -> myWavBuffer s <> 0 ->
  playWav fileName position len s =
    if position >? myWavLength s then (Ok false, s)
    else playWav_device
           (s<|myWavFilename := fileName|>
             <|myWavLen := if negb (len =? 0)
                           then Z.min len (uInt32 (myWavLength s - position))
                           else myWavLength s|>
             <|myWavPos := myWavBuffer s + position|>).
Proof.
  intros Hname Hbuf. unfold playWav, playWav_load. run.
  rewrite <- Hname, String.eqb_refl.
  destruct (Z.eqb_spec (myWavBuffer s) 0) as [| _]; [contradiction |]. cbn.
  destruct (position >? myWavLength s); reflexivity.
Qed.

(** C1, what the code does.  On a resident buffer of total length [T],
    [playWav] with an offset beyond [T] fails and changes nothing; with an
    offset within [T] it puts the cursor at the offset and sets the
    remaining length to [min(length, T - offset)] when [length] is not zero
    and to [T], whatever the offset, when [length] is zero. *)
Theorem playWav_effective_length (fileName : string) (position len : Z) (s : State) :
  fileName = myWavFilename s -> myWavBuffer s <> 0 ->
  0 <= position -> myWavLength s < 2 ^ 32 ->
  (myWavLength s < position -> playWav fileName position len s = (Ok false, s))
  /\ (position <= myWavLength s ->
      myWavPos (snd (playWav fileName position len s)) = myWavBuffer s + position
      /\ (len <> 0 ->
          myWavLen (snd (playWav fileName position len s))
          = Z.min len (myWavLength s - position))
      /\ (len = 0 ->
          myWavLen (snd (playWav fileName position len s)) = myWavLength s)).
Proof.
  intros Hname Hbuf Hpos Hlen.
  rewrite (playWav_resident fileName position len s Hname Hbuf).
  destruct (Z.gtb_spec position (myWavLength s)) as [Hgt | Hle].
  - split; [reflexivity | lia].
  - split; [lia |]. intros _.
    match goal with
    | |- context [playWav_device ?st] =>
        destruct (playWav_device_frame st) as (Hp & Hl & _)
    end.
    rewrite Hp, Hl. cbn. split; [reflexivity |]. split.
    + intros Hnz. destruct (Z.eqb_spec len 0); [contradiction |]. cbn.
      rewrite uInt32_small by lia. reflexivity.
    + intros Hz. subst len. reflexivity.
Qed.

(** At speed 1.0, a callback on an overlay with something left to play
    clears the stream and mixes from the cursor. *)
Lemma wavCallback_direct_calls (n : Z) (s : State) :
  myWavLen s <> 0 -> fneq (myWavSpeed s) (double_of_Z 1) = false ->
  sdl_calls (sdl (snd (wavCallback n s)))
  = Call_MixAudioFormat (myWavPos s) (format (myWavSpec s)) (uInt32 (clamp_len n s))
      (mix_volume s)
    :: Call_memset (silence (myWavSpec s)) n :: sdl_calls (sdl s).
Proof.
  intros Hlen Hspeed. unfold wavCallback, wavCallback_direct. step.
  destruct (Z.eqb_spec (myWavLen s) 0) as [| _]; [contradiction |].
  rewrite Hspeed. reflexivity.
Qed.

(** C2, what the code does.  A call of [playWav] that fails on an offset
    beyond the length of the resident buffer changes nothing.  A call for
    a file that is not resident releases the resident buffer (if any)
    before it loads and has no way back: when the load fails, no buffer is
    loaded afterwards, while the cursor, the remaining length and the
    overlay device are what they were, so that the next callback of a
    playing overlay mixes from the buffer that has just been released;
    when the load succeeds and the offset lies beyond the new length, the
    new buffer has replaced the old one under the same cursor and
    remaining length. *)
Theorem playWav_failure_effects (fileName : string) (position len : Z) (s : State) :
  (fileName = myWavFilename s -> myWavBuffer s <> 0 -> myWavLength s < position ->
     playWav fileName position len s = (Ok false, s))
  /\ (fileName <> myWavFilename s \/ myWavBuffer s = 0 ->
      host_wav fileName = None ->
      exists s', playWav fileName position len s = (Ok false, s')
        /\ myWavBuffer s' = 0
        /\ myWavPos s' = myWavPos s /\ myWavLen s' = myWavLen s
        /\ myWavDevice s' = myWavDevice s
        /\ sdl_devices (sdl s') = sdl_devices (sdl s)
        /\ sdl_calls (sdl s')
           = (Call_LoadWAV fileName
              :: (if myWavBuffer s =? 0 then [] else [Call_FreeWAV (myWavBuffer s)])
              ++ sdl_calls (sdl s))%list
        /\ (myWavLen s <> 0 -> fneq (myWavSpeed s) (double_of_Z 1) = false ->
            forall n,
              sdl_calls (sdl (snd (wavCallback n s')))
              = Call_MixAudioFormat (myWavPos s) (format (myWavSpec s))
                  (uInt32 (clamp_len n s)) (mix_volume s)
                :: Call_memset (silence (myWavSpec s)) n :: sdl_calls (sdl s')))
  /\ (forall w, fileName <> myWavFilename s \/ myWavBuffer s = 0 ->
      host_wav fileName = Some w -> wav_len w < position ->
      exists s', playWav fileName position len s = (Ok false, s')
        /\ myWavPos s' = myWavPos s /\ myWavLen s' = myWavLen s
        /\ myWavBuffer s' = Z.pos (wav_buf w)
        /\ sdl_calls (sdl s')
           = (Call_LoadWAV fileName
              :: (if myWavBuffer s =? 0 then [] else [Call_FreeWAV (myWavBuffer s)])
              ++ sdl_calls (sdl s))%list).
Proof.
  assert (Hload : fileName <> myWavFilename s \/ myWavBuffer s = 0 ->
            negb (String.eqb fileName (myWavFilename s)) || (myWavBuffer s =? 0) = true).
  { intros [Hname | Hbuf].
    - destruct (String.eqb_spec fileName (myWavFilename s)); [contradiction | reflexivity].
    - rewrite Hbuf. apply orb_true_r. }
  split; [| split].
  - intros Hname Hbuf Hgt.
    rewrite (playWav_resident fileName position len s Hname Hbuf).
    destruct (Z.gtb_spec position (myWavLength s)); [reflexivity | lia].
  - intros Hnot Hwav.
    assert (Hrun : exists s', playWav fileName position len s = (Ok false, s')
              /\ myWavBuffer s' = 0
              /\ myWavPos s' = myWavPos s /\ myWavLen s' = myWavLen s
              /\ myWavDevice s' = myWavDevice s
              /\ sdl_devices (sdl s') = sdl_devices (sdl s)
              /\ sdl_calls (sdl s')
                 = (Call_LoadWAV fileName
                    :: (if myWavBuffer s =? 0 then [] else [Call_FreeWAV (myWavBuffer s)])
                    ++ sdl_calls (sdl s))%list
              /\ myWavSpec s' = myWavSpec s /\ myWavSpeed s' = myWavSpeed s
              /\ myWavVolumeFactor s' = myWavVolumeFactor s).
    { unfold playWav, playWav_load, SDL_LoadWAV. run.
      rewrite (Hload Hnot), Hwav.
      destruct (myWavBuffer s =? 0) eqn:Hb; cbn;
        (eexists; split; [reflexivity |]); cbn;
        (split; [try reflexivity; apply Z.eqb_eq; exact Hb |]);
        repeat split. }
    destruct Hrun as (s' & Hrun & Hbuf & Hpos & Hlen & Hdev & Hdevs & Hcalls & Hspec
                      & Hspeed & Hvol).
    exists s'. do 7 (split; [assumption |]).
    intros Hleft Hone n.
    rewrite wavCallback_direct_calls by congruence.
    unfold clamp_len, mix_volume. rewrite Hpos, Hlen, Hspec, Hvol. reflexivity.
  - intros w Hnot Hwav Hgt. unfold playWav, playWav_load, SDL_LoadWAV. run.
    rewrite (Hload Hnot), Hwav.
    destruct (myWavBuffer s =? 0) eqn:Hb; cbn;
      (destruct (Z.gtb_spec position (wav_len w)); [| lia]);
      eexists; (split; [reflexivity |]); cbn; repeat split.
Qed.
(** ** Mute *)

(** [Console::initializeAudio], as [toggleMute] calls it back. *)
Variable Console_initializeAudio : M AudioQueue Resampler unit.

(** The status of a device after [SDL_PauseAudioDevice]. *)
Lemma SDL_PauseAudioDevice_status (dev pause_on dev' : Z) (w : SDL_State) :
  SDL_GetAudioDeviceStatus (SDL_PauseAudioDevice dev pause_on w) dev' =
    if decide (dev = dev') then
      match sdl_devices w !! dev with
      | Some _ => if pause_on =? 0 then SDL_AUDIO_PLAYING else SDL_AUDIO_PAUSED
      | None => SDL_AUDIO_STOPPED
      end
    else SDL_GetAudioDeviceStatus w dev'.
Proof.
  unfold SDL_GetAudioDeviceStatus, SDL_PauseAudioDevice, sdl_log. cbn.
  rewrite lookup_alter. destruct (decide (dev = dev')) as [Heq | Hne]; [| reflexivity].
  destruct (sdl_devices w !! dev); cbn; [| reflexivity].
  destruct (pause_on =? 0); reflexivity.
Qed.

(** [mute] returns, and leaves the primary device paused exactly when asked
    to (given that the device is there). *)
Lemma mute_run (state : bool) (s : State) :
  exists s',
    mute state s =
      (Ok match SDL_GetAudioDeviceStatus (sdl s) (myDevice s) with
          | SDL_AUDIO_PAUSED => true
          | _ => false
          end, s')
    /\ myDevice s' = myDevice s
    /\ myIsInitializedFlag s' = myIsInitializedFlag s
    /\ myAudioSettings s' = myAudioSettings s
    /\ (myIsInitializedFlag s = true ->
        is_Some (sdl_devices (sdl s) !! myDevice s) ->
        SDL_GetAudioDeviceStatus (sdl s') (myDevice s) =
          if state then SDL_AUDIO_PAUSED else SDL_AUDIO_PLAYING).
Proof.
  unfold mute. run.
  destruct (myIsInitializedFlag s) eqn:Hinit;
    destruct (myWavDevice s =? 0) eqn:Hwav; cbn;
    eexists; (split; [reflexivity |]); cbn;
    (split; [reflexivity |]); (split; [congruence |]); (split; [reflexivity |]);
    try discriminate; intros _ [b Hb];
    rewrite ?SDL_PauseAudioDevice_status;
    repeat (destruct (decide _); [| try contradiction]);
    rewrite ?SDL_PauseAudioDevice_status;
    repeat (destruct (decide _); [| try contradiction]);
    unfold SDL_PauseAudioDevice, sdl_log; cbn;
    try match goal with
        | E : myWavDevice s = myDevice s |- _ => rewrite E
        end;
    rewrite ?lookup_alter_eq, ?Hb; cbn;
    destruct state; reflexivity.
Qed.

Arguments mute : simpl never.

(** C8.  [mute(state)] returns whether the primary device was paused when
    it was called; on an open device, muting with the value an earlier call
    returned puts the device back into the state that call found.
    [toggleMute] returns the negation of the enabled setting it finds, and
    that is the enabled setting afterwards, provided the console's
    [initializeAudio] returns and leaves the setting alone. *)
Theorem mute_and_toggleMute_results (state : bool) (s : State) :
  (exists old s', mute state s = (Ok old, s')
     /\ (old = true <-> SDL_GetAudioDeviceStatus (sdl s) (myDevice s) = SDL_AUDIO_PAUSED)
     /\ (myIsInitializedFlag s = true ->
         is_Some (sdl_devices (sdl s) !! myDevice s) ->
         exists v s'', mute old s' = (Ok v, s'')
           /\ SDL_GetAudioDeviceStatus (sdl s'') (myDevice s'')
              = SDL_GetAudioDeviceStatus (sdl s) (myDevice s)))
  /\ (forall s2,
        Console_initializeAudio
          (snd (setEnabled (negb (AudioSettings.enabled (myAudioSettings s))) s))
        = (Ok tt, s2) ->
        AudioSettings.enabled (myAudioSettings s2)
        = negb (AudioSettings.enabled (myAudioSettings s)) ->
        exists s', toggleMute Console_initializeAudio s
                   = (Ok (negb (AudioSettings.enabled (myAudioSettings s))), s')
          /\ AudioSettings.enabled (myAudioSettings s')
             = negb (AudioSettings.enabled (myAudioSettings s))).
Proof.
  split.
  - destruct (mute_run state s) as (s' & Hrun & Hdev & Hinit & _ & Hstatus).
    eexists. exists s'. split; [exact Hrun |]. split.
    + destruct (SDL_GetAudioDeviceStatus (sdl s) (myDevice s)); split; congruence.
    + intros Hi Hopen.
      specialize (Hstatus Hi Hopen).
      set (old := match SDL_GetAudioDeviceStatus (sdl s) (myDevice s) with
                  | SDL_AUDIO_PAUSED => true
                  | _ => false
                  end).
      destruct (mute_run old s') as (s'' & Hrun' & Hdev' & _ & _ & Hstatus').
      eexists. exists s''. split; [exact Hrun' |].
      rewrite Hdev'. rewrite Hstatus'.
      * subst old. destruct Hopen as [b Hb].
        unfold SDL_GetAudioDeviceStatus. rewrite Hb. destruct b; reflexivity.
      * congruence.
      * rewrite Hdev. revert Hstatus. unfold SDL_GetAudioDeviceStatus.
        destruct (sdl_devices (sdl s') !! myDevice s) as [b |]; [eauto |].
        destruct state; discriminate.
  - intros s2 Hconsole Henabled.
    unfold toggleMute. unfold bind at 1. unfold gets at 1.
    unfold bind at 1.
    destruct (setEnabled (negb (AudioSettings.enabled (myAudioSettings s))) s)
      as [o s1] eqn:Hset.
    assert (Ho : o = Ok tt).
    { revert Hset. unfold setEnabled. run. congruence. }
    subst o. cbn in Hconsole. unfold bind at 1. rewrite Hconsole.
    run.
    match goal with
    | |- context [mute ?b ?st] =>
        destruct (mute_run b st) as (s4 & Hmute' & _ & _ & Hsettings' & _)
    end.
    rewrite Hmute'. cbn in Hsettings'.
    destruct (myWavDevice s4 =? 0); cbn;
      eexists; (split; [reflexivity |]); cbn; congruence.
Qed.

(** ** Re-opening the device *)

(** The device handle and the negotiated format are what they were, and the
    calls into SDL made in between neither open nor close a device. *)
Definition keeps_device (s s' : State) : Prop :=
  myDevice s' = myDevice s
  /\ myHardwareSpec s' = myHardwareSpec s
  /\ exists calls, sdl_calls (sdl s') = (calls ++ sdl_calls (sdl s))%list
       /\ Forall (fun c => opens_or_closes c = false) calls.

Definition Keeps {A : Type} (m : M AudioQueue Resampler A) : Prop :=
  forall s, keeps_device s (snd (m s)).

Lemma keeps_device_refl (s : State) : keeps_device s s.
Proof.
  split; [reflexivity |]. split; [reflexivity |].
  exists []. split; [reflexivity | constructor].
Qed.

Lemma keeps_device_trans (s1 s2 s3 : State) :
  keeps_device s1 s2 -> keeps_device s2 s3 -> keeps_device s1 s3.
Proof.
  intros (Hd & Hs & c & Hc & Hf) (Hd' & Hs' & c' & Hc' & Hf').
  split; [congruence |]. split; [congruence |].
  exists (c' ++ c)%list. split.
  - rewrite Hc', Hc. apply app_assoc.
  - apply Forall_app. split; assumption.
Qed.

Lemma Keeps_ret {A : Type} (a : A) : Keeps (ret a).
Proof. intros s. apply keeps_device_refl. Qed.

Lemma Keeps_throw {A : Type} (e : Exception) : Keeps (@throw State A e).
Proof. intros s. apply keeps_device_refl. Qed.

Lemma Keeps_gets {A : Type} (f : State -> A) : Keeps (gets f).
Proof. intros s. apply keeps_device_refl. Qed.

Lemma Keeps_bind {A B : Type} (m : M AudioQueue Resampler A)
    (k : A -> M AudioQueue Resampler B) :
  Keeps m -> (forall a, Keeps (k a)) -> Keeps (bind m k).
Proof.
  intros Hm Hk s. unfold bind. specialize (Hm s).
  destruct (m s) as [[a | e] s']; cbn in *.
  - eapply keeps_device_trans; [exact Hm | apply Hk].
  - exact Hm.
Qed.

Lemma Keeps_when_false (m : M AudioQueue Resampler unit) : Keeps (when false m).
Proof. apply Keeps_ret. Qed.

(** A continuation that starts by reading the object, at one state. *)
Lemma Keeps_bind_this {A : Type} (k : State -> M AudioQueue Resampler A) (s : State) :
  keeps_device s (snd (k s s)) -> keeps_device s (snd ((x <- this ;; k x) s)).
Proof. intros Hk. exact Hk. Qed.

Lemma Keeps_when (c : bool) (m : M AudioQueue Resampler unit) :
  Keeps m -> Keeps (when c m).
Proof. intros Hm. destruct c; [exact Hm | apply Keeps_ret]. Qed.

(** An assignment to a member other than the handle, the format and SDL. *)
Lemma Keeps_modify (f : State -> State) :
  (forall s, myDevice (f s) = myDevice s
             /\ myHardwareSpec (f s) = myHardwareSpec s
             /\ sdl (f s) = sdl s) ->
  Keeps (modify f).
Proof.
  intros Hf s. destruct (Hf s) as (Hd & Hs & Hw). cbn.
  split; [exact Hd |]. split; [exact Hs |].
  exists []. rewrite Hw. split; [reflexivity | constructor].
Qed.

(** A call into SDL that logs one call, which neither opens nor closes. *)
Lemma Keeps_sdl_do (f : SDL_State -> SDL_State) (c : SDL_Call) :
  opens_or_closes c = false ->
  (forall w, sdl_calls (f w) = c :: sdl_calls w) ->
  Keeps (sdl_do f).
Proof.
  intros Hc Hf s. cbn.
  split; [reflexivity |]. split; [reflexivity |].
  exists [c]. split; [apply Hf |]. repeat constructor. exact Hc.
Qed.

Create HintDb keeps.

#[local] Hint Resolve Keeps_ret Keeps_throw Keeps_gets Keeps_bind Keeps_when : keeps.
#[local] Hint Resolve Keeps_when_false | 0 : keeps.
#[local] Hint Extern 2 (Keeps (modify _)) =>
  apply Keeps_modify; intros ?; cbn; auto : keeps.
#[local] Hint Extern 2 (Keeps (sdl_do _)) =>
  eapply Keeps_sdl_do; [| intros ?; reflexivity]; reflexivity : keeps.
#[local] Hint Extern 3 (Keeps (match ?x with _ => _ end)) => destruct x : keeps.
#[local] Hint Extern 1 (Keeps this) => apply Keeps_gets : keeps.

Lemma Keeps_deref {A : Type} (p : State -> option A) : Keeps (deref p).
Proof. unfold deref. auto 10 with keeps. Qed.

Lemma Keeps_mute (state : bool) : Keeps (mute state).
Proof. unfold mute. auto 10 with keeps. Qed.

Lemma Keeps_setVolume (percent : Z) : Keeps (setVolume percent).
Proof. unfold setVolume. auto 20 with keeps. Qed.

Lemma Keeps_initResampler : Keeps initResampler.
Proof. pose proof @Keeps_deref. unfold initResampler. auto 10 with keeps. Qed.

Lemma Keeps_about : Keeps about.
Proof.
  pose proof @Keeps_deref. unfold about, device_name. auto 10 with keeps.
Qed.

(** The condition of [open], read off its three comparisons. *)
Lemma reopen_needed_false (s : State) :
  reopen_needed s = false <->
  AudioSettings.sampleRate (myAudioSettings s) = uInt32 (freq (myHardwareSpec s))
  /\ AudioSettings.fragmentSize (myAudioSettings s) = uInt32 (samples (myHardwareSpec s))
  /\ AudioSettings.device (myAudioSettings s) = myDeviceId s.
Proof.
  unfold reopen_needed.
  rewrite !orb_false_iff, !negb_false_iff, !Z.eqb_eq. tauto.
Qed.

(** C7.  When the configured sample rate, fragment size and device
    identifier are those of the device at hand, [open] leaves the device
    handle and the negotiated format as they are and makes no call that
    opens or closes a device: a device is closed or opened by [open] only
    if one of the three differs. *)
Theorem open_reopens_only_on_change (audioQueue : AudioQueue)
    (emulationTiming : EmulationTiming) (s : State) :
  AudioSettings.sampleRate (myAudioSettings s) = uInt32 (freq (myHardwareSpec s)) ->
  AudioSettings.fragmentSize (myAudioSettings s) = uInt32 (samples (myHardwareSpec s)) ->
  AudioSettings.device (myAudioSettings s) = myDeviceId s ->
  myDevice (snd (open audioQueue emulationTiming s)) = myDevice s
  /\ myHardwareSpec (snd (open audioQueue emulationTiming s)) = myHardwareSpec s
  /\ exists calls,
       sdl_calls (sdl (snd (open audioQueue emulationTiming s)))
       = (calls ++ sdl_calls (sdl s))%list
       /\ Forall (fun c => opens_or_closes c = false) calls.
Proof.
  intros Hrate Hsize Hdev.
  assert (Hcond : reopen_needed s = false).
  { apply reopen_needed_false. auto. }
  pose proof Keeps_mute. pose proof Keeps_setVolume.
  pose proof Keeps_initResampler. pose proof Keeps_about.
  change (keeps_device s (snd (open audioQueue emulationTiming s))).
  unfold open. apply Keeps_bind_this. rewrite Hcond.
  match goal with
  | |- keeps_device s (snd (?m s)) => enough (Hk : Keeps m) by exact (Hk s)
  end.
  auto 30 with keeps.
Qed.

(** ** The device callback *)

(** The volume loop multiplies the cells [i .. i + n - 1], each once, and
    leaves the others alone. *)
Lemma scale_from_lookup (n i : nat) (factor : float) (stream : list float) (j : nat) :
  scale_from i n factor stream !! j =
    if decide (i <= j < i + n)%nat
    then (fun x => fmul x factor) <$> stream !! j
    else stream !! j.
Proof.
  revert i stream. induction n as [| n IH]; intros i stream; cbn [scale_from].
  - destruct (decide _); [lia | reflexivity].
  - rewrite IH. rewrite list_lookup_alter.
    destruct (decide (S i <= j < S i + n)%nat).
    + destruct (decide (i = j)); [lia |].
      destruct (decide (i <= j < i + S n)%nat); [reflexivity | lia].
    + destruct (decide (i = j)) as [-> |].
      * destruct (decide (j <= j < j + S n)%nat); [reflexivity | lia].
      * destruct (decide (i <= j < i + S n)%nat); [lia | reflexivity].
Qed.

Lemma scale_from_length (n i : nat) (factor : float) (stream : list float) :
  length (scale_from i n factor stream) = length stream.
Proof.
  revert i stream. induction n as [| n IH]; intros i stream; cbn [scale_from].
  - reflexivity.
  - rewrite IH. apply length_alter.
Qed.

(** [len >> 2] as an unsigned number is [len / 4] for the lengths SDL
    passes. *)
Lemma shiftr_2_div_4 (len : Z) : 0 <= len < 2 ^ 31 -> uInt32 (Z.shiftr len 2) = len / 4.
Proof.
  intros Hlen. rewrite Z.shiftr_div_pow2 by lia. change (2 ^ 2) with 4.
  apply uInt32_small. split.
  - apply Z.div_pos; lia.
  - apply Z.div_lt_upper_bound; lia.
Qed.

(** A buffer zeroed over its whole length holds +0.0 in every cell. *)
Lemma memset_zero_all (stream : list float) (len : Z) :
  len = 4 * Z.of_nat (length stream) ->
  memset_zero stream len = replicate (length stream) (S754_zero false).
Proof.
  intros Hlen. apply list_eq. intros i. unfold memset_zero.
  rewrite list_lookup_imap.
  destruct (decide (i < length stream)%nat) as [Hlt | Hge].
  - rewrite (lookup_replicate_2 (length stream) (S754_zero false) i Hlt).
    destruct (lookup_lt_is_Some_2 stream i Hlt) as [x Hx]. rewrite Hx. cbn.
    destruct (Z.ltb_spec (Z.of_nat i) (len / 4)) as [| Hge]; [reflexivity |].
    subst len. rewrite Z.mul_comm, Z.div_mul in Hge by lia. lia.
  - rewrite (lookup_ge_None_2 stream i) by lia. cbn.
    symmetry. apply lookup_replicate_None. lia.
Qed.

(** C6.  With no queue bound the callback returns the stream zero-filled
    (every cell +0.0 when [len] is the byte length of the stream).  With a
    queue bound the resampler's [fillFragment] is asked for [len / 4]
    samples; when it returns, the callback returns its output with each of
    the first [len / 4] cells multiplied once by the volume factor and the
    rest as they are; when it throws, so does the callback. *)
Theorem callback_fills_and_scales (stream : list float) (len : Z) (s : State) :
  0 <= len < 2 ^ 31 ->
  (myAudioQueue s = None ->
     callback stream len s = (Ok (memset_zero stream len), s)
     /\ (len = 4 * Z.of_nat (length stream) ->
         memset_zero stream len = replicate (length stream) (S754_zero false)))
  /\ (forall q r, myAudioQueue s = Some q -> myResampler s = Some r ->
      match fillFragment nextFragmentCallback stream (len / 4) r s with
      | (Ok (r', filled), s1) =>
          exists out,
            callback stream len s = (Ok out, s1<|myResampler := Some r'|>)
            /\ length out = length filled
            /\ forall i : nat,
                 out !! i =
                   if decide (Z.of_nat i < len / 4)
                   then (fun x => fmul x (myVolumeFactor s1)) <$> filled !! i
                   else filled !! i
      | (Throw e, s1) => callback stream len s = (Throw e, s1)
      end).
Proof.
  intros Hlen. split.
  - intros Hq. split; [| apply memset_zero_all].
    unfold callback. run. rewrite Hq. reflexivity.
  - intros q r Hq Hr. unfold callback, processFragment. run.
    rewrite Hq, Hr. cbn. rewrite (shiftr_2_div_4 len Hlen).
    destruct (fillFragment nextFragmentCallback stream (len / 4) r s)
      as [[[r' filled] | e] s1]; cbn; [| reflexivity].
    eexists. split; [reflexivity |]. split; [apply scale_from_length |].
    intros i. rewrite scale_from_lookup.
    assert (0 <= len / 4) by (apply Z.div_pos; lia).
    destruct (decide (0 <= i < 0 + Z.to_nat (len / 4))%nat);
      destruct (decide (Z.of_nat i < len / 4)); try reflexivity; lia.
Qed.

(** ** Volume scaling in binary32 *)

(** The power of two 2^(k + 23): mantissa 2^23, exponent [k]. *)
Lemma fmul_power_of_two (sx : bool) (mx : positive) (ex k : Z) :
  canonical_mantissa 24 128 mx (ex + k + 23) = true ->
  ex + k + 23 <= 104 ->
  fmul (S754_finite sx mx ex) (S754_finite false 8388608 k)
  = S754_finite sx mx (ex + k + 23).
Proof.
  intros Hcan Hmax. unfold canonical_mantissa in Hcan. apply Z.eqb_eq in Hcan.
  unfold fmul, SFmul, binary_round_aux.
  rewrite xorb_false_r.
  rewrite (Pos.mul_comm mx 8388608).
  change (8388608 * mx)%positive
    with (mx~0~0~0~0~0~0~0~0~0~0~0~0~0~0~0~0~0~0~0~0~0~0~0)%positive.
  unfold shr_fexp at 1.
  assert (Hd : Zdigits2 (Z.pos mx~0~0~0~0~0~0~0~0~0~0~0~0~0~0~0~0~0~0~0~0~0~0~0)
               = Z.pos (digits2_pos mx) + 23).
  { cbn [Zdigits2 digits2_pos]. rewrite !Pos2Z.inj_succ. lia. }
  rewrite Hd.
  replace (Z.pos (digits2_pos mx) + 23 + (ex + k))
    with (Z.pos (digits2_pos mx) + (ex + k + 23)) by lia.
  rewrite Hcan.
  replace (ex + k + 23 - (ex + k)) with 23 by lia.
  cbn [shr shr_record_of_loc SpecFloat.iter_pos shr_1 orb fst snd shr_m shr_r shr_s
       loc_of_shr_record round_nearest_even].
  unfold shr_fexp. cbn [Zdigits2].
  rewrite Hcan, Z.sub_diag.
  cbn [shr shr_record_of_loc shr_m].
  destruct (Z.leb_spec (ex + k + 23) (128 - 24)); [reflexivity | lia].
Qed.

(** Multiplying by 1.0 changes no binary32 value. *)
Lemma fmul_one (x : float) :
  valid_binary 24 128 x = true -> fmul x (S754_finite false 8388608 (-23)) = x.
Proof.
  destruct x as [s | s | | s m e]; cbn [valid_binary]; intros Hv.
  - destruct s; reflexivity.
  - destruct s; reflexivity.
  - reflexivity.
  - unfold bounded in Hv. apply andb_true_iff in Hv. destruct Hv as [Hcan Hmax].
    apply Z.leb_le in Hmax. change (128 - 24) with 104 in Hmax.
    rewrite fmul_power_of_two.
    + f_equal. lia.
    + replace (e + -23 + 23) with e by lia. exact Hcan.
    + lia.
Qed.

(** Halving and doubling gives the sample back where halving is exact. *)
Lemma fmul_half_two (x : float) :
  halves_exactly x = true ->
  fmul (fmul x (S754_finite false 8388608 (-24))) (S754_finite false 8388608 (-22)) = x.
Proof.
  destruct x as [s | s | | s m e]; cbn [halves_exactly valid_binary];
    intros Hh; try discriminate.
  - destruct s; reflexivity.
  - apply andb_true_iff in Hh. destruct Hh as [Hh Hmin].
    apply andb_true_iff in Hh. destruct Hh as [Hv Hdig].
    unfold bounded in Hv. apply andb_true_iff in Hv. destruct Hv as [Hcan Hmax].
    apply Z.leb_le in Hmax. change (128 - 24) with 104 in Hmax.
    apply Z.eqb_eq in Hdig. apply Z.ltb_lt in Hmin.
    rewrite fmul_power_of_two.
    + rewrite fmul_power_of_two.
      * f_equal. lia.
      * replace (e + -24 + 23 + -22 + 23) with e by lia. exact Hcan.
      * lia.
    + unfold canonical_mantissa, fexp, emin. rewrite Hdig. apply Z.eqb_eq. lia.
    + lia.
Qed.

(** [digits2_pos] is the binary length of a mantissa. *)
Lemma digits2_pos_size (p : positive) : digits2_pos p = Pos.size p.
Proof. induction p; cbn; congruence. Qed.

(** A mantissa of at most [d] digits is below 2^d. *)
Lemma digits2_pos_bound (p : positive) (d : Z) :
  Z.pos (digits2_pos p) <= d <-> Z.pos p < 2 ^ d.
Proof.
  rewrite digits2_pos_size.
  pose proof (Pos.size_gt p) as Hgt. pose proof (Pos.size_le p) as Hle.
  apply Pos2Z.pos_lt_pos in Hgt. apply Pos2Z.pos_le_pos in Hle.
  rewrite Pos2Z.inj_pow in Hgt, Hle. rewrite Pos2Z.inj_xO in Hle.
  change (Z.pos 2) with 2 in *.
  split; intros Hb.
  - apply Z.lt_le_trans with (1 := Hgt). apply Z.pow_le_mono_r; lia.
  - destruct (Z.le_gt_cases (Z.pos (Pos.size p)) d) as [| Hlt]; [assumption |].
    exfalso.
    assert (0 <= d \/ d < 0) as [Hd | Hd] by lia.
    + assert (Hpow : 2 ^ (d + 1) <= 2 ^ Z.pos (Pos.size p))
        by (apply Z.pow_le_mono_r; lia).
      rewrite Z.pow_add_r in Hpow by lia.
      change (2 ^ 1) with 2 in Hpow. change (2 * 1) with 2 in Hle. lia.
    + rewrite Z.pow_neg_r in Hb by lia. lia.
Qed.

(** Doubling below the normal range shifts the mantissa. *)
Lemma fmul_two_subnormal (s : bool) (p : positive) :
  Z.pos (digits2_pos p) <= 23 ->
  fmul (S754_finite s p (-149)) (S754_finite false 8388608 (-22))
  = S754_finite s p~0 (-149).
Proof.
  intros Hd.
  unfold fmul, SFmul, binary_round_aux.
  rewrite xorb_false_r.
  rewrite (Pos.mul_comm p 8388608).
  change (8388608 * p)%positive
    with (p~0~0~0~0~0~0~0~0~0~0~0~0~0~0~0~0~0~0~0~0~0~0~0)%positive.
  unfold shr_fexp at 1.
  assert (Hd' : Zdigits2 (Z.pos p~0~0~0~0~0~0~0~0~0~0~0~0~0~0~0~0~0~0~0~0~0~0~0)
               = Z.pos (digits2_pos p) + 23).
  { cbn [Zdigits2 digits2_pos]. rewrite !Pos2Z.inj_succ. lia. }
  rewrite Hd'.
  replace (fexp 24 128 (Z.pos (digits2_pos p) + 23 + (-149 + -22))) with (-149)
    by (unfold fexp, emin; lia).
  change (-149 - (-149 + -22)) with 22.
  cbn [shr shr_record_of_loc SpecFloat.iter_pos shr_1 orb fst snd shr_m shr_r shr_s
       loc_of_shr_record round_nearest_even].
  unfold shr_fexp. cbn [Zdigits2 digits2_pos]. rewrite Pos2Z.inj_succ.
  replace (fexp 24 128 (Z.succ (Z.pos (digits2_pos p)) + (-149 + -22 + 22))) with (-149)
    by (unfold fexp, emin; lia).
  reflexivity.
Qed.

(** Halving below the normal range drops the last bit of the mantissa and
    rounds to even. *)
Lemma fmul_half_subnormal (s : bool) (m : positive) :
  Z.pos (digits2_pos m) <= 24 ->
  fmul (S754_finite s m (-149)) (S754_finite false 8388608 (-24))
  = match m with
    | 1 => S754_zero s
    | q~0 => S754_finite s q (-149)
    | 3 => S754_finite s 2 (-149)
    | q~0~1 => S754_finite s q~0 (-149)
    | q~1~1 => S754_finite s (Pos.succ q)~0 (-149)
    end%positive.
Proof.
  intros Hd.
  unfold fmul, SFmul, binary_round_aux.
  rewrite xorb_false_r.
  rewrite (Pos.mul_comm m 8388608).
  change (8388608 * m)%positive
    with (m~0~0~0~0~0~0~0~0~0~0~0~0~0~0~0~0~0~0~0~0~0~0~0)%positive.
  unfold shr_fexp at 1.
  assert (Hd' : Zdigits2 (Z.pos m~0~0~0~0~0~0~0~0~0~0~0~0~0~0~0~0~0~0~0~0~0~0~0)
               = Z.pos (digits2_pos m) + 23).
  { cbn [Zdigits2 digits2_pos]. rewrite !Pos2Z.inj_succ. lia. }
  rewrite Hd'.
  replace (fexp 24 128 (Z.pos (digits2_pos m) + 23 + (-149 + -24))) with (-149)
    by (unfold fexp, emin; lia).
  change (-149 - (-149 + -24)) with 24.
  assert (Hsucc : forall q : positive,
            Z.pos (digits2_pos q~1~1) <= 24 -> Z.pos (digits2_pos (Pos.succ q)) <= 23).
  { intros q Hq. apply digits2_pos_bound. cbn [digits2_pos] in Hq.
    rewrite !Pos2Z.inj_succ in Hq.
    assert (Hq' : Z.pos (digits2_pos q) <= 22) by lia.
    apply digits2_pos_bound in Hq'. rewrite Pos2Z.inj_succ.
    change (2 ^ 23) with (2 * 2 ^ 22). lia. }
  destruct m as [[q | q |] | q |];
    cbn [shr shr_record_of_loc SpecFloat.iter_pos shr_1 orb fst snd shr_m shr_r shr_s
         loc_of_shr_record round_nearest_even Z.even];
    try reflexivity;
    unfold shr_fexp; cbn [Zdigits2 digits2_pos shr_record_of_loc shr_m].
  - specialize (Hsucc q Hd). change (Z.pos q~1 + 1) with (Z.pos (Pos.succ q)~0).
    cbn [Zdigits2 digits2_pos shr_record_of_loc shr_m]. rewrite Pos2Z.inj_succ.
    replace (fexp 24 128 (Z.succ (Z.pos (digits2_pos (Pos.succ q))) + (-149 + -24 + 24)))
      with (-149) by (unfold fexp, emin; lia).
    reflexivity.
  - cbn [digits2_pos] in Hd. rewrite !Pos2Z.inj_succ in *.
    replace (fexp 24 128 (Z.succ (Z.pos (digits2_pos q)) + (-149 + -24 + 24)))
      with (-149) by (unfold fexp, emin; lia).
    reflexivity.
  - cbn [digits2_pos] in Hd. rewrite !Pos2Z.inj_succ in *.
    replace (fexp 24 128 (Z.pos (digits2_pos q) + (-149 + -24 + 24)))
      with (-149) by (unfold fexp, emin; lia).
    reflexivity.
Qed.

(** Doubling a number of the lowest two binades doubles its value. *)
Lemma fmul_two_units (s : bool) (r : positive) :
  Z.pos (digits2_pos r) <= 24 ->
  is_finite (fmul (S754_finite s r (-149)) (S754_finite false 8388608 (-22))) = true
  /\ float_units (fmul (S754_finite s r (-149)) (S754_finite false 8388608 (-22)))
     = 2 * float_units (S754_finite s r (-149)).
Proof.
  intros Hd.
  destruct (Z.eq_dec (Z.pos (digits2_pos r)) 24) as [H24 | H24].
  - rewrite fmul_power_of_two.
    + split; [reflexivity |]. cbn [float_units].
      change (2 ^ (-149 + -22 + 23 + 149)) with 2. change (2 ^ (-149 + 149)) with 1.
      destruct s; lia.
    + unfold canonical_mantissa, fexp, emin. rewrite H24. reflexivity.
    + lia.
  - rewrite fmul_two_subnormal by lia.
    split; [reflexivity |]. cbn [float_units].
    change (2 ^ (-149 + 149)) with 1. destruct s; lia.
Qed.

(** Halving and doubling moves a finite sample by at most one unit (and not
    at all outside the lowest binades). *)
Lemma fmul_half_two_units (x : float) :
  valid_binary 24 128 x = true -> is_finite x = true ->
  within_rounding
    (fmul (fmul x (S754_finite false 8388608 (-24))) (S754_finite false 8388608 (-22))) x
  = true.
Proof.
  destruct x as [s | s | | s m e]; cbn [is_finite]; intros Hv Hf; try discriminate.
  - destruct s; reflexivity.
  - assert (Hsame : forall y : float, is_finite y = true -> within_rounding y y = true).
    { intros y Hy. unfold within_rounding. rewrite Hy, Z.sub_diag. reflexivity. }
    pose proof Hv as Hv'. cbn [valid_binary] in Hv'. unfold bounded in Hv'.
    apply andb_true_iff in Hv'. destruct Hv' as [Hcan Hmax].
    unfold canonical_mantissa, fexp, emin in Hcan. apply Z.eqb_eq in Hcan.
    destruct (Z.eq_dec e (-149)) as [-> | He].
    + assert (Hd : Z.pos (digits2_pos m) <= 24) by lia.
      rewrite fmul_half_subnormal by exact Hd.
      assert (Hlow : forall r : positive, Z.pos (digits2_pos r) <= 24 ->
                Z.abs (2 * Z.pos r - Z.pos m) <= 1 ->
                within_rounding
                  (fmul (S754_finite s r (-149)) (S754_finite false 8388608 (-22)))
                  (S754_finite s m (-149)) = true).
      { intros r Hr Hnear. destruct (fmul_two_units s r Hr) as [Hfin Hunits].
        unfold within_rounding. rewrite Hfin, Hunits. cbn [is_finite andb float_units].
        change (2 ^ (-149 + 149)) with 1. apply Z.leb_le. destruct s; lia. }
      destruct m as [[q | q |] | q |].
      * apply Hlow; [| lia].
        cbn [digits2_pos] in Hd |- *. rewrite !Pos2Z.inj_succ in *.
        assert (Hq : Z.pos (digits2_pos q) <= 22) by lia.
        apply digits2_pos_bound in Hq.
        assert (Hq' : Z.pos (digits2_pos (Pos.succ q)) <= 23).
        { apply digits2_pos_bound. rewrite Pos2Z.inj_succ.
          change (2 ^ 23) with (2 * 2 ^ 22). lia. }
        lia.
      * apply Hlow; [| lia]. cbn [digits2_pos] in Hd |- *.
        rewrite !Pos2Z.inj_succ in *. lia.
      * destruct s; vm_compute; reflexivity.
      * apply Hlow; [| lia]. cbn [digits2_pos] in Hd. rewrite !Pos2Z.inj_succ in *. lia.
      * destruct s; vm_compute; reflexivity.
    + rewrite fmul_half_two; [apply Hsame; reflexivity |].
      cbn [halves_exactly]. rewrite Hv. cbn [andb].
      apply andb_true_iff. split; [apply Z.eqb_eq | apply Z.ltb_lt]; lia.
Qed.

(** At factor +0.0 a finite sample becomes a zero. *)
Lemma fmul_zero (x : float) :
  is_finite x = true -> is_zero (fmul x (S754_zero false)) = true.
Proof. destruct x; cbn; intros Hf; try discriminate; reflexivity. Qed.

(** C9.  After [setVolume(percent)] on an initialized device, with a
    resampler whose fill leaves the volume factor alone, [processFragment]
    returns the resampler's output with every one of the [n] samples
    multiplied, in binary32, by the factor [percent / 100].  For every
    sample of finite magnitude (the resamplers compute theirs from 16 bit
    fragments): twice the output at volume 50 is equal up to rounding to
    the output at volume 100, that is at most one unit of 2^-149 away, and
    is equal to it for a zero and for a normal number above the lowest
    binade; the output at volume 100 is the sample itself; and the output
    at volume 0 is a zero. *)
Theorem volume_scaling_linear (percent : Z) (s0 : State) (stream : list float) (n : Z)
    (r r' : Resampler) (filled : list float) (s1 : State) :
  myIsInitializedFlag s0 = true -> 0 <= percent <= 100 -> 0 <= n ->
  myResampler (snd (setVolume percent s0)) = Some r ->
  fillFragment nextFragmentCallback stream n r (snd (setVolume percent s0))
  = (Ok (r', filled), s1) ->
  myVolumeFactor s1 = myVolumeFactor (snd (setVolume percent s0)) ->
  (exists out,
     processFragment stream n (snd (setVolume percent s0))
     = (Ok out, s1<|myResampler := Some r'|>)
     /\ forall (i : nat) (x : float), Z.of_nat i < n -> filled !! i = Some x ->
          out !! i = Some (fmul x (fdiv (float_of_Z percent) (float_of_Z 100))))
  /\ (forall x : float, valid_binary 24 128 x = true -> is_finite x = true ->
        within_rounding
          (fmul (fmul x (fdiv (float_of_Z 50) (float_of_Z 100))) (float_of_Z 2))
          (fmul x (fdiv (float_of_Z 100) (float_of_Z 100))) = true
        /\ (halves_exactly x = true ->
            fmul (fmul x (fdiv (float_of_Z 50) (float_of_Z 100))) (float_of_Z 2)
            = fmul x (fdiv (float_of_Z 100) (float_of_Z 100)))
        /\ fmul x (fdiv (float_of_Z 100) (float_of_Z 100)) = x)
  /\ (forall x : float, is_finite x = true ->
        is_zero (fmul x (fdiv (float_of_Z 0) (float_of_Z 100))) = true).
Proof.
  intros Hinit Hp Hn Hr Hfill Hfactor.
  destruct (proj2 (setVolume_guarded percent s0) (proj2 Hp) Hinit)
    as (s & Hset & _ & _ & Hvf & _).
  rewrite Hset in *. cbn [snd] in *.
  split; [| split].
  - unfold processFragment. run. rewrite Hr. cbn. rewrite Hfill. cbn.
    eexists. split; [reflexivity |].
    intros i x Hi Hx. rewrite scale_from_lookup, Hx, Hfactor, Hvf.
    destruct (decide (0 <= i < 0 + Z.to_nat n)%nat); [reflexivity | lia].
  - intros x Hv Hx.
    change (fdiv (float_of_Z 50) (float_of_Z 100)) with (S754_finite false 8388608 (-24)).
    change (fdiv (float_of_Z 100) (float_of_Z 100)) with (S754_finite false 8388608 (-23)).
    change (float_of_Z 2) with (S754_finite false 8388608 (-22)).
    rewrite fmul_one by exact Hv.
    split; [apply fmul_half_two_units; assumption |].
    split; [apply fmul_half_two | reflexivity].
  - intros x Hx.
    change (fdiv (float_of_Z 0) (float_of_Z 100)) with (S754_zero false).
    apply fmul_zero. exact Hx.
Qed.

End Properties.
(** * Further properties of the engine *)

Section Behaviour.

Context {AudioQueue Resampler : Type}.
Context `{Host} `{HostAudio} `{AudioQueueOps AudioQueue} `{ResamplerOps Resampler}.

Local Abbreviation Sound := (SoundSDL2 AudioQueue Resampler).
Local Abbreviation Member := (M AudioQueue Resampler).

(** Unfolding of the monad's operations and nothing else. *)
Ltac unfold_monad :=
  cbv beta iota zeta delta [bind ret gets modify when throw this sdl_do deref].

(** Reading a member of an object that is given by assignments to another
    object. *)
Ltac members :=
  cbn [myAudioSettings myDevices myIsInitializedFlag myVolume myVolumeFactor myDevice
     myDeviceId myHardwareSpec myAudioQueue myEmulationTiming myCurrentFragment myUnderrun
     myMuteState myResampler myAboutString myWavFilename myWavLength myWavDevice myWavBuffer
     myWavVolumeFactor myWavSpec myWavPos myWavLen myWavSpeed myWavCvtBuffer
     myWavCvtBufferSize sdl shownMessages set_myAudioSettings set_myDevices
     set_myIsInitializedFlag set_myVolume set_myVolumeFactor set_myDevice set_myDeviceId
     set_myHardwareSpec set_myAudioQueue set_myEmulationTiming set_myCurrentFragment
     set_myUnderrun set_myMuteState set_myResampler set_myAboutString set_myWavFilename
     set_myWavLength set_myWavDevice set_myWavBuffer set_myWavVolumeFactor set_myWavSpec
     set_myWavPos set_myWavLen set_myWavSpeed set_myWavCvtBuffer set_myWavCvtBufferSize
     set_sdl set_shownMessages apply_update constant AudioSettings.enabled AudioSettings.volume
     AudioSettings.sampleRate AudioSettings.fragmentSize AudioSettings.device
     AudioSettings.preset AudioSettings.resamplingQuality AudioSettings.headroom
     AudioSettings.bufferSize AudioSettings.set_enabled AudioSettings.set_volume
     AudioSettings.setEnabled AudioSettings.setVolume fst snd].

Ltac members_in H :=
  cbn [myAudioSettings myDevices myIsInitializedFlag myVolume myVolumeFactor myDevice
     myDeviceId myHardwareSpec myAudioQueue myEmulationTiming myCurrentFragment myUnderrun
     myMuteState myResampler myAboutString myWavFilename myWavLength myWavDevice myWavBuffer
     myWavVolumeFactor myWavSpec myWavPos myWavLen myWavSpeed myWavCvtBuffer
     myWavCvtBufferSize sdl shownMessages set_myAudioSettings set_myDevices
     set_myIsInitializedFlag set_myVolume set_myVolumeFactor set_myDevice set_myDeviceId
     set_myHardwareSpec set_myAudioQueue set_myEmulationTiming set_myCurrentFragment
     set_myUnderrun set_myMuteState set_myResampler set_myAboutString set_myWavFilename
     set_myWavLength set_myWavDevice set_myWavBuffer set_myWavVolumeFactor set_myWavSpec
     set_myWavPos set_myWavLen set_myWavSpeed set_myWavCvtBuffer set_myWavCvtBufferSize
     set_sdl set_shownMessages apply_update constant AudioSettings.enabled AudioSettings.volume
     AudioSettings.sampleRate AudioSettings.fragmentSize AudioSettings.device
     AudioSettings.preset AudioSettings.resamplingQuality AudioSettings.headroom
     AudioSettings.bufferSize AudioSettings.set_enabled AudioSettings.set_volume
     AudioSettings.setEnabled AudioSettings.setVolume fst snd] in H.

(** The monad's operations at a given object. *)
Lemma bind_modify {A : Type} (f : Sound -> Sound) (k : unit -> Member A) (s : Sound) :
  bind (modify f) k s = k tt (f s).
Proof. reflexivity. Qed.

Lemma bind_sdl_do {A : Type} (f : SDL_State -> SDL_State) (k : unit -> Member A)
    (s : Sound) :
  bind (sdl_do f) k s = k tt (s<|sdl ::= f|>).
Proof. reflexivity. Qed.

Lemma bind_gets {A B : Type} (f : Sound -> A) (k : A -> Member B) (s : Sound) :
  bind (gets f) k s = k (f s) s.
Proof. reflexivity. Qed.

Lemma bind_this {A : Type} (k : Sound -> Member A) (s : Sound) :
  bind this k s = k s s.
Proof. reflexivity. Qed.

Lemma bind_ret {A B : Type} (a : A) (k : A -> Member B) (s : Sound) :
  bind (ret a) k s = k a s.
Proof. reflexivity. Qed.

Lemma bind_bind {A B C : Type} (m : Member A) (h : A -> Member B) (k : B -> Member C)
    (s : Sound) :
  bind (bind m h) k s = bind m (fun a => bind (h a) k) s.
Proof. unfold bind. destruct (m s) as [[a | e] s1]; reflexivity. Qed.

Lemma bind_run {A B : Type} (m : Member A) (k : A -> Member B) (s s1 : Sound) (a : A) :
  m s = (Ok a, s1) -> bind m k s = k a s1.
Proof. intros Hm. unfold bind. rewrite Hm. reflexivity. Qed.

Lemma when_true (m : Member unit) : when true m = m.
Proof. reflexivity. Qed.

Lemma when_false (m : Member unit) : when false m = ret tt.
Proof. reflexivity. Qed.

(** One step of a member function on a given object, by rewriting. *)
Ltac exec :=
  lazymatch goal with
  | |- context [bind (modify ?f) ?k ?s] => rewrite (bind_modify f k s)
  | |- context [bind (sdl_do ?f) ?k ?s] => rewrite (bind_sdl_do f k s)
  | |- context [bind (gets ?f) ?k ?s] => rewrite (bind_gets f k s)
  | |- context [bind this ?k ?s] => rewrite (bind_this k s)
  | |- context [bind (ret ?a) ?k ?s] => rewrite (bind_ret a k s)
  | |- context [bind (bind ?m ?h) ?k ?s] => rewrite (bind_bind m h k s)
  end; cbv beta.
(** ** The WAV overlay: cursor and remaining length *)

Lemma Int32_small (z : Z) : - 2 ^ 31 <= z < 2 ^ 31 -> Int32 z = z.
Proof. intros Hz. unfold Int32. rewrite Z.mod_small by lia. lia. Qed.

Lemma Int32_range (z : Z) : - 2 ^ 31 <= Int32 z < 2 ^ 31.
Proof.
  unfold Int32. pose proof (Z.mod_pos_bound (z + 2 ^ 31) (2 ^ 32)). lia.
Qed.

Lemma round_to_int_range (x : double) : - 2 ^ 31 <= round_to_int x < 2 ^ 31.
Proof.
  unfold round_to_int. destruct x; try lia. apply Int32_range.
Qed.

(** On an [int] request and a remaining length below 2^31, the limited
    length lies between 0 and what remains: a negative request is a large
    unsigned number and is cut down to the remaining length. *)
Lemma clamp_len_bounds (len : Z) (s : Sound) :
  0 <= myWavLen s < 2 ^ 31 -> - 2 ^ 31 <= len < 2 ^ 31 ->
  0 <= clamp_len len s <= myWavLen s.
Proof.
  intros Hw Hlen. unfold clamp_len.
  destruct (Z.gtb_spec (uInt32 len) (myWavLen s)) as [Hgt | Hle].
  - rewrite Int32_small by lia. lia.
  - destruct (Z.neg_nonneg_cases len) as [Hneg | Hpos].
    + exfalso. unfold uInt32 in Hle.
      replace len with (len + 2 ^ 32 + (-1) * 2 ^ 32) in Hle by lia.
      rewrite Z.mod_add, Z.mod_small in Hle by lia. lia.
    + rewrite uInt32_small in Hle by lia. lia.
Qed.

Lemma wavCallback_len_bounds (len : Z) (s : Sound) :
  0 <= myWavLen s < 2 ^ 31 -> - 2 ^ 31 <= len < 2 ^ 31 ->
  0 <= wavCallback_len len s <= myWavLen s.
Proof.
  intros Hw Hlen. unfold wavCallback_len.
  destruct (fneq (myWavSpeed s) (double_of_Z 1)).
  - apply clamp_len_bounds; [exact Hw | apply round_to_int_range].
  - apply clamp_len_bounds; assumption.
Qed.

(** X1.  The overlay callback moves the cursor forward by exactly what it takes
    off the remaining length: their sum, the end of the region being
    played, stays where [playWav] put it, the cursor never moves back and
    the remaining length never grows.  A region within the loaded buffer
    stays within it. *)
Theorem wavCallback_conserves_region (len : Z) (s : Sound) :
  0 <= myWavLen s < 2 ^ 31 -> - 2 ^ 31 <= len < 2 ^ 31 ->
  exists s', wavCallback len s = (Ok tt, s')
    /\ myWavPos s' + myWavLen s' = myWavPos s + myWavLen s
    /\ myWavPos s <= myWavPos s'
    /\ 0 <= myWavLen s' <= myWavLen s
    /\ (wav_in_bounds s -> wav_in_bounds s').
Proof.
  intros Hw Hlen.
  destruct (wavCallback_run len s) as (s' & Hrun & Hb & Hl & Hn & Hp & Hp0); [lia |].
  pose proof (wavCallback_len_bounds len s Hw Hlen) as Hc.
  rewrite uInt32_small in Hn by lia.
  exists s'. split; [exact Hrun |].
  assert (Hpos : myWavPos s' = myWavPos s + wavCallback_len len s).
  { destruct (Z.eq_dec (myWavLen s) 0) as [Hz | Hnz].
    - rewrite (Hp0 Hz). lia.
    - exact (Hp Hnz). }
  unfold wav_in_bounds. rewrite Hb, Hl. lia.
Qed.
(** ** Predicates that a member function preserves *)

(** [m] keeps [P], whether it returns or throws. *)
Definition Preserves {A : Type} (P : Sound -> Prop) (m : Member A) : Prop :=
  forall s, P s -> P (snd (m s)).

Lemma Preserves_ret {A : Type} (P : Sound -> Prop) (a : A) : Preserves P (ret a).
Proof. intros s Hs. exact Hs. Qed.

Lemma Preserves_throw {A : Type} (P : Sound -> Prop) (e : Exception) :
  Preserves P (@throw Sound A e).
Proof. intros s Hs. exact Hs. Qed.

Lemma Preserves_gets {A : Type} (P : Sound -> Prop) (f : Sound -> A) :
  Preserves P (gets f).
Proof. intros s Hs. exact Hs. Qed.

Lemma Preserves_bind {A B : Type} (P : Sound -> Prop) (m : Member A) (k : A -> Member B) :
  Preserves P m -> (forall a, Preserves P (k a)) -> Preserves P (bind m k).
Proof.
  intros Hm Hk s Hs. unfold bind. specialize (Hm s Hs).
  destruct (m s) as [[a | e] s1]; cbn in *.
  - apply Hk. exact Hm.
  - exact Hm.
Qed.

(** A continuation that reads the object may be analysed at the object it
    read. *)
Lemma Preserves_bind_this {A : Type} (P : Sound -> Prop) (k : Sound -> Member A) :
  (forall s0, Preserves P (k s0)) -> Preserves P (bind this k).
Proof. intros Hk s Hs. exact (Hk s s Hs). Qed.

Lemma Preserves_when (P : Sound -> Prop) (c : bool) (m : Member unit) :
  Preserves P m -> Preserves P (when c m).
Proof. intros Hm. destruct c; [exact Hm | apply Preserves_ret]. Qed.

Lemma Preserves_modify (P : Sound -> Prop) (f : Sound -> Sound) :
  (forall s, P s -> P (f s)) -> Preserves P (modify f).
Proof. intros Hf s Hs. apply Hf. exact Hs. Qed.

Lemma Preserves_deref {A : Type} (P : Sound -> Prop) (p : Sound -> option A) :
  Preserves P (deref p).
Proof. intros s Hs. unfold deref, bind, this, gets. destruct (p s); exact Hs. Qed.

Create HintDb preserves.

#[local] Hint Resolve Preserves_ret Preserves_throw Preserves_gets Preserves_deref
  Preserves_when : preserves.
#[local] Hint Extern 1 (Preserves _ this) => apply Preserves_gets : preserves.
#[local] Hint Extern 2 (Preserves _ (bind _ _)) =>
  apply Preserves_bind; [| intros ?] : preserves.
#[local] Hint Extern 2 (Preserves _ (modify _)) =>
  apply Preserves_modify; let h := fresh in intros ? h; exact h : preserves.
#[local] Hint Extern 2 (Preserves _ (sdl_do _)) =>
  apply Preserves_modify; let h := fresh in intros ? h; exact h : preserves.
#[local] Hint Extern 3 (Preserves _ (match ?x with _ => _ end)) => destruct x : preserves.

(** The proof that a member function keeps a predicate which the setters it
    uses keep by computation. *)
Ltac preserves := auto 60 with preserves.

(** The overlay callback writes the cursor, the remaining length, the
    conversion buffer and the SDL state, and nothing else. *)
Definition apart_from_overlay_cursor (P : Sound -> Prop) : Prop :=
  forall s, P s ->
    (forall f, P (s<|sdl ::= f|>))
    /\ (forall v, P (s<|myWavPos := v|>))
    /\ (forall v, P (s<|myWavLen := v|>))
    /\ (forall v, P (s<|myWavCvtBuffer := v|>))
    /\ (forall v, P (s<|myWavCvtBufferSize := v|>)).

Lemma Preserves_wavCallback (P : Sound -> Prop) (len : Z) :
  apart_from_overlay_cursor P -> Preserves P (wavCallback len).
Proof.
  intros HP.
  assert (Hsdl : forall f, Preserves P (sdl_do f)).
  { intros f. apply Preserves_modify. intros s Hs. apply (HP s Hs). }
  assert (Hmod : forall (g : Sound -> Z),
            Preserves P (modify (fun s => s<|myWavPos := g s|>))
            /\ Preserves P (modify (fun s => s<|myWavLen := g s|>))
            /\ Preserves P (modify (fun s => s<|myWavCvtBuffer := g s|>))
            /\ Preserves P (modify (fun s => s<|myWavCvtBufferSize := g s|>))).
  { intros g. repeat split; apply Preserves_modify; intros s Hs; apply (HP s Hs). }
  unfold wavCallback, wavCallback_resampled, wavCallback_direct.
  apply Preserves_bind_this. intros s0.
  apply Preserves_bind; [apply Hsdl | intros _].
  apply Preserves_when.
  apply Preserves_bind.
  - destruct (fneq (myWavSpeed s0) (double_of_Z 1)).
    + apply Preserves_bind_this. intros s1.
      apply Preserves_bind; [apply Hsdl | intros _].
      apply Preserves_bind.
      * apply Preserves_when.
        apply Preserves_bind; [apply Preserves_when; apply Hsdl | intros _].
        apply Preserves_bind; [apply (Hmod (fun _ => _)) | intros _].
        apply Preserves_bind; [apply Hsdl | intros _].
        apply (Hmod (fun _ => _)).
      * intros _. apply Preserves_bind_this. intros s2.
        repeat (apply Preserves_bind; [apply Hsdl | intros _]).
        apply Preserves_ret.
    + apply Preserves_bind_this. intros s1.
      apply Preserves_bind; [apply Hsdl | intros _]. apply Preserves_ret.
  - intros n. apply Preserves_bind; [apply (Hmod (fun s => myWavPos s + n)) | intros _].
    apply (Hmod (fun s => uInt32 (myWavLen s - n))).
Qed.

Lemma wavCallback_keeps_speed (len : Z) (s : Sound) :
  myWavSpeed (snd (wavCallback len s)) = myWavSpeed s.
Proof.
  apply (Preserves_wavCallback (fun s' => myWavSpeed s' = myWavSpeed s)).
  - intros s' Hs'. repeat split; intros; exact Hs'.
  - reflexivity.
Qed.

(** At speed 1.0 the limited length is the smaller of the request and what
    remains. *)
Lemma wavCallback_len_unit_speed (len : Z) (s : Sound) :
  fneq (myWavSpeed s) (double_of_Z 1) = false ->
  0 <= myWavLen s < 2 ^ 31 -> 0 <= len < 2 ^ 31 ->
  wavCallback_len len s = Z.min len (myWavLen s).
Proof.
  intros Hv Hw Hlen. unfold wavCallback_len, clamp_len. rewrite Hv.
  rewrite uInt32_small by lia.
  destruct (Z.gtb_spec len (myWavLen s)).
  - rewrite Int32_small by lia. lia.
  - lia.
Qed.

(** X2.  Played at speed 1.0 (the emulation's sample rate is 31440 Hz), an
    overlay of [L] remaining bytes is consumed [len] bytes a callback:
    after [n] callbacks [max(0, L - n * len)] bytes remain and the cursor
    has advanced by [min(L, n * len)], so that it stops at the end of the
    region and the remaining length stays at zero from then on. *)
Theorem wavCallbacks_drain (n : nat) (len : Z) (s : Sound) :
  fneq (myWavSpeed s) (double_of_Z 1) = false ->
  0 <= myWavLen s < 2 ^ 31 -> 0 <= len < 2 ^ 31 ->
  myWavLen (wavCallbacks n len s) = Z.max 0 (myWavLen s - Z.of_nat n * len)
  /\ myWavPos (wavCallbacks n len s) = myWavPos s + Z.min (myWavLen s) (Z.of_nat n * len).
Proof.
  revert s. induction n as [| n IH]; intros s Hv Hw Hlen.
  - cbn [wavCallbacks]. lia.
  - cbn [wavCallbacks].
    destruct (wavCallback_run len s) as (s' & Hrun & _ & _ & Hn & Hp & Hp0); [lia |].
    pose proof (wavCallback_len_unit_speed len s Hv Hw Hlen) as Hc.
    pose proof (wavCallback_keeps_speed len s) as Hv'.
    rewrite Hrun in *. cbn [snd] in *.
    rewrite Hc in Hn, Hp. rewrite uInt32_small in Hn by lia.
    assert (Hpos : myWavPos s' = myWavPos s + Z.min len (myWavLen s)).
    { destruct (Z.eq_dec (myWavLen s) 0) as [Hz | Hnz].
      - rewrite (Hp0 Hz). lia.
      - exact (Hp Hnz). }
    destruct (IH s') as [IHn IHp]; [congruence | lia | lia |].
    rewrite IHn, IHp, Hn, Hpos. nia.
Qed.
(** ** The WAV overlay: [playWav] and [stopWav] *)

(** The first block of [playWav] for a file that is not resident and that
    loads. *)
Lemma playWav_load_fresh (fileName : string) (s : Sound) (w : WavData) :
  fileName <> myWavFilename s \/ myWavBuffer s = 0 ->
  host_wav fileName = Some w ->
  exists s1, playWav_load fileName s = (Ok true, s1)
    /\ myWavBuffer s1 = Z.pos (wav_buf w) /\ myWavLength s1 = wav_len w.
Proof.
  intros Hnot Hwav.
  assert (Hload : negb (String.eqb fileName (myWavFilename s)) || (myWavBuffer s =? 0) = true).
  { destruct Hnot as [Hname | Hbuf].
    - destruct (String.eqb_spec fileName (myWavFilename s)); [contradiction | reflexivity].
    - rewrite Hbuf. apply orb_true_r. }
  unfold playWav_load, SDL_LoadWAV. unfold_monad.
  rewrite Hload, Hwav.
  destruct (negb (myWavBuffer s =? 0)); unfold_monad;
    (eexists; split; [reflexivity | split; reflexivity]).
Qed.

(** [playWav] in that case: the buffer and its length are the loaded ones
    when the offset is checked. *)
Lemma playWav_fresh (fileName : string) (position len : Z) (s : Sound) (w : WavData) :
  fileName <> myWavFilename s \/ myWavBuffer s = 0 ->
  host_wav fileName = Some w ->
  exists s1, myWavBuffer s1 = Z.pos (wav_buf w) /\ myWavLength s1 = wav_len w
    /\ playWav fileName position len s =
         if position >? wav_len w then (Ok false, s1)
         else playWav_device
                (s1<|myWavFilename := fileName|>
                   <|myWavLen := if negb (len =? 0)
                                 then Z.min len (uInt32 (myWavLength s1 - position))
                                 else myWavLength s1|>
                   <|myWavPos := myWavBuffer s1 + position|>).
Proof.
  intros Hnot Hwav.
  destruct (playWav_load_fresh fileName s w Hnot Hwav) as (s1 & Hrun & Hb & Hl).
  exists s1. split; [exact Hb |]. split; [exact Hl |].
  unfold playWav. unfold bind at 1. rewrite Hrun. cbn [negb].
  unfold_monad. rewrite <- Hl.
  destruct (position >? myWavLength s1); reflexivity.
Qed.

(** X3.  Whenever [playWav] succeeds on a request with a length, or with no
    length and no offset, the region it selects lies within the loaded
    buffer: the cursor is not before the buffer and cursor plus remaining
    length is not past its end.  This holds for a resident file and for one
    that had to be loaded. *)
Theorem playWav_region_in_bounds (fileName : string) (position len : Z) (s : Sound) :
  0 <= position -> 0 <= len -> len <> 0 \/ position = 0 ->
  0 <= myWavLength s < 2 ^ 32 ->
  (forall w, host_wav fileName = Some w -> 0 <= wav_len w < 2 ^ 32) ->
  fst (playWav fileName position len s) = Ok true ->
  wav_in_bounds (snd (playWav fileName position len s))
  /\ myWavBuffer (snd (playWav fileName position len s)) <> 0
  /\ myWavPos (snd (playWav fileName position len s))
     = myWavBuffer (snd (playWav fileName position len s)) + position
  /\ 0 <= myWavLen (snd (playWav fileName position len s)).
Proof.
  intros Hpos Hlen Hreq HT Hw.
  assert (Hregion : forall s1 : Sound, myWavBuffer s1 <> 0 -> 0 <= myWavLength s1 < 2 ^ 32 ->
            position <= myWavLength s1 ->
            let s2 := s1<|myWavFilename := fileName|>
                        <|myWavLen := if negb (len =? 0)
                                      then Z.min len (uInt32 (myWavLength s1 - position))
                                      else myWavLength s1|>
                        <|myWavPos := myWavBuffer s1 + position|> in
            wav_in_bounds (snd (playWav_device s2))
            /\ myWavBuffer (snd (playWav_device s2)) <> 0
            /\ myWavPos (snd (playWav_device s2))
               = myWavBuffer (snd (playWav_device s2)) + position
            /\ 0 <= myWavLen (snd (playWav_device s2))).
  { intros s1 Hb Hlength1 Hle s2.
    destruct (playWav_device_frame s2) as (Hp & Hl & Hbuf & Hlength & _).
    unfold wav_in_bounds. rewrite Hp, Hl, Hbuf, Hlength.
    subst s2. cbn. rewrite uInt32_small by lia.
    destruct (Z.eqb_spec len 0); cbn [negb]; repeat split; try lia; exact Hb. }
  destruct (String.eqb_spec fileName (myWavFilename s)) as [Hname | Hname];
    [destruct (Z.eq_dec (myWavBuffer s) 0) as [Hbuf | Hbuf] |].
  2: { rewrite (playWav_resident fileName position len s Hname Hbuf).
       destruct (Z.gtb_spec position (myWavLength s)); [discriminate |].
       intros _. apply Hregion; [exact Hbuf | exact HT | lia]. }
  all: destruct (host_wav fileName) as [w |] eqn:Hwav.
  all: try (destruct (playWav_fresh fileName position len s w) as (s1 & Hb1 & Hl1 & Hrun);
            [auto | exact Hwav |];
            rewrite Hrun; specialize (Hw w eq_refl);
            destruct (Z.gtb_spec position (wav_len w)); [discriminate |];
            intros _; apply Hregion; [rewrite Hb1; discriminate | lia | lia]).
  all: unfold playWav, playWav_load, SDL_LoadWAV; unfold_monad.
  - rewrite Hbuf, orb_true_r, Hwav. cbn [Z.eqb negb]. unfold_monad. discriminate.
  - destruct (String.eqb_spec fileName (myWavFilename s)); [contradiction |].
    cbn [negb orb]. rewrite Hwav.
    destruct (negb (myWavBuffer s =? 0)); unfold_monad; discriminate.
Qed.

(** X4.  [stopWav] always returns and leaves no buffer loaded, no conversion
    buffer and a reported size of zero; when a buffer was loaded the
    remaining length is zero, the overlay device is closed and forgotten;
    when nothing was loaded nothing changes, so a second [stopWav] is a
    no-op. *)
Theorem stopWav_releases (s : Sound) :
  exists s', stopWav s = (Ok tt, s')
    /\ myWavBuffer s' = 0 /\ myWavCvtBuffer s' = 0 /\ wavSize s' = 0
    /\ (myWavBuffer s <> 0 ->
        myWavLen s' = 0 /\ myWavDevice s' = 0
        /\ sdl_devices (sdl s') !! myWavDevice s = None)
    /\ (myWavBuffer s = 0 -> myWavCvtBuffer s = 0 -> s' = s)
    /\ stopWav s' = (Ok tt, s').
Proof.
  unfold stopWav. unfold_monad.
  destruct (Z.eqb_spec (myWavBuffer s) 0) as [Hb | Hb];
    destruct (Z.eqb_spec (myWavCvtBuffer s) 0) as [Hc | Hc]; cbn [negb];
    (eexists; split; [reflexivity |]).
  all: unfold wavSize; cbn -[Z.eqb]; rewrite ?Hb, ?Hc; cbn.
  all: repeat split; auto; try contradiction.
  all: unfold SDL_CloseAudioDevice, sdl_log; cbn; try apply lookup_delete_eq.
Qed.
(** ** Opening the device *)

Lemma free_device_id_Some (w : SDL_State) (id : Z) :
  free_device_id w = Some id -> 2 <= id <= 16 /\ sdl_devices w !! id = None.
Proof.
  unfold free_device_id. intros Hfind.
  apply find_some in Hfind as [Hin Hfree].
  apply bool_decide_eq_true in Hfree.
  apply list_elem_of_In, elem_of_seqZ in Hin. split; [lia | exact Hfree].
Qed.

(** [SDL_OpenAudioDevice] logs the call; it returns 0 and leaves the
    devices alone, or returns the id of a device that was not open and is
    now open and paused. *)
Lemma SDL_OpenAudioDevice_run (device : option string) (desired : SDL_AudioSpec)
    (allowed : Z) (w : SDL_State) :
  sdl_calls (snd (SDL_OpenAudioDevice device desired allowed w))
  = Call_OpenAudioDevice device desired allowed :: sdl_calls w
  /\ ((fst (fst (SDL_OpenAudioDevice device desired allowed w)) = 0
       /\ sdl_devices (snd (SDL_OpenAudioDevice device desired allowed w)) = sdl_devices w)
      \/ (2 <= fst (fst (SDL_OpenAudioDevice device desired allowed w)) <= 16
          /\ sdl_devices (snd (SDL_OpenAudioDevice device desired allowed w))
             = <[fst (fst (SDL_OpenAudioDevice device desired allowed w)) := true]>
                 (sdl_devices w))).
Proof.
  unfold SDL_OpenAudioDevice.
  destruct (opened (host_open device desired allowed)).
  - destruct (free_device_id w) as [id |] eqn:Hfree; cbn.
    + split; [reflexivity |]. right.
      apply free_device_id_Some in Hfree. split; [lia | reflexivity].
    + split; [reflexivity |]. left. split; reflexivity.
  - cbn. split; [reflexivity |]. left. split; reflexivity.
Qed.

(** The configured device identifier, limited to the device list. *)
Lemma device_index_in_list (device : Z) (devices : list (string * Z)) :
  devices <> [] -> Z.of_nat (length devices) <= 2 ^ 32 -> 0 <= device ->
  clamp device 0 (uInt32 (Z.of_nat (length devices) - 1))
  = Z.min device (Z.of_nat (length devices) - 1)
  /\ is_Some (devices !! Z.to_nat (clamp device 0 (uInt32 (Z.of_nat (length devices) - 1)))).
Proof.
  intros Hne Hlen Hdev.
  assert (0 < Z.of_nat (length devices)) by (destruct devices; [contradiction | cbn; lia]).
  rewrite uInt32_small by lia. unfold clamp.
  destruct (Z.ltb_spec device 0); [lia |].
  destruct (Z.gtb_spec device (Z.of_nat (length devices) - 1));
    (split; [lia | apply lookup_lt_is_Some; lia]).
Qed.

(** What [openDevice] does on a device list that is not empty. *)
Lemma openDevice_run (s : Sound) :
  myDevices s <> [] -> Z.of_nat (length (myDevices s)) <= 2 ^ 32 ->
  0 <= AudioSettings.device (myAudioSettings s) ->
  exists (ok : bool) (s' : Sound) (name : option string),
    openDevice s = (Ok ok, s')
    /\ myIsInitializedFlag s' = ok
    /\ (ok = true <-> myDevice s' <> 0)
    /\ myDeviceId s'
       = Z.min (AudioSettings.device (myAudioSettings s))
               (Z.of_nat (length (myDevices s)) - 1)
    /\ name = (if myDeviceId s' =? 0 then None
               else fst <$> myDevices s !! Z.to_nat (myDeviceId s'))
    /\ sdl_calls (sdl s')
       = Call_OpenAudioDevice name
           {| freq := Int32 (AudioSettings.sampleRate (myAudioSettings s));
              format := AUDIO_F32SYS;
              channels := 2;
              silence := 0;
              samples := Uint16 (AudioSettings.fragmentSize (myAudioSettings s));
              callback_fn := Some cb_callback |}
           SDL_AUDIO_ALLOW_FREQUENCY_CHANGE
           :: (if myIsInitializedFlag s then [Call_CloseAudioDevice (myDevice s)] else [])
           ++ sdl_calls (sdl s)
    /\ (ok = true -> SDL_GetAudioDeviceStatus (sdl s') (myDevice s') = SDL_AUDIO_PAUSED).
Proof.
  intros Hne Hlen Hdev.
  destruct (device_index_in_list _ _ Hne Hlen Hdev) as [Hclamp [[name tag] Hlookup]].
  unfold openDevice, device_c_str, device_name.
  unfold bind, ret, gets, modify, when, throw, this, sdl_do. cbn -[clamp].
  destruct (myIsInitializedFlag s) eqn:Hinit; cbn -[clamp].
  all: destruct (clamp _ _ _ =? 0) eqn:Hzero; cbn -[clamp]; rewrite ?Hlookup; cbn -[clamp].
  all: match goal with
       | |- context [SDL_OpenAudioDevice ?a ?d ?al ?w] =>
           destruct (SDL_OpenAudioDevice_run a d al w) as [Hcalls Hopen];
           destruct (SDL_OpenAudioDevice a d al w) as [[id spec] w']
       end; cbn [fst snd] in *.
  all: destruct spec as [spec |]; cbn -[clamp].
  all: destruct (Z.eqb_spec id 0) as [Hid | Hid]; cbn -[clamp].
  all: eexists _, _, _; (split; [reflexivity |]); cbn -[clamp].
  all: split; [reflexivity |].
  all: split; [split; [try discriminate; intros _; exact Hid | try contradiction; reflexivity] |].
  all: split; [exact Hclamp |].
  all: rewrite Hzero, ?Hlookup.
  all: split; [reflexivity |].
  all: split; [exact Hcalls |].
  all: try discriminate.
  all: intros _; destruct Hopen as [[Hnone _] | [_ Hdevs]]; [contradiction |].
  all: unfold SDL_GetAudioDeviceStatus; rewrite Hdevs, lookup_insert_eq; reflexivity.
Qed.

(** X5.  [openDevice] on a device list that is not empty returns; its result is
    the initialized flag, which is set exactly when the device handle is
    not 0; the device identifier is the configured one limited to the last
    entry of the list; a device that was open is closed first; the device
    is then asked for by name (by no name for identifier 0) with the
    configured sample rate and fragment size, two channels and samples of
    type [float]; a device that was opened is paused. *)
Theorem openDevice_outcome (s : Sound) :
  myDevices s <> [] -> Z.of_nat (length (myDevices s)) <= 2 ^ 32 ->
  0 <= AudioSettings.device (myAudioSettings s) ->
  exists (ok : bool) (s' : Sound) (name : option string),
    openDevice s = (Ok ok, s')
    /\ myIsInitializedFlag s' = ok
    /\ (ok = true <-> myDevice s' <> 0)
    /\ myDeviceId s'
       = Z.min (AudioSettings.device (myAudioSettings s))
               (Z.of_nat (length (myDevices s)) - 1)
    /\ name = (if myDeviceId s' =? 0 then None
               else fst <$> myDevices s !! Z.to_nat (myDeviceId s'))
    /\ sdl_calls (sdl s')
       = Call_OpenAudioDevice name
           {| freq := Int32 (AudioSettings.sampleRate (myAudioSettings s));
              format := AUDIO_F32SYS;
              channels := 2;
              silence := 0;
              samples := Uint16 (AudioSettings.fragmentSize (myAudioSettings s));
              callback_fn := Some cb_callback |}
           SDL_AUDIO_ALLOW_FREQUENCY_CHANGE
           :: (if myIsInitializedFlag s then [Call_CloseAudioDevice (myDevice s)] else [])
           ++ sdl_calls (sdl s)
    /\ (ok = true -> SDL_GetAudioDeviceStatus (sdl s') (myDevice s') = SDL_AUDIO_PAUSED).
Proof. exact (openDevice_run s). Qed.
(** [openDevice] writes the SDL state, the device identifier, the handle,
    the negotiated format and the initialized flag, and nothing else. *)
Definition apart_from_device (P : Sound -> Prop) : Prop :=
  forall s, P s ->
    (forall f, P (s<|sdl ::= f|>))
    /\ (forall v, P (s<|myDeviceId := v|>))
    /\ (forall v, P (s<|myDevice := v|>))
    /\ (forall v, P (s<|myHardwareSpec := v|>))
    /\ (forall v, P (s<|myIsInitializedFlag := v|>)).

Lemma Preserves_openDevice (P : Sound -> Prop) :
  apart_from_device P -> Preserves P openDevice.
Proof.
  intros HP.
  assert (Hsdl : forall f, Preserves P (sdl_do f)).
  { intros f. apply Preserves_modify. intros s Hs. apply (HP s Hs). }
  unfold openDevice, device_c_str, device_name.
  apply Preserves_bind; [apply Preserves_gets | intros settings].
  apply Preserves_bind_this. intros s0.
  apply Preserves_bind; [apply Preserves_when, Hsdl | intros _].
  apply Preserves_bind;
    [apply Preserves_modify; intros s Hs; apply (HP s Hs) | intros _].
  apply Preserves_bind.
  { apply Preserves_bind; [apply Preserves_gets | intros id].
    destruct (id =? 0); [apply Preserves_ret |].
    apply Preserves_bind; [| intros name; apply Preserves_ret].
    apply Preserves_bind; [apply Preserves_gets | intros devices].
    destruct (devices !! Z.to_nat id) as [[name tag] |];
      [apply Preserves_ret | apply Preserves_throw]. }
  intros device.
  apply Preserves_bind; [apply Preserves_gets | intros w].
  apply Preserves_bind.
  { apply Preserves_modify. intros s Hs.
    apply (HP (s<|sdl := _|>)). apply (proj1 (HP s Hs)). }
  intros _. apply Preserves_bind.
  { destruct (snd (fst _)) as [spec |]; [| apply Preserves_ret].
    apply Preserves_modify. intros s Hs. apply (HP s Hs). }
  intros _. destruct (_ =? 0);
    (apply Preserves_bind; [| intros _; apply Preserves_ret]);
    apply Preserves_modify; intros s Hs; apply (HP s Hs).
Qed.

Lemma reopen_needed_true (s : Sound) :
  reopen_needed s = true <->
  AudioSettings.sampleRate (myAudioSettings s) <> uInt32 (freq (myHardwareSpec s))
  \/ AudioSettings.fragmentSize (myAudioSettings s) <> uInt32 (samples (myHardwareSpec s))
  \/ AudioSettings.device (myAudioSettings s) <> myDeviceId s.
Proof.
  unfold reopen_needed.
  rewrite !orb_true_iff, !negb_true_iff, !Z.eqb_neq. tauto.
Qed.

(** [about] returns when the device identifier names an entry of the
    device list and a queue is bound; it changes nothing. *)
Lemma about_run (s : Sound) (q : AudioQueue) :
  is_Some (myDevices s !! Z.to_nat (myDeviceId s)) -> myAudioQueue s = Some q ->
  exists text, about s = (Ok text, s).
Proof.
  intros [[name tag] Hlookup] Hq. unfold about, device_name, deref. unfold_monad.
  rewrite Hlookup, Hq. eexists. reflexivity.
Qed.

#[local] Arguments about : simpl never.

(** The resampler [initResampler] builds for a queue, a timing descriptor
    and the object's settings and negotiated format. *)
Definition resampler_for (q : AudioQueue) (timing : EmulationTiming) (s : Sound) :
    Resampler :=
  let formatFrom :=
    {| fmt_sampleRate := audioSampleRate timing;
       fmt_fragmentSize := queue_fragmentSize q;
       fmt_stereo := queue_isStereo q |} in
  let formatTo :=
    {| fmt_sampleRate := uInt32 (freq (myHardwareSpec s));
       fmt_fragmentSize := samples (myHardwareSpec s);
       fmt_stereo := channels (myHardwareSpec s) >? 1 |} in
  match AudioSettings.resamplingQuality (myAudioSettings s) with
  | nearestNeightbour => SimpleResampler formatFrom formatTo
  | lanczos_2 => LanczosResampler formatFrom formatTo 2
  | lanczos_3 => LanczosResampler formatFrom formatTo 3
  end.

(** Pausing or resuming a device keeps the set of open devices. *)
Lemma SDL_PauseAudioDevice_devices (dev pause_on d : Z) (w : SDL_State) :
  is_Some (sdl_devices (SDL_PauseAudioDevice dev pause_on w) !! d)
  <-> is_Some (sdl_devices w !! d).
Proof. unfold SDL_PauseAudioDevice, sdl_log. cbn. apply lookup_alter_is_Some. Qed.

Lemma SDL_PauseAudioDevice_open (dev : Z) (state : bool) (w : SDL_State) :
  is_Some (sdl_devices w !! dev) ->
  SDL_GetAudioDeviceStatus (SDL_PauseAudioDevice dev (if state then 1 else 0) w) dev
  = if state then SDL_AUDIO_PAUSED else SDL_AUDIO_PLAYING.
Proof.
  intros [b Hb]. rewrite SDL_PauseAudioDevice_status.
  destruct (decide (dev = dev)); [| contradiction].
  rewrite Hb. destruct state; reflexivity.
Qed.

(** [mute] writes the SDL state only; it keeps the set of open devices and
    leaves an open primary device paused or playing as asked. *)
Lemma mute_effect (state : bool) (s : Sound) :
  exists f,
    mute state s =
      (Ok match SDL_GetAudioDeviceStatus (sdl s) (myDevice s) with
          | SDL_AUDIO_PAUSED => true
          | _ => false
          end, s<|sdl ::= f|>)
    /\ (forall w d, is_Some (sdl_devices (f w) !! d) <-> is_Some (sdl_devices w !! d))
    /\ (myIsInitializedFlag s = true ->
        forall w, is_Some (sdl_devices w !! myDevice s) ->
        SDL_GetAudioDeviceStatus (f w) (myDevice s)
        = if state then SDL_AUDIO_PAUSED else SDL_AUDIO_PLAYING).
Proof.
  unfold mute. unfold_monad.
  destruct (myIsInitializedFlag s); destruct (negb (myWavDevice s =? 0)).
  - exists (fun w => SDL_PauseAudioDevice (myWavDevice s) (if state then 1 else 0)
                       (SDL_PauseAudioDevice (myDevice s) (if state then 1 else 0) w)).
    split; [reflexivity |]. split.
    + intros w d. rewrite !SDL_PauseAudioDevice_devices. reflexivity.
    + intros _ w Hopen. rewrite SDL_PauseAudioDevice_status.
      destruct (decide (myWavDevice s = myDevice s)) as [Heq | Hne].
      * rewrite Heq.
        apply (SDL_PauseAudioDevice_devices (myDevice s) (if state then 1 else 0)) in Hopen.
        destruct Hopen as [b Hb]. rewrite Hb. destruct state; reflexivity.
      * apply SDL_PauseAudioDevice_open. exact Hopen.
  - exists (SDL_PauseAudioDevice (myDevice s) (if state then 1 else 0)).
    split; [reflexivity |]. split.
    + intros w d. apply SDL_PauseAudioDevice_devices.
    + intros _ w Hopen. apply SDL_PauseAudioDevice_open. exact Hopen.
  - exists (SDL_PauseAudioDevice (myWavDevice s) (if state then 1 else 0)).
    split; [reflexivity |]. split.
    + intros w d. apply SDL_PauseAudioDevice_devices.
    + discriminate.
  - exists (fun w => w). split; [destruct s; reflexivity |]. split.
    + reflexivity.
    + discriminate.
Qed.

(** [setVolume] as one assignment. *)
Lemma setVolume_exact (percent : Z) (s : Sound) :
  setVolume percent s =
    (Ok tt,
     if myIsInitializedFlag s && (percent <=? 100)
     then s<|myAudioSettings ::= AudioSettings.setVolume percent|>
           <|myVolume := percent|>
           <|sdl ::= sdl_log (Call_LockAudioDevice (myDevice s))|>
           <|myVolumeFactor := fdiv (float_of_Z percent) (float_of_Z 100)|>
           <|myWavVolumeFactor :=
               if AudioSettings.enabled (myAudioSettings s)
               then fdiv (float_of_Z percent) (float_of_Z 100) else float_of_Z 0|>
           <|sdl ::= sdl_log (Call_UnlockAudioDevice (myDevice s))|>
     else s).
Proof.
  unfold setVolume. unfold_monad.
  destruct (myIsInitializedFlag s && (percent <=? 100)); reflexivity.
Qed.

(** [initResampler] with a timing descriptor and a queue bound. *)
Lemma initResampler_exact (s : Sound) (timing : EmulationTiming) (q : AudioQueue) :
  myEmulationTiming s = Some timing -> myAudioQueue s = Some q ->
  initResampler s = (Ok tt, s<|myResampler := Some (resampler_for q timing s)|>).
Proof.
  intros Ht Hq. unfold initResampler, deref. unfold_monad. rewrite Ht, Hq. reflexivity.
Qed.

(** What [open] does after the device has been looked after. *)
Lemma open_binds (audioQueue : AudioQueue) (emulationTiming : EmulationTiming)
    (rest : Member unit) (s1 : Sound) :
  rest = (modify (fun s => s<|myEmulationTiming := Some emulationTiming|>) ;;
          modify (fun s => s<|myWavSpeed :=
            ddiv (double_of_Z (262 * 60 * 2))
                 (double_of_Z (audioSampleRate emulationTiming))|>) ;;
          mute true ;;
          settings <- gets myAudioSettings ;;
          let audioQueue :=
            queue_ignoreOverflows (negb (AudioSettings.enabled settings)) audioQueue in
          if negb (AudioSettings.enabled settings) then ret tt
          else
            modify (fun s => s<|myAudioQueue := Some audioQueue|>) ;;
            modify (fun s => s<|myUnderrun := true|>) ;;
            modify (fun s => s<|myCurrentFragment := None|>) ;;
            setVolume (AudioSettings.volume settings) ;;
            initResampler ;;
            text <- about ;;
            modify (fun s => s<|myAboutString := text|>) ;;
            muteState <- gets myMuteState ;;
            mute muteState ;;
            ret tt)%cxx ->
  is_Some (myDevices s1 !! Z.to_nat (myDeviceId s1)) ->
  exists s', rest s1 = (Ok tt, s')
    /\ myEmulationTiming s' = Some emulationTiming
    /\ myWavSpeed s' = ddiv (double_of_Z (262 * 60 * 2))
                            (double_of_Z (audioSampleRate emulationTiming))
    /\ AudioSettings.enabled (myAudioSettings s') = AudioSettings.enabled (myAudioSettings s1)
    /\ myHardwareSpec s' = myHardwareSpec s1
    /\ myDevice s' = myDevice s1
    /\ myIsInitializedFlag s' = myIsInitializedFlag s1
    /\ (AudioSettings.enabled (myAudioSettings s1) = false ->
        myAudioQueue s' = myAudioQueue s1 /\ myResampler s' = myResampler s1
        /\ myCurrentFragment s' = myCurrentFragment s1 /\ myUnderrun s' = myUnderrun s1)
    /\ (AudioSettings.enabled (myAudioSettings s1) = true ->
        myAudioQueue s' = Some (queue_ignoreOverflows false audioQueue)
        /\ myUnderrun s' = true /\ myCurrentFragment s' = None
        /\ myResampler s'
           = Some (resampler_for (queue_ignoreOverflows false audioQueue)
                                 emulationTiming s'))
    /\ (myIsInitializedFlag s1 = true ->
        is_Some (sdl_devices (sdl s1) !! myDevice s1) ->
        SDL_GetAudioDeviceStatus (sdl s') (myDevice s')
        = if AudioSettings.enabled (myAudioSettings s1) && negb (myMuteState s1)
          then SDL_AUDIO_PLAYING else SDL_AUDIO_PAUSED).
Proof.
  intros -> Hlookup.
  do 2 exec.
  match goal with
  | |- context [bind (mute true) _ ?st] =>
      destruct (mute_effect true st) as (f & Hmute & Hfdev & Hfstatus)
  end.
  rewrite (bind_run _ _ _ _ _ Hmute). clear Hmute. members_in Hfstatus.
  exec. members.
  destruct (AudioSettings.enabled (myAudioSettings s1)) eqn:Henabled; cbn [negb andb].
  2: { unfold ret. eexists. split; [reflexivity |]. members.
       rewrite Henabled.
       repeat match goal with |- _ /\ _ => split end; try reflexivity; try discriminate.
       - intros _. repeat split.
       - intros Hinit Hopen. apply Hfstatus; assumption. }
  do 3 exec.
  match goal with
  | |- context [bind (setVolume ?p) _ ?st] =>
      rewrite (bind_run _ _ _ _ _ (setVolume_exact p st))
  end.
  members.
  match goal with
  | |- context [if ?c then _ else _] => destruct c
  end.
  all: match goal with
       | |- context [bind initResampler _ ?st] =>
           rewrite (bind_run _ _ _ _ _
                      (initResampler_exact st emulationTiming
                         (queue_ignoreOverflows false audioQueue) eq_refl eq_refl))
       end.
  all: match goal with
       | |- context [bind about _ ?st] =>
           destruct (about_run st (queue_ignoreOverflows false audioQueue) Hlookup eq_refl)
             as [text Habout]; rewrite (bind_run _ _ _ _ _ Habout); clear Habout
       end.
  all: do 2 exec.
  all: match goal with
       | |- context [bind (mute ?b) _ ?st] =>
           destruct (mute_effect b st) as (g & Hmute & Hgdev & Hgstatus);
           rewrite (bind_run _ _ _ _ _ Hmute); clear Hmute; members_in Hgstatus
       end.
  all: unfold ret; eexists; (split; [reflexivity |]).
  all: members; unfold resampler_for; members; rewrite ?Henabled.
  all: repeat match goal with |- _ /\ _ => split end; try reflexivity; try discriminate.
  all: try match goal with |- true = true -> _ => intros _; repeat split end.
  all: intros Hinit Hopen; rewrite Hgstatus;
    [destruct (myMuteState s1); reflexivity | exact Hinit |].
  all: unfold sdl_log; members; cbn [sdl_devices set_sdl_calls]; apply Hfdev; exact Hopen.
Qed.

(** A device that is paused or playing is open. *)
Lemma status_is_open (w : SDL_State) (dev : Z) :
  SDL_GetAudioDeviceStatus w dev <> SDL_AUDIO_STOPPED -> is_Some (sdl_devices w !! dev).
Proof.
  unfold SDL_GetAudioDeviceStatus.
  destruct (sdl_devices w !! dev); [eauto | contradiction].
Qed.

(** What [open] does when the configured device is in the device list. *)
Lemma open_run (audioQueue : AudioQueue) (emulationTiming : EmulationTiming)
    (s : Sound) :
  0 <= AudioSettings.device (myAudioSettings s) < Z.of_nat (length (myDevices s)) ->
  Z.of_nat (length (myDevices s)) <= 2 ^ 32 ->
  (myIsInitializedFlag s = true -> is_Some (sdl_devices (sdl s) !! myDevice s)) ->
  exists s', open audioQueue emulationTiming s = (Ok tt, s')
    /\ myEmulationTiming s' = Some emulationTiming
    /\ myWavSpeed s' = ddiv (double_of_Z (262 * 60 * 2))
                            (double_of_Z (audioSampleRate emulationTiming))
    /\ AudioSettings.enabled (myAudioSettings s') = AudioSettings.enabled (myAudioSettings s)
    /\ (AudioSettings.enabled (myAudioSettings s) = false ->
        myAudioQueue s' = myAudioQueue s /\ myResampler s' = myResampler s
        /\ myCurrentFragment s' = myCurrentFragment s /\ myUnderrun s' = myUnderrun s)
    /\ (AudioSettings.enabled (myAudioSettings s) = true ->
        myAudioQueue s' = Some (queue_ignoreOverflows false audioQueue)
        /\ myUnderrun s' = true /\ myCurrentFragment s' = None
        /\ myResampler s'
           = Some (resampler_for (queue_ignoreOverflows false audioQueue)
                                 emulationTiming s'))
    /\ (myIsInitializedFlag s' = true ->
        SDL_GetAudioDeviceStatus (sdl s') (myDevice s')
        = if AudioSettings.enabled (myAudioSettings s) && negb (myMuteState s)
          then SDL_AUDIO_PLAYING else SDL_AUDIO_PAUSED).
Proof.
  intros Hcfg Hlen Hopen.
  unfold open.
  match goal with
  | |- context [bind (when _ _) (fun _ => ?k)] => set (rest := k)
  end.
  pose proof (fun s1 => open_binds audioQueue emulationTiming rest s1 eq_refl) as Hrest.
  clearbody rest. exec.
  destruct (reopen_needed s) eqn:Hcond.
  - assert (Hne : myDevices s <> []).
    { destruct (myDevices s); [cbn in Hcfg; lia | discriminate]. }
    destruct (openDevice_run s Hne Hlen)
      as (ok & s1 & name & Hrun & Hflag & _ & Hid & _ & _ & Hpaused); [lia |].
    pose proof (Preserves_openDevice
      (fun x => myDevices x = myDevices s /\ myAudioSettings x = myAudioSettings s
                /\ myAudioQueue x = myAudioQueue s /\ myResampler x = myResampler s
                /\ myCurrentFragment x = myCurrentFragment s
                /\ myUnderrun x = myUnderrun s /\ myMuteState x = myMuteState s))
      as Hframe.
    specialize (Hframe
      ltac:(intros x Hx; (split; [| split; [| split; [| split]]]); intros; exact Hx) s
      ltac:(repeat split; reflexivity)).
    rewrite Hrun in Hframe. cbn [snd] in Hframe.
    destruct Hframe as (Hdevices & Hsettings & Hq & Hr & Hf & Hu & Hm).
    rewrite when_true. exec. rewrite (bind_run _ _ _ _ _ Hrun). exec.
    destruct (Hrest s1)
      as (s' & Hrun' & Ht & Hv & He & _ & _ & Hflag' & Hoff & Hon & Hstatus).
    { rewrite Hdevices, Hid. apply lookup_lt_is_Some. lia. }
    exists s'. split; [exact Hrun' |]. split; [exact Ht |]. split; [exact Hv |].
    rewrite Hsettings in He, Hoff, Hon, Hstatus. rewrite Hq, Hr, Hf, Hu in Hoff.
    rewrite Hm in Hstatus.
    split; [exact He |]. split; [exact Hoff |]. split; [exact Hon |].
    intros Hinit. rewrite Hflag', Hflag in Hinit. apply Hstatus.
    + rewrite Hflag. exact Hinit.
    + apply status_is_open. rewrite (Hpaused Hinit). discriminate.
  - rewrite when_false. exec.
    destruct (Hrest s)
      as (s' & Hrun' & Ht & Hv & He & _ & _ & Hflag' & Hoff & Hon & Hstatus).
    { apply reopen_needed_false in Hcond as (_ & _ & <-).
      apply lookup_lt_is_Some. lia. }
    exists s'. repeat (split; [assumption |]).
    intros Hinit. rewrite Hflag' in Hinit. auto.
Qed.

(** X6.  [open] with the configured device in the device list returns.  It
    binds the timing descriptor and sets the overlay's speed to 31440 Hz
    over the emulation's sample rate.  With sound disabled it leaves the
    queue, the resampler, the current fragment and the underrun flag as
    they were: the queue handed in is not bound.  With sound enabled it
    binds the queue with overflows reported, starts in underrun without a
    current fragment, and builds the resampler from the queue's and the
    timing's format to the format the device negotiated.  A device that is
    initialized afterwards plays when sound is enabled and the remembered
    mute state is off, and is paused otherwise. *)
Theorem open_outcome (audioQueue : AudioQueue) (emulationTiming : EmulationTiming)
    (s : Sound) :
  0 <= AudioSettings.device (myAudioSettings s) < Z.of_nat (length (myDevices s)) ->
  Z.of_nat (length (myDevices s)) <= 2 ^ 32 ->
  (myIsInitializedFlag s = true -> is_Some (sdl_devices (sdl s) !! myDevice s)) ->
  exists s', open audioQueue emulationTiming s = (Ok tt, s')
    /\ myEmulationTiming s' = Some emulationTiming
    /\ myWavSpeed s' = ddiv (double_of_Z (262 * 60 * 2))
                            (double_of_Z (audioSampleRate emulationTiming))
    /\ AudioSettings.enabled (myAudioSettings s') = AudioSettings.enabled (myAudioSettings s)
    /\ (AudioSettings.enabled (myAudioSettings s) = false ->
        myAudioQueue s' = myAudioQueue s /\ myResampler s' = myResampler s
        /\ myCurrentFragment s' = myCurrentFragment s /\ myUnderrun s' = myUnderrun s)
    /\ (AudioSettings.enabled (myAudioSettings s) = true ->
        myAudioQueue s' = Some (queue_ignoreOverflows false audioQueue)
        /\ myUnderrun s' = true /\ myCurrentFragment s' = None
        /\ myResampler s'
           = Some (resampler_for (queue_ignoreOverflows false audioQueue)
                                 emulationTiming s'))
    /\ (myIsInitializedFlag s' = true ->
        SDL_GetAudioDeviceStatus (sdl s') (myDevice s')
        = if AudioSettings.enabled (myAudioSettings s) && negb (myMuteState s)
          then SDL_AUDIO_PLAYING else SDL_AUDIO_PAUSED).
Proof. exact (open_run audioQueue emulationTiming s). Qed.


Create HintDb device_calls.

#[local] Hint Resolve Keeps_ret Keeps_throw Keeps_gets Keeps_bind Keeps_when
  Keeps_deref Keeps_mute Keeps_setVolume Keeps_initResampler Keeps_about : device_calls.
#[local] Hint Extern 2 (Keeps (modify _)) =>
  apply Keeps_modify; intros ?; cbn; auto : device_calls.
#[local] Hint Extern 3 (Keeps (match ?x with _ => _ end)) => destruct x : device_calls.

(** X7.  The converse of the re-open rule: when the configured sample rate,
    fragment size or device identifier differs from the device at hand,
    [open] closes the device (if one was open) and asks SDL for a device
    once, with the configured values; no other call of [open] opens or
    closes a device. *)
Theorem open_reopens_on_change (audioQueue : AudioQueue)
    (emulationTiming : EmulationTiming) (s : Sound) :
  myDevices s <> [] -> Z.of_nat (length (myDevices s)) <= 2 ^ 32 ->
  0 <= AudioSettings.device (myAudioSettings s) ->
  AudioSettings.sampleRate (myAudioSettings s) <> uInt32 (freq (myHardwareSpec s))
  \/ AudioSettings.fragmentSize (myAudioSettings s) <> uInt32 (samples (myHardwareSpec s))
  \/ AudioSettings.device (myAudioSettings s) <> myDeviceId s ->
  exists name calls,
    sdl_calls (sdl (snd (open audioQueue emulationTiming s)))
    = (calls
      ++ Call_OpenAudioDevice name
           {| freq := Int32 (AudioSettings.sampleRate (myAudioSettings s));
              format := AUDIO_F32SYS;
              channels := 2;
              silence := 0;
              samples := Uint16 (AudioSettings.fragmentSize (myAudioSettings s));
              callback_fn := Some cb_callback |}
           SDL_AUDIO_ALLOW_FREQUENCY_CHANGE
         :: (if myIsInitializedFlag s then [Call_CloseAudioDevice (myDevice s)] else [])
         ++ sdl_calls (sdl s))%list
    /\ Forall (fun c => opens_or_closes c = false) calls.
Proof.
  intros Hne Hlen Hdev Hdiff. apply reopen_needed_true in Hdiff.
  destruct (openDevice_run s Hne Hlen Hdev)
    as (ok & s1 & name & Hrun & _ & _ & _ & _ & Hcalls & _).
  unfold open. exec. rewrite Hdiff, when_true. exec.
  rewrite (bind_run _ _ _ _ _ Hrun). exec.
  match goal with
  | |- context [snd (?m s1)] => assert (Hk : Keeps m) by auto 30 with device_calls
  end.
  destruct (Hk s1) as (_ & _ & calls & Hafter & Hnone).
  exists name, calls. split; [| exact Hnone].
  rewrite Hafter, Hcalls. reflexivity.
Qed.
(** ** Closing the sound, and opening it again *)

(** [close] on an initialized device, as assignments. *)
Lemma close_exact (s : Sound) :
  myIsInitializedFlag s = true ->
  exists f,
    close s =
      (Ok tt,
       s<|sdl ::= f|>
        <|myMuteState := match SDL_GetAudioDeviceStatus (sdl s) (myDevice s) with
                         | SDL_AUDIO_PAUSED => true
                         | _ => false
                         end|>
        <|myAudioQueue ::= fmap (queue_closeSink (myCurrentFragment s))|>
        <|myAudioQueue := None|>
        <|myCurrentFragment := None|>)
    /\ (forall w d, is_Some (sdl_devices (f w) !! d) <-> is_Some (sdl_devices w !! d))
    /\ (forall w, is_Some (sdl_devices w !! myDevice s) ->
        SDL_GetAudioDeviceStatus (f w) (myDevice s) = SDL_AUDIO_PAUSED).
Proof.
  intros Hinit. unfold close. exec. rewrite Hinit, when_true.
  destruct (mute_effect true s) as (f & Hmute & Hfdev & Hfstatus).
  exists f. split; [| split; [exact Hfdev | exact (Hfstatus Hinit)]].
  rewrite (bind_run _ _ _ _ _ Hmute). do 3 exec. members.
  unfold modify. reflexivity.
Qed.

(** X8.  [close] does nothing on a device that is not initialized.  On one that
    is, it returns with no queue bound and no current fragment, it
    remembers in the mute state whether the device was paused and leaves
    the device paused; every callback from then on writes silence and
    changes nothing. *)
Theorem close_detaches (s : Sound) :
  (myIsInitializedFlag s = false -> close s = (Ok tt, s))
  /\ (myIsInitializedFlag s = true ->
      exists s', close s = (Ok tt, s')
        /\ myAudioQueue s' = None /\ myCurrentFragment s' = None
        /\ myMuteState s' = match SDL_GetAudioDeviceStatus (sdl s) (myDevice s) with
                            | SDL_AUDIO_PAUSED => true
                            | _ => false
                            end
        /\ (is_Some (sdl_devices (sdl s) !! myDevice s) ->
            SDL_GetAudioDeviceStatus (sdl s') (myDevice s') = SDL_AUDIO_PAUSED)
        /\ forall stream len,
             callback stream len s' = (Ok (memset_zero stream len), s')).
Proof.
  split.
  - intros Hinit. unfold close. exec. rewrite Hinit. reflexivity.
  - intros Hinit. destruct (close_exact s Hinit) as (f & Hclose & _ & Hpaused).
    eexists. split; [exact Hclose |]. members.
    split; [reflexivity |]. split; [reflexivity |]. split; [reflexivity |].
    split; [exact (Hpaused (sdl s)) |].
    intros stream len. unfold callback. exec. members. reflexivity.
Qed.

(** X9.  [close] remembers the device's state for [open]: with sound enabled
    and the configured device in the list, closing and opening again
    returns with the new queue bound, and a device that is initialized
    afterwards is paused if it was paused before [close] and plays if it
    was playing. *)
Theorem close_then_open_resumes (audioQueue : AudioQueue)
    (emulationTiming : EmulationTiming) (s : Sound) :
  myIsInitializedFlag s = true ->
  is_Some (sdl_devices (sdl s) !! myDevice s) ->
  AudioSettings.enabled (myAudioSettings s) = true ->
  0 <= AudioSettings.device (myAudioSettings s) < Z.of_nat (length (myDevices s)) ->
  Z.of_nat (length (myDevices s)) <= 2 ^ 32 ->
  exists s', open audioQueue emulationTiming (snd (close s)) = (Ok tt, s')
    /\ myAudioQueue s' = Some (queue_ignoreOverflows false audioQueue)
    /\ (myIsInitializedFlag s' = true ->
        SDL_GetAudioDeviceStatus (sdl s') (myDevice s')
        = SDL_GetAudioDeviceStatus (sdl s) (myDevice s)).
Proof.
  intros Hinit Hopen Henabled Hcfg Hlen.
  destruct (close_exact s Hinit) as (f & Hclose & Hfdev & _).
  rewrite Hclose. cbn [snd].
  match goal with
  | |- context [open _ _ ?st] =>
      destruct (open_run audioQueue emulationTiming st)
        as (s' & Hrun & _ & _ & _ & _ & Hon & Hstatus)
  end.
  - exact Hcfg.
  - exact Hlen.
  - intros _. members. apply Hfdev. exact Hopen.
  - exists s'. split; [exact Hrun |]. split; [apply (Hon Henabled) |].
    intros Hinit'. rewrite (Hstatus Hinit'). members. rewrite Henabled.
    destruct Hopen as [b Hb]. unfold SDL_GetAudioDeviceStatus. rewrite Hb.
    destruct b; reflexivity.
Qed.
(** ** Construction and destruction *)

Lemma queryHardware_length (devices : list (string * Z)) :
  length (queryHardware devices) = (length devices + 1 + length host_device_names)%nat.
Proof.
  unfold queryHardware. rewrite length_app. cbn [length]. rewrite length_imap. lia.
Qed.

(** X10.  [queryHardware] appends to the list it is given: first the entry of
    the default device with tag 0, then the devices SDL names, in SDL's
    order, each tagged with its SDL index plus one.  On an empty list the
    tag of every entry is therefore its index in the list, which is how
    [openDevice] looks a device identifier up. *)
Theorem queryHardware_layout (devices : list (string * Z)) (k : nat) :
  length (queryHardware devices) = (length devices + 1 + length host_device_names)%nat
  /\ (k < length devices -> queryHardware devices !! k = devices !! k)%nat
  /\ queryHardware devices !! length devices = Some ("Default", 0)
  /\ queryHardware devices !! (length devices + S k)%nat
     = (fun name => (name, Z.of_nat k + 1)) <$> host_device_names !! k.
Proof.
  split; [| unfold queryHardware; split; [| split]].
  - apply queryHardware_length.
  - intros Hk. apply lookup_app_l. exact Hk.
  - rewrite lookup_app_r by lia. rewrite Nat.sub_diag. reflexivity.
  - rewrite lookup_app_r by lia.
    replace (length devices + S k - length devices)%nat with (S k) by lia.
    rewrite lookup_cons, list_lookup_imap.
    destruct (host_device_names !! k); reflexivity.
Qed.

(** X11.  The constructor returns.  When the audio subsystem cannot be
    initialized it leaves the object alone.  Otherwise it fills the device
    list and tries to open the configured device; when that succeeds the
    device is paused, the mute state is the opposite of the enabled
    setting and the overlay's volume factor follows the volume factor;
    when it fails the object stays uninitialized with a null handle. *)
Theorem SoundSDL2_ctor_outcome (s0 : Sound) :
  0 <= AudioSettings.device (myAudioSettings s0) ->
  Z.of_nat (length (myDevices s0) + 1 + length host_device_names) <= 2 ^ 32 ->
  (host_init_audio = false -> SoundSDL2_ctor s0 = (Ok tt, s0))
  /\ (host_init_audio = true ->
      exists s', SoundSDL2_ctor s0 = (Ok tt, s')
        /\ myDevices s' = queryHardware (myDevices s0)
        /\ myAudioSettings s' = myAudioSettings s0
        /\ (myIsInitializedFlag s' = true <-> myDevice s' <> 0)
        /\ (myIsInitializedFlag s' = true ->
            SDL_GetAudioDeviceStatus (sdl s') (myDevice s') = SDL_AUDIO_PAUSED
            /\ myMuteState s' = negb (AudioSettings.enabled (myAudioSettings s0))
            /\ wav_volume_tracks s')).
Proof.
  intros Hdev Hlen. unfold SoundSDL2_ctor. split; intros Hinit; rewrite Hinit; cbn [negb].
  - reflexivity.
  - do 2 exec.
    match goal with
    | |- context [bind openDevice _ ?st] =>
        destruct (openDevice_run st)
          as (ok & s1 & name & Hrun & Hflag & Hhandle & _ & _ & _ & Hpaused);
        [| | | pose proof (Preserves_openDevice
                 (fun x => myDevices x = myDevices st
                           /\ myAudioSettings x = myAudioSettings st
                           /\ myVolumeFactor x = myVolumeFactor st)
                 ltac:(intros x Hx; (split; [| split; [| split; [| split]]]);
                       intros; exact Hx)
                 st ltac:(repeat split; reflexivity)) as Hframe]
    end.
    + members. unfold queryHardware. destruct (myDevices s0); discriminate.
    + members. rewrite queryHardware_length. exact Hlen.
    + exact Hdev.
    + rewrite Hrun in Hframe. cbn [snd] in Hframe. members_in Hframe.
      destruct Hframe as (Hdevices & Hsettings & Hfactor).
      rewrite (bind_run _ _ _ _ _ Hrun).
      destruct ok; cbn [negb].
      * destruct (mute_effect true s1) as (f & Hmute & Hfdev & Hfstatus).
        rewrite (bind_run _ _ _ _ _ Hmute). exec. unfold modify.
        eexists. split; [reflexivity |]. unfold wav_volume_tracks. members.
        rewrite Hsettings.
        split; [exact Hdevices |]. split; [reflexivity |].
        split; [rewrite Hflag; exact Hhandle |].
        intros _. split; [| split; [reflexivity |]].
        -- apply (Hfstatus Hflag). apply status_is_open.
           rewrite (Hpaused eq_refl). discriminate.
        -- destruct (AudioSettings.enabled (myAudioSettings s0)); reflexivity.
      * unfold ret. exists s1. split; [reflexivity |].
        split; [exact Hdevices |]. split; [exact Hsettings |].
        split; [rewrite Hflag; exact Hhandle |].
        rewrite Hflag. discriminate.
Qed.

(** ** What holds of the volume across any sequence of calls *)

Section VolumeInvariant.

(** A predicate that reads the volume members only and that [setVolume]
    and [setEnabled] keep. *)
Variable P : Sound -> Prop.
Hypothesis P_view : forall s s', volume_view s' = volume_view s -> P s -> P s'.
Hypothesis P_setVolume : forall percent, Preserves P (setVolume percent).
Hypothesis P_setEnabled : forall enable, Preserves P (setEnabled enable).
Context `{!ResamplerLawful Resampler}.

Lemma P_modify (f : Sound -> Sound) :
  (forall s, volume_view (f s) = volume_view s) -> Preserves P (modify f).
Proof. intros Hf. apply Preserves_modify. intros s. apply P_view, Hf. Qed.

Lemma P_sdl_do (f : SDL_State -> SDL_State) : Preserves P (sdl_do f).
Proof. apply P_modify. reflexivity. Qed.

#[local] Hint Resolve P_sdl_do P_setVolume P_setEnabled : preserves.
#[local] Hint Extern 1 (Preserves _ (modify _)) =>
  apply P_modify; intros ?; reflexivity : preserves.

Lemma P_apart_from_device : apart_from_device P.
Proof.
  intros s Hs. repeat split; intros; (eapply P_view; [| exact Hs]); reflexivity.
Qed.

Lemma P_apart_from_overlay_cursor : apart_from_overlay_cursor P.
Proof.
  intros s Hs. repeat split; intros; (eapply P_view; [| exact Hs]); reflexivity.
Qed.

Lemma P_mute (state : bool) : Preserves P (mute state).
Proof. unfold mute. preserves. Qed.

Lemma P_initResampler : Preserves P initResampler.
Proof. unfold initResampler. preserves. Qed.

Lemma P_about : Preserves P about.
Proof. unfold about, device_name. preserves. Qed.

Lemma P_open (audioQueue : AudioQueue) (emulationTiming : EmulationTiming) :
  Preserves P (open audioQueue emulationTiming).
Proof.
  pose proof (Preserves_openDevice P P_apart_from_device).
  pose proof P_mute. pose proof P_initResampler. pose proof P_about.
  unfold open. preserves.
Qed.

Lemma P_close : Preserves P close.
Proof. pose proof P_mute. unfold close. preserves. Qed.

Lemma P_toggleMute (console : Member unit) :
  Preserves P console -> Preserves P (toggleMute console).
Proof.
  intros Hconsole. pose proof P_mute. unfold toggleMute, showTextMessage. preserves.
Qed.

Lemma P_adjustVolume (console : Member unit) (direction : Z) :
  Preserves P console -> Preserves P (adjustVolume console direction).
Proof.
  intros Hconsole. pose proof P_mute.
  unfold adjustVolume, showGaugeMessage. preserves.
Qed.

Lemma P_nextFragmentCallback : Preserves P nextFragmentCallback.
Proof. unfold nextFragmentCallback, dequeue. preserves. Qed.

Lemma P_callback (stream : list float) (len : Z) : Preserves P (callback stream len).
Proof.
  assert (Hfill : forall stream len r,
            Preserves P (fillFragment nextFragmentCallback stream len r)).
  { intros stream' len' r s Hs.
    apply (fillFragment_keeps Sound P); [apply P_nextFragmentCallback | exact Hs]. }
  unfold callback, processFragment. preserves.
Qed.

Lemma P_playWav (fileName : string) (position len : Z) :
  Preserves P (playWav fileName position len).
Proof.
  unfold playWav, playWav_load, SDL_LoadWAV, playWav_device, device_c_str, device_name.
  preserves.
Qed.

Lemma P_stopWav : Preserves P stopWav.
Proof. unfold stopWav. preserves. Qed.

Lemma P_wavCallback (len : Z) : Preserves P (wavCallback len).
Proof. apply Preserves_wavCallback, P_apart_from_overlay_cursor. Qed.

(** Calls in turn keep what each of them keeps. *)
Lemma P_in_turn (run : Operation -> Member unit) (ops : list Operation) :
  Forall (fun o => Preserves P (run o)) ops -> Preserves P (in_turn run ops).
Proof.
  induction 1 as [| o ops Ho _ IH]; cbn [in_turn].
  - apply Preserves_ret.
  - apply Preserves_bind; [exact Ho | intros _; exact IH].
Qed.

Lemma P_run : forall o : Operation, Preserves P (run o).
Proof.
  pose proof P_mute. pose proof P_callback. pose proof P_playWav.
  fix IH 1. intros o.
  assert (Hconsole : forall console : list Operation,
            (forall o', In o' console -> Preserves P (run o')) ->
            Preserves P (in_turn run console)).
  { intros console Hall. apply P_in_turn, Forall_forall.
    intros o' Hin. apply Hall, list_elem_of_In, Hin. }
  destruct o as [q t | | e | b | console | p | d console | stream len | f p l | | len];
    cbn [run].
  - apply P_open.
  - apply P_close.
  - apply P_setEnabled.
  - preserves.
  - apply Preserves_bind; [| intros _; apply Preserves_ret].
    apply P_toggleMute, Hconsole.
    induction console as [| o' console IHc]; intros o'' Hin.
    + destruct Hin.
    + destruct Hin as [<- | Hin]; [apply IH | apply IHc, Hin].
  - apply P_setVolume.
  - apply P_adjustVolume, Hconsole.
    induction console as [| o' console IHc]; intros o'' Hin.
    + destruct Hin.
    + destruct Hin as [<- | Hin]; [apply IH | apply IHc, Hin].
  - preserves.
  - preserves.
  - apply P_stopWav.
  - apply P_wavCallback.
Qed.

Lemma P_perform (o : Operation) (s : Sound) : P s -> P (perform o s).
Proof. apply P_run. Qed.

Lemma P_perform_all (ops : list Operation) (s : Sound) : P s -> P (perform_all ops s).
Proof.
  unfold perform_all. revert s.
  induction ops as [| o ops IH]; intros s Hs; cbn [fold_left].
  - exact Hs.
  - apply IH, P_perform, Hs.
Qed.

End VolumeInvariant.
(** [setEnabled] as one assignment. *)
Lemma setEnabled_exact (enable : bool) (s : Sound) :
  setEnabled enable s =
    (Ok tt,
     s<|myAudioSettings ::= AudioSettings.setEnabled enable|>
      <|myAudioQueue ::= fmap (queue_ignoreOverflows (negb enable))|>
      <|myMuteState := negb enable|>
      <|myWavVolumeFactor := if negb enable then float_of_Z 0 else myVolumeFactor s|>).
Proof. reflexivity. Qed.

(** X13.  Whatever the calls made on the object (by a client, by SDL or by the
    console in answer to [toggleMute] and [adjustVolume]), in whatever
    order and whether they return or throw, the overlay's volume factor
    follows the enabled setting: it is the volume factor while sound is
    enabled and zero while it is disabled, so a muted engine mixes the
    overlay at volume zero.  [setEnabled] makes this hold from any state. *)
Theorem overlay_volume_follows_enabled {lawful : ResamplerLawful Resampler}
    (ops : list Operation) (s : Sound) :
  (wav_volume_tracks s -> wav_volume_tracks (perform_all ops s))
  /\ forall enable, wav_volume_tracks (perform_all ops (snd (setEnabled enable s))).
Proof.
  assert (Hset : forall enable (s0 : Sound), wav_volume_tracks (snd (setEnabled enable s0))).
  { intros enable s0. rewrite setEnabled_exact. unfold wav_volume_tracks.
    cbn [snd]. members. destruct enable; reflexivity. }
  assert (Hall : forall s0 : Sound, wav_volume_tracks s0 -> wav_volume_tracks (perform_all ops s0)).
  { apply P_perform_all.
    - unfold wav_volume_tracks, volume_view. intros s1 s2 Hview Hs1.
      injection Hview as _ -> -> ->. exact Hs1.
    - intros percent s0 Hs0. rewrite setVolume_exact. cbn [snd].
      destruct (myIsInitializedFlag s0 && (percent <=? 100)) eqn:Hact.
      + unfold wav_volume_tracks. members. reflexivity.
      + exact Hs0.
    - intros enable s0 _. apply Hset.
    - assumption. }
  split; [apply Hall |]. intros enable. apply Hall, Hset.
Qed.

(** X14.  Across any sequence of calls the stored percentage stays at most 100
    and the volume factor stays that percentage over 100; a call of
    [setVolume] on an initialized device with a percentage of at most 100
    makes this hold from any state. *)
Theorem volume_stays_in_range {lawful : ResamplerLawful Resampler}
    (ops : list Operation) (s : Sound) :
  (volume_in_range s -> volume_in_range (perform_all ops s))
  /\ forall percent, myIsInitializedFlag s = true -> percent <= 100 ->
       volume_in_range (perform_all ops (snd (setVolume percent s))).
Proof.
  assert (Hall : forall s0 : Sound, volume_in_range s0 -> volume_in_range (perform_all ops s0)).
  { apply P_perform_all.
    - unfold volume_in_range, volume_view. intros s1 s2 Hview Hs1.
      injection Hview as -> -> _ _. exact Hs1.
    - intros percent s0 Hs0. rewrite setVolume_exact. cbn [snd].
      destruct (myIsInitializedFlag s0) eqn:Hinit; cbn [andb]; [| exact Hs0].
      destruct (Z.leb_spec percent 100); [| exact Hs0].
      unfold volume_in_range. members. split; [assumption | reflexivity].
    - intros enable s0 Hs0. rewrite setEnabled_exact. exact Hs0.
    - assumption. }
  split; [apply Hall |]. intros percent Hinit Hle. apply Hall.
  rewrite setVolume_exact, Hinit. cbn [snd andb].
  destruct (Z.leb_spec percent 100); [| lia].
  unfold volume_in_range. members. split; [assumption | reflexivity].
Qed.
(** ** Volume steps and the mute toggle *)

Lemma clamp_spec (val lower upper : Z) :
  lower <= upper -> clamp val lower upper = Z.max lower (Z.min upper val).
Proof.
  intros Hle. unfold clamp.
  destruct (Z.ltb_spec val lower); [lia |].
  destruct (Z.gtb_spec val upper); lia.
Qed.

(** X15.  While sound is enabled, [adjustVolume(direction)] on an initialized
    device moves the volume by two percent a step and stops at 0 and at
    100: the percentage stored in the object and in the settings is
    [max(0, min(100, volume + 2 * direction))], the volume factor is that
    over 100, the console is not called, and the gauge shows the
    percentage, or "Off" at zero. *)
Theorem adjustVolume_steps (console : Member unit) (direction : Z) (s : Sound) :
  myIsInitializedFlag s = true ->
  AudioSettings.enabled (myAudioSettings s) = true ->
  0 <= myVolume s <= 100 -> - 2 ^ 29 <= direction <= 2 ^ 29 ->
  exists s', adjustVolume console direction s = (Ok tt, s')
    /\ myVolume s' = Z.max 0 (Z.min 100 (myVolume s + 2 * direction))
    /\ AudioSettings.volume (myAudioSettings s') = myVolume s'
    /\ myVolumeFactor s' = fdiv (float_of_Z (myVolume s')) (float_of_Z 100)
    /\ shownMessages s'
       = (if myVolume s' =? 0 then "Off" else pretty (myVolume s') +:+ "%")
         :: "Volume" :: shownMessages s.
Proof.
  intros Hinit Henabled Hvol Hdir.
  unfold adjustVolume, showGaugeMessage. exec.
  rewrite (Int32_small (myVolume s)) by lia.
  rewrite Int32_small by lia.
  rewrite clamp_spec by lia.
  replace (myVolume s + direction * 2) with (myVolume s + 2 * direction) by lia.
  set (percent := Z.max 0 (Z.min 100 (myVolume s + 2 * direction))).
  assert (Hp : 0 <= percent <= 100) by lia.
  rewrite Henabled, !andb_false_r, when_false. exec.
  rewrite uInt32_small by lia.
  rewrite (bind_run _ _ _ _ _ (setVolume_exact percent s)).
  rewrite Hinit. destruct (Z.leb_spec percent 100); [| lia]. cbn [andb].
  unfold modify. eexists. split; [reflexivity |]. members.
  repeat split. destruct (percent =? 0); reflexivity.
Qed.

(** A console that closes and opens the sound leaves the enabled setting
    alone, whether its calls return or throw. *)
Lemma console_keeps_enabled (console : list Operation) (enabled : bool) :
  Forall reopens console ->
  Preserves (fun s => AudioSettings.enabled (myAudioSettings s) = enabled)
    (in_turn run console).
Proof.
  intros Hconsole.
  assert (Hview : forall s s' : Sound, volume_view s' = volume_view s ->
            AudioSettings.enabled (myAudioSettings s) = enabled ->
            AudioSettings.enabled (myAudioSettings s') = enabled).
  { unfold volume_view. intros s s' Hview Hs. injection Hview as _ _ _ ->. exact Hs. }
  assert (Hvolume : forall percent,
            Preserves (fun s => AudioSettings.enabled (myAudioSettings s) = enabled)
              (setVolume percent)).
  { intros percent s Hs. rewrite setVolume_exact. cbn [snd].
    destruct (myIsInitializedFlag s && (percent <=? 100)); exact Hs. }
  apply P_in_turn. eapply Forall_impl; [exact Hconsole |].
  intros o Ho. destruct o; try contradiction; cbn [run].
  - apply P_open; assumption.
  - apply P_close; assumption.
Qed.

(** X16.  With a console that closes and opens the sound again,
    [toggleMute] flips the enabled setting, whether or not the console's
    calls succeed, so that two toggles in a row restore it; and a step of
    the volume that ends above zero while sound is disabled enables sound
    again. *)
Theorem toggleMute_flips_enabled (console console' : list Operation) (direction : Z)
    (s : Sound) :
  Forall reopens console -> Forall reopens console' ->
  AudioSettings.enabled (myAudioSettings (perform (op_toggleMute console) s))
  = negb (AudioSettings.enabled (myAudioSettings s))
  /\ AudioSettings.enabled
       (myAudioSettings (perform_all [op_toggleMute console; op_toggleMute console'] s))
     = AudioSettings.enabled (myAudioSettings s)
  /\ (AudioSettings.enabled (myAudioSettings s) = false -> direction <> 0 ->
      0 < clamp (Int32 (Int32 (myVolume s) + direction * 2)) 0 100 ->
      AudioSettings.enabled
        (myAudioSettings (perform (op_adjustVolume direction console) s))
      = true).
Proof.
  intros Hconsole Hconsole'.
  assert (Hkeep : forall (A : Type) (enabled : bool) (m : Member A),
            Preserves (fun x => AudioSettings.enabled (myAudioSettings x) = enabled) m
            <-> forall x, AudioSettings.enabled (myAudioSettings x) = enabled ->
                  AudioSettings.enabled (myAudioSettings (snd (m x))) = enabled)
    by (intros; reflexivity).
  assert (Hmute : forall (enabled state : bool),
            Preserves (fun x => AudioSettings.enabled (myAudioSettings x) = enabled)
              (mute state)).
  { intros enabled state x Hx. destruct (mute_effect state x) as (f & -> & _). exact Hx. }
  assert (Hflip : forall (c : list Operation) (s0 : Sound), Forall reopens c ->
            AudioSettings.enabled (myAudioSettings (perform (op_toggleMute c) s0))
            = negb (AudioSettings.enabled (myAudioSettings s0))).
  { intros c s0 Hc. unfold perform. cbn [run]. unfold toggleMute, showTextMessage.
    repeat exec.
    rewrite (bind_run _ _ _ _ _ (setEnabled_exact _ s0)).
    match goal with
    | |- AudioSettings.enabled (myAudioSettings (snd (?m ?st))) = ?e =>
        apply (proj1 (Hkeep _ e m)); [| reflexivity]
    end.
    pose proof (console_keeps_enabled c). preserves. }
  split; [apply Hflip, Hconsole |]. split.
  - unfold perform_all. cbn [fold_left]. rewrite !Hflip by assumption.
    apply negb_involutive.
  - intros Hoff Hdir Hpos. unfold perform. cbn [run].
    unfold adjustVolume, showGaugeMessage. exec.
    rewrite Hoff.
    destruct (Z.gtb_spec (clamp (Int32 (Int32 (myVolume s) + direction * 2)) 0 100) 0);
      [| lia].
    destruct (Z.eqb_spec direction 0); [contradiction |]. cbn [andb negb].
    rewrite when_true. exec.
    rewrite (bind_run _ _ _ _ _ (setEnabled_exact true s)).
    match goal with
    | |- AudioSettings.enabled (myAudioSettings (snd (?m ?st))) = ?e =>
        apply (proj1 (Hkeep _ e m)); [| reflexivity]
    end.
    pose proof (console_keeps_enabled console true Hconsole).
    assert (Hvol : forall p, Preserves
              (fun x => AudioSettings.enabled (myAudioSettings x) = true) (setVolume p)).
    { intros p x Hx. rewrite setVolume_exact. cbn [snd].
      destruct (myIsInitializedFlag x && (p <=? 100)); exact Hx. }
    preserves.
Qed.

End Behaviour.

(** * Properties of [Variant] *)

Lemma pretty_N_char_digit (d : N) :
  (d < 10)%N ->
  isdigit (pretty_N_char d) = true
  /\ Z.of_N (N_of_ascii (pretty_N_char d)) - 48 = Z.of_N d.
Proof.
  intros Hd.
  assert (d = 0 \/ d = 1 \/ d = 2 \/ d = 3 \/ d = 4 \/ d = 5 \/ d = 6 \/ d = 7
          \/ d = 8 \/ d = 9)%N as Hcases by lia.
  repeat destruct Hcases as [-> | Hcases]; try subst d; split; reflexivity.
Qed.

Lemma atoi_digits_pretty_N_go (x : N) (s : string) :
  (0 < x)%N -> atoi_digits 0 (pretty_N_go x s) = atoi_digits (Z.of_N x) s.
Proof.
  revert s. induction (N.lt_wf_0 x) as [x _ IH]. intros s Hx.
  rewrite pretty_N_go_step by exact Hx.
  destruct (pretty_N_char_digit (x mod 10)%N) as [Hdigit Hvalue];
    [apply N.mod_lt; lia |].
  assert (Hsplit : (x = 10 * (x / 10) + x mod 10)%N) by (apply N.div_mod; lia).
  assert (Hless : (x / 10 < x)%N) by (apply N.div_lt; lia).
  revert Hdigit Hvalue Hsplit Hless.
  generalize (x mod 10)%N, (x / 10)%N. intros d q Hdigit Hvalue Hsplit Hless.
  destruct (N.eq_dec q 0%N) as [Hz | Hnz].
  - rewrite Hz, pretty_N_go_0. cbn [atoi_digits]. rewrite Hdigit, Hvalue.
    f_equal. lia.
  - rewrite IH; [| exact Hless | lia].
    cbn [atoi_digits]. rewrite Hdigit, Hvalue.
    f_equal. lia.
Qed.

Lemma pretty_N_go_head (x : N) (s : string) :
  (0 < x)%N -> exists c rest, pretty_N_go x s = String c rest /\ isdigit c = true.
Proof.
  revert s. induction (N.lt_wf_0 x) as [x _ IH]. intros s Hx.
  rewrite pretty_N_go_step by exact Hx.
  destruct (N.eq_dec (x / 10)%N 0%N) as [Hz | Hnz].
  - rewrite Hz, pretty_N_go_0. eexists _, _. split; [reflexivity |].
    apply pretty_N_char_digit, N.mod_lt. lia.
  - apply IH; [apply N.div_lt; lia | apply N.neq_0_lt_0, Hnz].
Qed.

Lemma isdigit_plain (c : ascii) :
  isdigit c = true -> isspace c = false /\ c <> "-"%char /\ c <> "+"%char.
Proof.
  unfold isdigit, isspace. cbv zeta. intros Hc.
  apply andb_true_iff in Hc as [Hlo Hhi].
  apply N.leb_le in Hlo. apply N.leb_le in Hhi.
  split; [| split].
  - revert Hlo Hhi. generalize (N_of_ascii c). intros n Hlo Hhi.
    apply orb_false_iff. split.
    + apply N.eqb_neq. lia.
    + apply andb_false_iff. right. apply N.leb_gt. lia.
  - intros ->. vm_compute in Hlo. contradiction.
  - intros ->. vm_compute in Hlo. contradiction.
Qed.

Lemma atoi_pretty_pos (p : positive) :
  atoi_digits 0 (pretty (N.pos p)) = Z.pos p
  /\ exists c rest, pretty (N.pos p) = String c rest /\ isdigit c = true.
Proof.
  unfold pretty, pretty_N. destruct (decide (N.pos p = 0%N)) as [Hz | _]; [discriminate |].
  split.
  - rewrite atoi_digits_pretty_N_go by lia. reflexivity.
  - apply pretty_N_go_head. lia.
Qed.

(** X18.  An integer stored in a [Variant] is read back by [toInt]: the decimal
    text the constructor prints is what [atoi] parses. *)
Theorem Variant_Int32_round_trip (i : Z) :
  - 2 ^ 31 <= i < 2 ^ 31 -> toInt (Variant_Int32 i) = i.
Proof.
  intros Hi. unfold toInt, Variant_Int32, atoi. cbn [data].
  destruct i as [| p | p].
  - reflexivity.
  - change (pretty (Z.pos p)) with (pretty (N.pos p)).
    destruct (atoi_pretty_pos p) as [Hvalue (c & rest & Hhead & Hdigit)].
    rewrite Hhead in *.
    destruct (isdigit_plain c Hdigit) as (Hspace & Hminus & Hplus).
    cbn [skip_spaces]. rewrite Hspace.
    assert (Int32 (atoi_digits 0 (String c rest)) = Z.pos p) as Hsmall.
    { rewrite Hvalue. unfold Int32. rewrite Z.mod_small by lia. lia. }
    clear Hvalue Hhead Hdigit Hspace.
    destruct c as [[] [] [] [] [] [] [] []]; try exact Hsmall; congruence.
  - change (pretty (Z.neg p)) with (String "-" (pretty (N.pos p))).
    destruct (atoi_pretty_pos p) as [Hvalue _].
    change (skip_spaces (String "-" (pretty (N.pos p))))
      with (String "-" (pretty (N.pos p))).
    cbv beta iota. rewrite Hvalue. unfold Int32. rewrite Z.mod_small by lia. lia.
Qed.

(** The text of an integer starts with a digit or with a minus sign. *)
Lemma pretty_Z_head (i : Z) :
  exists c rest, pretty i = String c rest /\ (isdigit c = true \/ c = "-"%char).
Proof.
  destruct i as [| p | p].
  - exists "0"%char, EmptyString. split; [reflexivity | left; reflexivity].
  - destruct (atoi_pretty_pos p) as [_ (c & rest & Hhead & Hdigit)].
    exists c, rest. split; [exact Hhead | left; exact Hdigit].
  - exists "-"%char, (pretty (N.pos p)). split; [reflexivity | right; reflexivity].
Qed.

(** X19.  A truth value stored in a [Variant] is read back by [toBool], and by
    [toInt] as 1 or 0; an integer read as a truth value is true exactly
    when it is 1; two integers compare equal as variants exactly when they
    are equal. *)
Theorem Variant_truth_values (b : bool) (i j : Z) :
  toBool (Variant_bool b) = b
  /\ toInt (Variant_bool b) = (if b then 1 else 0)
  /\ toBool (Variant_Int32 i) = (i =? 1)
  /\ Variant_eq (Variant_Int32 i) (Variant_Int32 j) = (i =? j).
Proof.
  split; [destruct b; reflexivity |]. split; [destruct b; reflexivity |]. split.
  - unfold toBool, Variant_Int32. cbn [data].
    destruct (Z.eqb_spec i 1) as [-> | Hne]; [reflexivity |].
    apply orb_false_iff. split; apply String.eqb_neq.
    + intros Hone. apply Hne. apply (inj pretty). exact Hone.
    + intros Htrue. destruct (pretty_Z_head i) as (c & rest & Hhead & Hc).
      rewrite Hhead in Htrue. injection Htrue as -> _.
      destruct Hc as [Hc | Hc]; [vm_compute in Hc |]; discriminate Hc.
  - unfold Variant_eq, Variant_Int32. cbn [data].
    destruct (Z.eqb_spec i j) as [-> | Hne].
    + apply String.eqb_refl.
    + apply String.eqb_neq. intros Heq. apply Hne. apply (inj pretty). exact Heq.
Qed.

(** * The example resampler keeps the law *)

Lemma copy_fill_keeps {St : Type} (P : St -> Prop) (next : StateExc St (option Fragment))
    (n : nat) :
  (forall s0, P s0 -> P (snd (next s0))) ->
  forall (i : nat) (r : CopyResampler) (stream : list float) (s : St),
    P s -> P (snd (copy_fill next n i r stream s)).
Proof.
  intros Hnext. induction n as [| n IH]; intros i r stream s Hs; cbn [copy_fill].
  - exact Hs.
  - destruct (copy_pending r) as [| x rest]; [| exact (IH _ _ _ _ Hs)].
    unfold bind. specialize (Hnext s Hs).
    destruct (next s) as [[[[| x rest] |] | e] s1]; cbn [snd] in Hnext; cbv beta iota;
      try exact (IH _ _ _ _ Hnext); exact Hnext.
Qed.

Lemma CopyResampler_lawful : ResamplerLawful CopyResampler.
Proof.
  intros St P next stream len r s Hnext Hs.
  exact (copy_fill_keeps P next (Z.to_nat len) Hnext 0%nat r stream s Hs).
Qed.

(** * The model at work: instances of the theorems and failing inputs *)

(** C1, the failing input: on the resident 200 byte buffer,
    [playWav("a.wav", 100, 0)] leaves 200 bytes to play from offset 100. *)
Lemma playWav_effective_length_witness :
  myWavLength example_playing = 200
  /\ myWavPos (snd (playWav "a.wav" 100 0 example_playing)) = 4096 + 100
  /\ myWavLen (snd (playWav "a.wav" 100 0 example_playing)) = 200.
Proof.
  destruct (playWav_effective_length "a.wav" 100 0 example_playing)
    as [_ Hwithin];
    [vm_compute; reflexivity | vm_compute; discriminate | lia | vm_compute; reflexivity |].
  destruct Hwithin as (Hpos & _ & Hzero); [vm_compute; discriminate |].
  split; [vm_compute; reflexivity |]. split.
  - rewrite Hpos. vm_compute. reflexivity.
  - rewrite Hzero by reflexivity. vm_compute. reflexivity.
Defined.

(** C2, the failing input: with "a.wav" resident and playing,
    [playWav("b.wav", 0, 0)] fails on the load after it has released the
    buffer at 4096; the cursor stays at 4096 with 200 bytes to play on a
    device that keeps playing, and the next callback mixes 50 bytes from
    the released buffer.  The two failures on the offset are there as
    well. *)
Lemma playWav_failure_effects_witness :
  playWav "a.wav" 250 0 example_playing = (Ok false, example_playing)
  /\ (exists s', playWav "b.wav" 0 0 example_playing = (Ok false, s')
        /\ myWavBuffer example_playing = 4096 /\ myWavBuffer s' = 0
        /\ myWavPos s' = 4096 /\ myWavLen s' = 200
        /\ SDL_GetAudioDeviceStatus (sdl s') (myWavDevice s') = SDL_AUDIO_PLAYING
        /\ sdl_calls (sdl (snd (wavCallback 50 s')))
           = Call_MixAudioFormat 4096 8 50 (mix_volume example_playing)
             :: Call_memset 128 50
             :: Call_LoadWAV "b.wav" :: Call_FreeWAV 4096
             :: sdl_calls (sdl example_playing))
  /\ (exists s', playWav "a.wav" 250 0 example_sound = (Ok false, s')
        /\ myWavPos s' = myWavPos example_sound
        /\ myWavLen s' = myWavLen example_sound
        /\ myWavBuffer s' = Z.pos (wav_buf example_wav)).
Proof.
  split; [| split].
  - apply (proj1 (playWav_failure_effects "a.wav" 250 0 example_playing));
      [vm_compute; reflexivity | vm_compute; discriminate | vm_compute; reflexivity].
  - destruct (proj1 (proj2 (playWav_failure_effects "b.wav" 0 0 example_playing)))
      as (s' & Hrun & Hbuf & Hpos & Hlen & Hdev & Hdevs & Hcalls & Hmix);
      [left; vm_compute; discriminate | vm_compute; reflexivity |].
    exists s'. split; [exact Hrun |].
    split; [vm_compute; reflexivity |]. split; [exact Hbuf |].
    split; [rewrite Hpos; vm_compute; reflexivity |].
    split; [rewrite Hlen; vm_compute; reflexivity |].
    split.
    + unfold SDL_GetAudioDeviceStatus. rewrite Hdev, Hdevs. vm_compute. reflexivity.
    + rewrite Hmix, Hcalls;
        [vm_compute; reflexivity | vm_compute; discriminate | vm_compute; reflexivity].
  - destruct (proj2 (proj2 (playWav_failure_effects "a.wav" 250 0 example_sound))
                example_wav)
      as (s' & Hrun & Hpos & Hlen & Hbuf & _);
      [right; vm_compute; reflexivity | vm_compute; reflexivity | vm_compute; reflexivity |].
    exists s'. auto.
Defined.

(** C3, the failing input: after [playWav("a.wav", 100, 0)] the cursor plus
    the remaining length lies 100 bytes past the end of the buffer, and the
    next callback mixes 200 bytes from offset 100 of a 200 byte buffer. *)
Lemma playWav_offset_zero_length_overruns :
  fst (playWav "a.wav" 100 0 example_playing) = Ok true
  /\ myWavBuffer (snd (playWav "a.wav" 100 0 example_playing))
     + myWavLength (snd (playWav "a.wav" 100 0 example_playing)) = 4096 + 200
  /\ myWavPos (snd (playWav "a.wav" 100 0 example_playing))
     + myWavLen (snd (playWav "a.wav" 100 0 example_playing)) = 4096 + 300
  /\ hd_error (sdl_calls (sdl (snd (wavCallback 4096
                 (snd (playWav "a.wav" 100 0 example_playing))))))
     = Some (Call_MixAudioFormat (4096 + 100) 8 200
               (mix_volume (snd (playWav "a.wav" 100 0 example_playing)))).
Proof.
  split; [vm_compute; reflexivity |]. split; [vm_compute; reflexivity |].
  split; vm_compute; reflexivity.
Qed.

(** C4, an accepted percentage that is not stored: the device is not
    initialized. *)
Lemma setVolume_uninitialized_ignored :
  0 <= 50 <= 100
  /\ setVolume 50 example_silent = (Ok tt, example_silent)
  /\ myVolumeFactor (snd (setVolume 50 example_silent))
     <> fdiv (float_of_Z 50) (float_of_Z 100).
Proof.
  split; [lia |]. split; [vm_compute; reflexivity | vm_compute; discriminate].
Qed.

Lemma setVolume_guarded_witness :
  setVolume 150 example_sound = (Ok tt, example_sound)
  /\ setVolume 50 example_silent = (Ok tt, example_silent)
  /\ exists s', setVolume 50 example_sound = (Ok tt, s')
       /\ myVolume s' = 50
       /\ AudioSettings.volume (myAudioSettings s') = 50
       /\ myVolumeFactor s' = fdiv (float_of_Z 50) (float_of_Z 100)
       /\ myWavVolumeFactor s' = fdiv (float_of_Z 50) (float_of_Z 100).
Proof.
  split; [| split].
  - apply (proj1 (setVolume_guarded 150 example_sound)). left. lia.
  - apply (proj1 (setVolume_guarded 50 example_silent)). right. vm_compute. reflexivity.
  - apply (proj2 (setVolume_guarded 50 example_sound)); [lia | vm_compute; reflexivity].
Defined.

(** C5 at work: in the underrun state with three fragments queued and a
    prebuffer count of two the pull dequeues; with a count of five it does
    not. *)
Lemma nextFragmentCallback_prebuffer_witness :
  (exists s', nextFragmentCallback example_open = (Ok (Some [100; 200; 300; 400]), s')
     /\ myAudioQueue s' = Some (example_queue (tl example_fragments)))
  /\ nextFragmentCallback example_starved = (Ok None, example_starved).
Proof.
  split.
  - assert (Hq : myAudioQueue example_open = Some (example_queue example_fragments))
      by (vm_compute; reflexivity).
    assert (Ht : myEmulationTiming example_open = Some example_timing)
      by (vm_compute; reflexivity).
    destruct (proj1 (proj2 (nextFragmentCallback_prebuffer example_open
                (example_queue example_fragments) example_timing Hq Ht)))
      as (s' & Hrun & Hq').
    + right. vm_compute. discriminate.
    + exists s'. split.
      * rewrite Hrun. vm_compute. reflexivity.
      * rewrite Hq'. vm_compute. reflexivity.
  - assert (Hq : myAudioQueue example_starved = Some (example_queue example_fragments))
      by (vm_compute; reflexivity).
    assert (Ht : myEmulationTiming example_starved
                 = Some {| audioSampleRate := 31440; prebufferFragmentCount := 5 |})
      by (vm_compute; reflexivity).
    apply (proj1 (nextFragmentCallback_prebuffer example_starved _ _ Hq Ht));
      vm_compute; reflexivity.
Defined.

(** C6 at work: without a queue the callback zero-fills eight cells; with
    the opened queue it returns the first sample of the first fragment
    scaled by the volume factor. *)
Lemma callback_fills_and_scales_witness :
  callback (replicate 8 S754_nan) 32 example_sound
  = (Ok (replicate 8 (S754_zero false)), example_sound)
  /\ exists out s', callback (replicate 8 S754_nan) 32 example_open = (Ok out, s')
       /\ out !! 0%nat = Some (fmul (sample_of_Int16 100) (myVolumeFactor example_open)).
Proof.
  split.
  - destruct (callback_fills_and_scales (replicate 8 S754_nan) 32 example_sound)
      as [Hnone _]; [lia |].
    destruct Hnone as [Hrun Hzero]; [vm_compute; reflexivity |].
    rewrite Hrun, Hzero by (vm_compute; reflexivity). reflexivity.
  - destruct (callback_fills_and_scales (replicate 8 S754_nan) 32 example_open)
      as [_ Hbound]; [lia |].
    specialize (Hbound (example_queue example_fragments)
                  {| copy_pending := []; copy_held := S754_zero false |}).
    destruct (fillFragment nextFragmentCallback (replicate 8 S754_nan) (32 / 4)
                {| copy_pending := []; copy_held := S754_zero false |} example_open)
      as [[[r' filled] | e] s1] eqn:Hfill.
    + destruct Hbound as (out & Hrun & _ & Hout);
        [vm_compute; reflexivity | vm_compute; reflexivity |].
      exists out. eexists. split; [exact Hrun |].
      rewrite (Hout 0%nat).
      vm_compute in Hfill. injection Hfill as _ <- <-.
      vm_compute. reflexivity.
    + vm_compute in Hfill. discriminate Hfill.
Defined.

(** C7 at work: the settings of the example are those of its device. *)
Lemma open_reopens_only_on_change_witness :
  myDevice (snd (open (example_queue example_fragments) example_timing example_sound))
  = myDevice example_sound
  /\ myHardwareSpec (snd (open (example_queue example_fragments) example_timing example_sound))
     = myHardwareSpec example_sound
  /\ exists calls,
       sdl_calls (sdl (snd (open (example_queue example_fragments) example_timing
                              example_sound)))
       = (calls ++ sdl_calls (sdl example_sound))%list
       /\ Forall (fun c => opens_or_closes c = false) calls.
Proof. apply open_reopens_only_on_change; vm_compute; reflexivity. Defined.

(** C8 at work, with a console that re-opens the sound with a fresh queue:
    muting the playing device returns false and muting with that value
    resumes it; toggling the enabled sound returns false and disables it. *)
Lemma mute_and_toggleMute_results_witness :
  (exists old s' v s'',
     mute true example_open = (Ok old, s') /\ mute old s' = (Ok v, s'')
     /\ SDL_GetAudioDeviceStatus (sdl s'') (myDevice s'')
        = SDL_GetAudioDeviceStatus (sdl example_open) (myDevice example_open))
  /\ exists s', toggleMute (open (example_queue []) example_timing) example_open
                = (Ok false, s')
       /\ AudioSettings.enabled (myAudioSettings s') = false.
Proof.
  destruct (mute_and_toggleMute_results
              (open (example_queue []) example_timing) true example_open)
    as [Hmute Htoggle].
  split.
  - destruct Hmute as (old & s' & Hrun & _ & Hrestore).
    destruct Hrestore as (v & s'' & Hrun' & Hstatus);
      [vm_compute; reflexivity | exists false; vm_compute; reflexivity |].
    exists old, s', v, s''. auto.
  - destruct (Htoggle
                (snd (open (example_queue []) example_timing
                        (snd (setEnabled
                                (negb (AudioSettings.enabled (myAudioSettings example_open)))
                                example_open)))))
      as (s' & Hrun & Henabled);
      [vm_compute; reflexivity | vm_compute; reflexivity |].
    exists s'. split.
    + rewrite Hrun. vm_compute. reflexivity.
    + rewrite Henabled. vm_compute. reflexivity.
Defined.

(** C9 at work: at volume 50 the first sample of the first fragment leaves
    [processFragment] multiplied by 50/100; and the sample 3 * 2^-149
    comes back from halving and doubling as 4 * 2^-149, one unit away. *)
Lemma volume_scaling_linear_witness :
  (exists out s',
     processFragment (replicate 8 S754_nan) 8 (snd (setVolume 50 example_open))
     = (Ok out, s')
     /\ out !! 0%nat
        = Some (fmul (sample_of_Int16 100) (fdiv (float_of_Z 50) (float_of_Z 100))))
  /\ fmul (fmul (S754_finite false 3 (-149)) (fdiv (float_of_Z 50) (float_of_Z 100)))
       (float_of_Z 2)
     = S754_finite false 4 (-149)
  /\ within_rounding
       (fmul (fmul (S754_finite false 3 (-149)) (fdiv (float_of_Z 50) (float_of_Z 100)))
          (float_of_Z 2))
       (fmul (S754_finite false 3 (-149)) (fdiv (float_of_Z 100) (float_of_Z 100)))
     = true
  /\ is_zero (fmul (sample_of_Int16 100) (fdiv (float_of_Z 0) (float_of_Z 100))) = true.
Proof.
  destruct (fillFragment nextFragmentCallback (replicate 8 S754_nan) 8
              {| copy_pending := []; copy_held := S754_zero false |}
              (snd (setVolume 50 example_open)))
    as [[[r' filled] | e] s1] eqn:Hfill.
  - destruct (volume_scaling_linear 50 example_open (replicate 8 S754_nan) 8
                {| copy_pending := []; copy_held := S754_zero false |} r' filled s1)
      as (Hlin & Hdouble & Hzero);
      [vm_compute; reflexivity | lia | lia | vm_compute; reflexivity | exact Hfill
      | vm_compute in Hfill; injection Hfill as _ _ <-; vm_compute; reflexivity |].
    destruct Hlin as (out & Hrun & Hout).
    split; [| split; [| split]].
    + exists out. eexists. split; [exact Hrun |].
      apply Hout; [lia |].
      vm_compute in Hfill. injection Hfill as _ <- _. vm_compute. reflexivity.
    + vm_compute. reflexivity.
    + apply (Hdouble (S754_finite false 3 (-149))); vm_compute; reflexivity.
    + apply Hzero. vm_compute. reflexivity.
  - vm_compute in Hfill. discriminate Hfill.
Defined.

(** C10 at work: 200 bytes remain after [playWav("a.wav", 0, 0)], and 150
    after a callback for 50 bytes. *)
Lemma wavSize_is_remaining_length_witness :
  wavSize example_playing = 200
  /\ exists s', wavCallback 50 example_playing = (Ok tt, s')
       /\ myWavPos s' = 4096 + 50
       /\ wavSize s' = 150.
Proof.
  assert (Hlen : myWavLen example_playing = 200) by (vm_compute; reflexivity).
  destruct (wavSize_is_remaining_length example_playing 50)
    as (_ & Hsize & s' & Hrun & Hpos & Hless); [rewrite Hlen; lia |].
  split.
  - rewrite Hsize by (vm_compute; discriminate). exact Hlen.
  - exists s'. split; [exact Hrun |]. split.
    + rewrite Hpos by (vm_compute; discriminate). vm_compute. reflexivity.
    + rewrite Hless by (vm_compute; discriminate). vm_compute. reflexivity.
Defined.
(** * The further properties at work *)

(** A callback of 64 bytes on the 200 byte overlay. *)
Lemma wavCallback_conserves_region_witness :
  exists s', wavCallback 64 example_playing = (Ok tt, s')
    /\ myWavPos s' + myWavLen s' = myWavPos example_playing + myWavLen example_playing
    /\ myWavPos example_playing <= myWavPos s'
    /\ 0 <= myWavLen s' <= myWavLen example_playing
    /\ (wav_in_bounds example_playing -> wav_in_bounds s').
Proof.
  apply (wavCallback_conserves_region 64 example_playing).
  - split; vm_compute; [discriminate | reflexivity].
  - lia.
Defined.

(** Four callbacks of 64 bytes drain the 200 byte overlay. *)
Lemma wavCallbacks_drain_witness :
  myWavLen (wavCallbacks 4 64 example_playing)
  = Z.max 0 (myWavLen example_playing - Z.of_nat 4 * 64)
  /\ myWavPos (wavCallbacks 4 64 example_playing)
     = myWavPos example_playing + Z.min (myWavLen example_playing) (Z.of_nat 4 * 64).
Proof.
  apply (wavCallbacks_drain 4 64 example_playing).
  - vm_compute. reflexivity.
  - split; vm_compute; [discriminate | reflexivity].
  - lia.
Defined.

(** [playWav("a.wav", 50, 100)] on the fresh object loads the file and
    selects bytes 50 to 150. *)
Lemma playWav_region_in_bounds_witness :
  wav_in_bounds (snd (playWav "a.wav" 50 100 example_sound))
  /\ myWavBuffer (snd (playWav "a.wav" 50 100 example_sound)) <> 0
  /\ myWavPos (snd (playWav "a.wav" 50 100 example_sound))
     = myWavBuffer (snd (playWav "a.wav" 50 100 example_sound)) + 50
  /\ 0 <= myWavLen (snd (playWav "a.wav" 50 100 example_sound)).
Proof.
  apply (playWav_region_in_bounds "a.wav" 50 100 example_sound).
  - lia.
  - lia.
  - left. lia.
  - split; vm_compute; [discriminate | reflexivity].
  - intros w Hw. vm_compute in Hw. injection Hw as <-.
    split; vm_compute; [discriminate | reflexivity].
  - vm_compute. reflexivity.
Defined.

(** The device of the object that has none yet. *)
Lemma openDevice_outcome_witness :
  exists (ok : bool) (s' : SoundSDL2 FifoQueue CopyResampler) (name : option string),
    openDevice example_silent = (Ok ok, s')
    /\ myIsInitializedFlag s' = ok
    /\ (ok = true <-> myDevice s' <> 0)
    /\ myDeviceId s'
       = Z.min (AudioSettings.device (myAudioSettings example_silent))
               (Z.of_nat (length (myDevices example_silent)) - 1)
    /\ name = (if myDeviceId s' =? 0 then None
               else fst <$> myDevices example_silent !! Z.to_nat (myDeviceId s'))
    /\ sdl_calls (sdl s')
       = Call_OpenAudioDevice name
           {| freq := Int32 (AudioSettings.sampleRate (myAudioSettings example_silent));
              format := AUDIO_F32SYS;
              channels := 2;
              silence := 0;
              samples := Uint16 (AudioSettings.fragmentSize (myAudioSettings example_silent));
              callback_fn := Some cb_callback |}
           SDL_AUDIO_ALLOW_FREQUENCY_CHANGE
           :: (if myIsInitializedFlag example_silent
               then [Call_CloseAudioDevice (myDevice example_silent)] else [])
           ++ sdl_calls (sdl example_silent)
    /\ (ok = true -> SDL_GetAudioDeviceStatus (sdl s') (myDevice s') = SDL_AUDIO_PAUSED).
Proof.
  apply (openDevice_outcome example_silent).
  - vm_compute. discriminate.
  - vm_compute. discriminate.
  - vm_compute. discriminate.
Defined.

(** [open] on the example object with its queue of three fragments. *)
Lemma open_outcome_witness :
  exists s', open (example_queue example_fragments) example_timing example_sound = (Ok tt, s')
    /\ myAudioQueue s' = Some (queue_ignoreOverflows false (example_queue example_fragments))
    /\ myUnderrun s' = true
    /\ SDL_GetAudioDeviceStatus (sdl s') (myDevice s') = SDL_AUDIO_PLAYING.
Proof.
  destruct (open_outcome (example_queue example_fragments) example_timing example_sound)
    as (s' & Hrun & _ & _ & _ & _ & Hon & Hstatus).
  - split; vm_compute; [discriminate | reflexivity].
  - vm_compute. discriminate.
  - intros _. exists true. vm_compute. reflexivity.
  - exists s'. split; [exact Hrun |].
    destruct Hon as (Hq & Hu & _); [vm_compute; reflexivity |].
    split; [exact Hq |]. split; [exact Hu |].
    rewrite Hstatus.
    + vm_compute. reflexivity.
    + apply (f_equal snd) in Hrun. cbn [snd] in Hrun. rewrite <- Hrun.
      vm_compute. reflexivity.
Defined.

(** With 48000 Hz configured on a 44100 Hz device, [open] closes device 2
    and asks for a device at 48000 Hz. *)
Lemma open_reopens_on_change_witness :
  exists name calls,
    sdl_calls (sdl (snd (open (example_queue example_fragments) example_timing
                           example_retuned)))
    = (calls
       ++ Call_OpenAudioDevice name
            {| freq := Int32 (AudioSettings.sampleRate (myAudioSettings example_retuned));
               format := AUDIO_F32SYS;
               channels := 2;
               silence := 0;
               samples := Uint16 (AudioSettings.fragmentSize
                                    (myAudioSettings example_retuned));
               callback_fn := Some cb_callback |}
            SDL_AUDIO_ALLOW_FREQUENCY_CHANGE
          :: (if myIsInitializedFlag example_retuned
              then [Call_CloseAudioDevice (myDevice example_retuned)] else [])
          ++ sdl_calls (sdl example_retuned))%list
    /\ Forall (fun c => opens_or_closes c = false) calls.
Proof.
  apply (open_reopens_on_change (example_queue example_fragments) example_timing
           example_retuned).
  - vm_compute. discriminate.
  - vm_compute. discriminate.
  - vm_compute. discriminate.
  - left. vm_compute. discriminate.
Defined.

(** Closing the playing example and opening it again leaves it playing. *)
Lemma close_then_open_resumes_witness :
  exists s', open (example_queue example_fragments) example_timing (snd (close example_open))
             = (Ok tt, s')
    /\ myAudioQueue s' = Some (queue_ignoreOverflows false (example_queue example_fragments))
    /\ (myIsInitializedFlag s' = true ->
        SDL_GetAudioDeviceStatus (sdl s') (myDevice s')
        = SDL_GetAudioDeviceStatus (sdl example_open) (myDevice example_open)).
Proof.
  apply (close_then_open_resumes (example_queue example_fragments) example_timing
           example_open).
  - vm_compute. reflexivity.
  - exists false. vm_compute. reflexivity.
  - vm_compute. reflexivity.
  - split; vm_compute; [discriminate | reflexivity].
  - vm_compute. discriminate.
Defined.

(** The constructor on the blank object, with SDL naming two devices. *)
Lemma SoundSDL2_ctor_outcome_witness :
  exists s', SoundSDL2_ctor example_blank = (Ok tt, s')
    /\ myDevices s' = [("Default", 0); ("Speakers", 1); ("Headphones", 2)]
    /\ myIsInitializedFlag s' = true
    /\ wav_volume_tracks s'.
Proof.
  destruct (SoundSDL2_ctor_outcome example_blank) as [_ Hinit].
  - vm_compute. discriminate.
  - vm_compute. discriminate.
  - destruct Hinit as (s' & Hrun & Hdevices & _ & _ & Hopen); [reflexivity |].
    exists s'. split; [exact Hrun |]. split; [rewrite Hdevices; reflexivity |].
    assert (Hflag : myIsInitializedFlag s' = true).
    { apply (f_equal snd) in Hrun. cbn [snd] in Hrun. rewrite <- Hrun.
      vm_compute. reflexivity. }
    split; [exact Hflag |]. apply (Hopen Hflag).
Defined.

(** The example session, started on the fresh object, and started after a
    call of [setEnabled]. *)
Lemma overlay_volume_follows_enabled_witness :
  (wav_volume_tracks example_sound ->
   wav_volume_tracks (perform_all example_session example_sound))
  /\ forall enable,
       wav_volume_tracks
         (perform_all example_session (snd (setEnabled enable example_sound))).
Proof.
  exact (overlay_volume_follows_enabled (lawful := CopyResampler_lawful)
           example_session example_sound).
Defined.

(** The example session after [setVolume(40)]. *)
Lemma volume_stays_in_range_witness :
  volume_in_range (perform_all example_session (snd (setVolume 40 example_sound))).
Proof.
  apply (volume_stays_in_range (lawful := CopyResampler_lawful)
           example_session example_sound).
  - vm_compute. reflexivity.
  - lia.
Defined.

(** Three steps down from 100 percent. *)
Lemma adjustVolume_steps_witness :
  exists s',
    adjustVolume (open (example_queue example_fragments) example_timing) (-3) example_sound
    = (Ok tt, s')
    /\ myVolume s' = 94
    /\ shownMessages s' = ["94%"; "Volume"].
Proof.
  destruct (adjustVolume_steps (open (example_queue example_fragments) example_timing)
              (-3) example_sound)
    as (s' & Hrun & Hvolume & _ & _ & Hshown).
  - vm_compute. reflexivity.
  - vm_compute. reflexivity.
  - split; vm_compute; discriminate.
  - lia.
  - exists s'. split; [exact Hrun |].
    assert (Hv : myVolume s' = 94) by (rewrite Hvolume; vm_compute; reflexivity).
    split; [exact Hv |]. rewrite Hshown, Hv. vm_compute. reflexivity.
Defined.


(** The tag of a device, and a negative number. *)
Lemma Variant_Int32_round_trip_witness :
  toInt (Variant_Int32 2) = 2 /\ toInt (Variant_Int32 (-2600)) = -2600.
Proof.
  split; apply Variant_Int32_round_trip; lia.
Defined.

(** Toggled with the console of the example: sound goes off, and comes back
    on a second toggle; a step up of the volume on the muted overlay
    enables sound again. *)
Lemma toggleMute_flips_enabled_witness :
  AudioSettings.enabled
    (myAudioSettings (perform (op_toggleMute example_console) example_sound)) = false
  /\ AudioSettings.enabled
       (myAudioSettings
          (perform_all [op_toggleMute example_console; op_toggleMute example_console]
             example_sound)) = true
  /\ AudioSettings.enabled
       (myAudioSettings (perform (op_adjustVolume 1 example_console) example_muted))
     = true.
Proof.
  assert (Hconsole : Forall reopens example_console)
    by (repeat constructor).
  destruct (toggleMute_flips_enabled example_console example_console 1 example_sound
              Hconsole Hconsole) as (Hflip & Htwice & _).
  destruct (toggleMute_flips_enabled example_console example_console 1 example_muted
              Hconsole Hconsole) as (_ & _ & Hstep).
  split; [rewrite Hflip; vm_compute; reflexivity |].
  split; [rewrite Htwice; vm_compute; reflexivity |].
  apply Hstep; [vm_compute; reflexivity | lia | vm_compute; reflexivity].
Defined.
